(** * MuffinsVRFixes: the offset node and the VR180 stereo tools

    A shallow embedding of [muffins_offset_node.py] and
    [vr180_stereo_tools.py], and the properties of their pixel geometry.

    - [Py]: the few pieces of Python the two nodes rely on (exceptions,
      binary64 floats, [round], [float(int)]).
    - [Torch]: batched image tensors [B,H,W,C] and the tensor operations the
      nodes call (slicing, [cat], [roll], [clamp], slice assignment).
    - [MuffinsOffsetNode], [VR180StereoTools]: the two nodes, statement by
      statement.
    - The theorems follow the modules. *)

From Stdlib Require Import ZArith List String Bool Lia.
From Stdlib Require Import Floats.SpecFloat.
From Stdlib Require Import DecimalString.
Import ListNotations.

Open Scope Z_scope.

(* ================================================================== *)
(** ** Python values *)

Module Py.

(** The exceptions the nodes can raise, with their message. *)
Inductive exn : Type :=
| ValueError (msg : string)
| OverflowError (msg : string).

Inductive result (A : Type) : Type :=
| Ok (a : A)
| Raise (e : exn).
Arguments Ok {A} a.
Arguments Raise {A} e.

Definition bind {A B : Type} (r : result A) (k : A -> result B) : result B :=
  match r with
  | Ok a => k a
  | Raise e => Raise e
  end.

(** A Python [float] is an IEEE-754 binary64 number. *)
Definition float := spec_float.

Definition prec64 : Z := 53.
Definition emax64 : Z := 1024.

Definition is_nan (x : spec_float) : bool :=
  match x with S754_nan => true | _ => false end.

Definition is_inf (x : spec_float) : bool :=
  match x with S754_infinity _ => true | _ => false end.

(** [float(n)] for a Python [int]: nearest binary64, or [OverflowError]. *)
Definition float_of_int (n : Z) : result float :=
  let r := binary_normalize prec64 emax64 n 0 false in
  if is_inf r then Raise (OverflowError "int too large to convert to float")
  else Ok r.

Definition hundred : float :=
  Eval vm_compute in binary_normalize prec64 emax64 100 0 false.

Definition fdiv (x y : float) : float := SFdiv prec64 emax64 x y.
Definition fmul (x y : float) : float := SFmul prec64 emax64 x y.

(** The integer nearest to [m * 2^e], ties going to the even one. *)
Definition round_half_even (m : positive) (e : Z) : Z :=
  match e with
  | Z0 => Zpos m
  | Zpos p => Zpos m * 2 ^ Zpos p
  | Zneg p =>
      let d := 2 ^ Zpos p in
      let q := Zpos m / d in
      let r := Zpos m mod d in
      match 2 * r ?= d with
      | Lt => q
      | Gt => q + 1
      | Eq => if Z.even q then q else q + 1
      end
  end.

(** [int(round(x))]: [round] on a float already returns an [int]; it
    raises on NaN and on the infinities. *)
Definition round (x : float) : result Z :=
  match x with
  | S754_nan => Raise (ValueError "cannot convert float NaN to integer")
  | S754_infinity _ =>
      Raise (OverflowError "cannot convert float infinity to integer")
  | S754_zero _ => Ok 0
  | S754_finite s m e => Ok (cond_Zopp s (round_half_even m e))
  end.

(** [str(n)] for a non-negative [int]. *)
Definition str_of_nat (n : nat) : string :=
  NilEmpty.string_of_uint (Nat.to_uint n).

End Py.

Import Py.

Declare Scope py_scope.
Notation "x <- r ;; k" := (Py.bind r (fun x => k))
  (at level 61, r at next level, right associativity) : py_scope.
Open Scope py_scope.

(* ================================================================== *)
(** ** Tensors *)

Module Torch.

(** The element type of a ComfyUI IMAGE tensor: IEEE-754 binary32. *)
Definition f32 := spec_float.

Definition prec32 : Z := 24.
Definition emax32 : Z := 128.

Definition f32_zero : f32 := S754_zero false.
Definition f32_one : f32 :=
  Eval vm_compute in binary_normalize prec32 emax32 1 0 false.

Definition f32_add (x y : f32) : f32 := SFadd prec32 emax32 x y.
Definition f32_sub (x y : f32) : f32 := SFsub prec32 emax32 x y.
Definition f32_mul (x y : f32) : f32 := SFmul prec32 emax32 x y.

(** The conversion [torch.tensor(python_float, dtype=float32)] does. *)
Definition f32_of_float (x : Py.float) : f32 :=
  match x with
  | S754_finite s m e => binary_round prec32 emax32 s m e
  | _ => x
  end.

(** Elementwise maximum and minimum as [torch.clamp] uses them: a NaN
    operand is propagated. *)
Definition fmax (x y : f32) : f32 :=
  if is_nan x then x else if is_nan y then y
  else if SFltb x y then y else x.

Definition fmin (x y : f32) : f32 :=
  if is_nan x then x else if is_nan y then y
  else if SFltb y x then y else x.

(** [min(max(x, lo), hi)], the elementwise definition of [torch.clamp]. *)
Definition clamp_elt (lo hi x : f32) : f32 := fmin (fmax x lo) hi.

(** [0 <= x <= 1] (false for NaN). *)
Definition in_unit (x : f32) : bool :=
  SFleb f32_zero x && SFleb x f32_one.

Section Tensor.
Context {A : Type}.

(** A tensor of shape [(dimB, dimH, dimW, dimC)]; [get t b i j c] is
    [t[b, i, j, c]] and is only meaningful inside the shape. *)
Record tensor : Type := Tensor {
  dimB : nat;
  dimH : nat;
  dimW : nat;
  dimC : nat;
  get : nat -> nat -> nat -> nat -> A
}.

Definition shape (t : tensor) : nat * nat * nat * nat :=
  (dimB t, dimH t, dimW t, dimC t).

Definition in_shape (t : tensor) (b i j c : nat) : Prop :=
  (b < dimB t /\ i < dimH t /\ j < dimW t /\ c < dimC t)%nat.

(** [torch.equal]: same shape, same elements. *)
Definition tensor_eq (s t : tensor) : Prop :=
  shape s = shape t /\
  forall b i j c, in_shape s b i j c -> get s b i j c = get t b i j c.

(** A tensor of shape [(b, h, w, c)] holding [px k] in channel [k] of
    every pixel: [px_row.view(1,1,1,c).expand(b,h,w,c).clone()]. *)
Definition full (b h w c : nat) (px : nat -> A) : tensor :=
  {| dimB := b; dimH := h; dimW := w; dimC := c;
     get := fun _ _ _ k => px k |}.

(** [t.clone()]: an equal tensor on storage of its own. *)
Definition clone (t : tensor) : tensor := t.

(** [t[:, :, lo:hi, :]] for [0 <= lo] and [0 <= hi]; like Python, the
    bounds are cut down to the width. *)
Definition slice_w (lo hi : nat) (t : tensor) : tensor :=
  let lo' := Nat.min lo (dimW t) in
  let hi' := Nat.min hi (dimW t) in
  {| dimB := dimB t; dimH := dimH t; dimW := (hi' - lo')%nat;
     dimC := dimC t;
     get := fun b i j c => get t b i (lo' + j)%nat c |}.

(** [torch.cat([s, t], dim=2)], for [s] and [t] that agree on the batch,
    height and channel sizes (torch raises otherwise). *)
Definition cat_w (s t : tensor) : tensor :=
  {| dimB := dimB s; dimH := dimH s; dimW := (dimW s + dimW t)%nat;
     dimC := dimC s;
     get := fun b i j c =>
              if (j <? dimW s)%nat then get s b i j c
              else get t b i (j - dimW s)%nat c |}.

(** [torch.roll(t, shifts=(sy, sx), dims=(1, 2))]: the element at row
    [i], column [j] moves to row [(i + sy) mod H], column
    [(j + sx) mod W]. torch takes the shifts as 64-bit integers; the node
    passes normalized shifts, at most half a dimension, whenever
    [H >= 1] and [W >= 1], and the statements about wrap mode below that
    assert a result are made under that condition. *)
Definition roll (t : tensor) (sy sx : Z) : tensor :=
  {| dimB := dimB t; dimH := dimH t; dimW := dimW t; dimC := dimC t;
     get := fun b i j c =>
              get t b
                  (Z.to_nat ((Z.of_nat i - sy) mod Z.of_nat (dimH t)))
                  (Z.to_nat ((Z.of_nat j - sx) mod Z.of_nat (dimW t)))
                  c |}.

(** The slice assignment
    [out[:, dy:dy+hc, dx:dx+wc, :] = img[:, sy:sy+hc, sx:sx+wc, :]]
    for rectangles that lie inside both tensors. *)
Definition paste (out img : tensor) (dy dx sy sx hc wc : Z) : tensor :=
  {| dimB := dimB out; dimH := dimH out; dimW := dimW out;
     dimC := dimC out;
     get := fun b i j c =>
              let i' := Z.of_nat i in
              let j' := Z.of_nat j in
              if (dy <=? i') && (i' <? dy + hc)
                 && (dx <=? j') && (j' <? dx + wc)
              then get img b (Z.to_nat (i' - dy + sy))
                             (Z.to_nat (j' - dx + sx)) c
              else get out b i j c |}.

(** [out[:, :, lo:hi, :] = band] for [lo <= hi <= W] and a band of
    width [hi - lo]. *)
Definition assign_w (lo hi : nat) (out band : tensor) : tensor :=
  {| dimB := dimB out; dimH := dimH out; dimW := dimW out;
     dimC := dimC out;
     get := fun b i j c =>
              if (lo <=? j)%nat && (j <? hi)%nat
              then get band b i (j - lo)%nat c
              else get out b i j c |}.

(** An elementwise unary operation. *)
Definition tmap (f : A -> A) (t : tensor) : tensor :=
  {| dimB := dimB t; dimH := dimH t; dimW := dimW t; dimC := dimC t;
     get := fun b i j c => f (get t b i j c) |}.

(** An elementwise binary operation on tensors of one shape. *)
Definition tmap2 (f : A -> A -> A) (s t : tensor) : tensor :=
  {| dimB := dimB s; dimH := dimH s; dimW := dimW s; dimC := dimC s;
     get := fun b i j c => f (get s b i j c) (get t b i j c) |}.

(** [t op r.view(1, 1, f, 1)]: column [j] of [t] is combined with
    [r j], for a [t] of width [f]. *)
Definition tmap_w (f : A -> A -> A) (t : tensor) (r : nat -> A) : tensor :=
  {| dimB := dimB t; dimH := dimH t; dimW := dimW t; dimC := dimC t;
     get := fun b i j c => f (get t b i j c) (r j) |}.

End Tensor.

Arguments tensor A : clear implicits.

(** [torch.zeros((b, h, w, c))]. *)
Definition zeros (b h w c : nat) : tensor f32 :=
  full b h w c (fun _ => f32_zero).

(** [torch.clamp(t, lo, hi)]. *)
Definition clamp (t : tensor f32) (lo hi : f32) : tensor f32 :=
  tmap (clamp_elt lo hi) t.

End Torch.

Import Torch.

(* ================================================================== *)
(** ** muffins_offset_node.py *)

Module MuffinsOffsetNode.

(** The pixel offset of one axis before normalization (the two
    [if auto_half_...] blocks of [offset]). *)
Definition raw_px (auto_half : bool) (units : string) (v : Py.float)
           (dim : Z) : result Z :=
  if auto_half then Ok (dim / 2)
  else if (units =? "percent")%string then
    d <- float_of_int dim ;;
    Py.round (fmul (fdiv v hundred) d)
  else Py.round v.

(** The normalization of one axis: reduce modulo the dimension, then take
    the representative of smallest magnitude. *)
Definition normalize (px dim : Z) : Z :=
  if negb (dim =? 0) then
    let px := px mod dim in
    if px >? dim / 2 then px - dim else px
  else px.

(** Source start, destination start and copy length of one axis. *)
Definition copy_span (px dim : Z) : Z * Z * Z :=
  if px >=? 0 then (0, px, dim - px)
  else (- px, 0, dim + px).

(** The three-channel fill row [[fill_r, fill_g, fill_b]] in the image's
    dtype. *)
Definition fill_row (fill_r fill_g fill_b : Py.float) (k : nat) : f32 :=
  match k with
  | O => f32_of_float fill_r
  | S O => f32_of_float fill_g
  | _ => f32_of_float fill_b
  end.

(** The resolved pixel offsets [(x_px, y_px)]: the raw offsets of both
    axes (x first, as in the source), then their normalization. *)
Definition resolve (image : tensor f32) (units : string)
           (x_offset y_offset : Py.float)
           (auto_half_width auto_half_height : bool) : result (Z * Z) :=
  let h := Z.of_nat (dimH image) in
  let w := Z.of_nat (dimW image) in
  x_px <- raw_px auto_half_width units x_offset w ;;
  y_px <- raw_px auto_half_height units y_offset h ;;
  Ok (normalize x_px w, normalize y_px h).

(** The canvas of the non-wrapping modes. *)
Definition canvas (b h w : nat) (edge_mode : string)
           (fill_r fill_g fill_b : Py.float) : tensor f32 :=
  if (edge_mode =? "fill_color")%string
  then full b h w 3 (fill_row fill_r fill_g fill_b)
  else
    (* transparent_black *)
    zeros b h w 3.

(** [offset]. The image is a four-dimensional tensor by its type, so the
    [isinstance] test and the unpacking of [image.shape] always succeed. *)
Definition offset (image : tensor f32) (units : string)
           (x_offset y_offset : Py.float)
           (auto_half_width auto_half_height : bool)
           (edge_mode : string) (fill_r fill_g fill_b : Py.float)
  : result (tensor f32) :=
  let b := dimB image in
  let h := dimH image in
  let w := dimW image in
  let c := dimC image in
  if negb (c =? 3)%nat then
    Raise (ValueError ("Expected 3-channel IMAGE, got C=" ++ str_of_nat c))
  else
    px <- resolve image units x_offset y_offset
                  auto_half_width auto_half_height ;;
    let '(x_px, y_px) := px in
    if (x_px =? 0) && (y_px =? 0) then Ok image
    else if (edge_mode =? "wrap")%string then Ok (roll image y_px x_px)
    else
      let out := canvas b h w edge_mode fill_r fill_g fill_b in
      let '(src_x0, dst_x0, width_copy) := copy_span x_px (Z.of_nat w) in
      let '(src_y0, dst_y0, height_copy) := copy_span y_px (Z.of_nat h) in
      if (width_copy <=? 0) || (height_copy <=? 0) then Ok out
      else Ok (paste out image dst_y0 dst_x0 src_y0 src_x0
                     height_copy width_copy).

End MuffinsOffsetNode.

(* ================================================================== *)
(** ** vr180_stereo_tools.py *)

Module VR180StereoTools.

Definition odd_width_msg : string :=
  "Width is odd and even_width_handling='skip'. Can't split evenly.".

Section Node.

(** [linspace steps k] stands for element [k] of
    [torch.linspace(0.0, 1.0, steps=steps)] in the image's dtype and on
    its device. Nothing below depends on how torch rounds the
    intermediate points of the ramp. *)
Variable linspace : nat -> nat -> f32.

Definition _ensure_even_width (images : tensor f32)
           (even_width_handling : string) : tensor f32 :=
  if (even_width_handling =? "skip")%string then images
  else
    (* auto_crop_if_odd *)
    let W := dimW images in
    if negb (W mod 2 =? 0)%nat then slice_w 0 (W - 1) images
    else images.

(** [out] is the freshly concatenated tensor of [apply]; the in-place
    writes of the source are therefore seen only through the result. *)
Definition _seam_feather (out : tensor f32) (seam_feather : Z)
           (half_width : nat) : tensor f32 :=
  if seam_feather <=? 0 then out
  else
    let f := Nat.min (Z.to_nat seam_feather) half_width in
    let seam_l_start := (half_width - f)%nat in
    let seam_l_end := half_width in
    let seam_r_start := half_width in
    let seam_r_end := (half_width + f)%nat in
    let ramp := linspace f in
    let left_band := slice_w seam_l_start seam_l_end out in
    let right_band := slice_w seam_r_start seam_r_end out in
    let blended :=
      tmap2 f32_add
            (tmap_w f32_mul left_band (fun k => f32_sub f32_one (ramp k)))
            (tmap_w f32_mul right_band ramp) in
    let out := assign_w seam_l_start seam_l_end out blended in
    let out := assign_w seam_r_start seam_r_end out blended in
    out.

(** [apply]. The batch is a four-dimensional tensor by its type, so the
    [isinstance] and [images.dim() != 4] tests never raise. *)
Definition apply (images : tensor f32)
           (mode source_half output_layout even_width_handling : string)
           (seam_feather : Z) : result (tensor f32) :=
  let images := _ensure_even_width images even_width_handling in
  let W := dimW images in
  (* Mode: only enforce even width and exit *)
  if (mode =? "even_crop_only")%string then
    Ok (clamp images f32_zero f32_one)
  (* MODE A: SBS -> mono (extract half) *)
  else if (mode =? "sbs_extract_half")%string then
    if negb (W mod 2 =? 0)%nat then Raise (ValueError odd_width_msg)
    else
      let half := (W / 2)%nat in
      let left := slice_w 0 half images in
      let right := slice_w half W images in
      let out := if (source_half =? "left")%string then left else right in
      Ok (clamp out f32_zero f32_one)
  (* MODE B: SBS -> SBS (copy selected half into both halves) *)
  else if (mode =? "sbs_copy_half_to_stereo")%string then
    if negb (W mod 2 =? 0)%nat then Raise (ValueError odd_width_msg)
    else
      let half := (W / 2)%nat in
      let left := slice_w 0 half images in
      let right := slice_w half W images in
      let src := if (source_half =? "left")%string then left else right in
      let other := clone src in
      let out :=
        if (output_layout =? "parallel")%string then
          if (source_half =? "left")%string then cat_w src other
          else cat_w other src
        else cat_w src other in
      let out := _seam_feather out seam_feather half in
      Ok (clamp out f32_zero f32_one)
  (* MODE C: mono -> SBS (duplicate mono into both halves) *)
  else if (mode =? "mono_to_stereo_copy")%string then
    let mono := images in
    let half := dimW mono in
    let other := clone mono in
    let out :=
      if (output_layout =? "parallel")%string then cat_w mono other
      else cat_w mono other in
    let out := _seam_feather out seam_feather half in
    Ok (clamp out f32_zero f32_one)
  else Raise (ValueError ("Unknown mode: " ++ mode)).

End Node.

(** The ramp as [torch.linspace(0.0, 1.0, steps)] computes it on the CPU:
    with [step = (end - start) / (steps - 1)], the lower half of the
    points is [start + step * k] and the upper half is
    [end - step * (steps - 1 - k)]; a single [start] when [steps = 1].
    Used to run the node on concrete inputs. *)
Definition linspace_doc (steps k : nat) : f32 :=
  if (steps <=? 1)%nat then f32_zero
  else
    let step :=
      SFdiv prec32 emax32 f32_one
            (binary_normalize prec32 emax32 (Z.of_nat (steps - 1)) 0 false) in
    if (k <? steps / 2)%nat then
      f32_add f32_zero
              (f32_mul step
                       (binary_normalize prec32 emax32 (Z.of_nat k) 0 false))
    else
      f32_sub f32_one
              (f32_mul step
                       (binary_normalize prec32 emax32
                                         (Z.of_nat (steps - k - 1)) 0 false)).

End VR180StereoTools.

Import MuffinsOffsetNode.
Import VR180StereoTools.

(* ================================================================== *)
(** ** Predicates on batches, and sample inputs *)

(** Every element of the batch lies in [0, 1]. *)
Definition all_in_unit (t : tensor f32) : Prop :=
  forall b i j c, in_shape t b i j c -> in_unit (get t b i j c) = true.

(** No element of the batch is a NaN. *)
Definition nan_free (t : tensor f32) : Prop :=
  forall b i j c, in_shape t b i j c -> is_nan (get t b i j c) = false.

(** Every pixel of [t] is a pixel of the same row of [s]. *)
Definition drawn_from {A : Type} (t s : tensor A) : Prop :=
  forall b i j c, in_shape t b i j c ->
    exists j', in_shape s b i j' c /\ get t b i j c = get s b i j' c.

(** The binary64 value of a small integer. *)
Definition py_float (n : Z) : Py.float :=
  binary_normalize prec64 emax64 n 0 false.

(** A batch of shape [(1, h, w, 3)] whose elements are the distinct values
    [(c + 3 * (j + w * i)) / 64]. *)
Definition sample_image (h w : nat) : tensor f32 :=
  {| dimB := 1; dimH := h; dimW := w; dimC := 3;
     get := fun _ i j c =>
              binary_normalize prec32 emax32
                               (Z.of_nat (c + 3 * (j + w * i))) (-6) false |}.

(** A batch of shape [(1, 1, 2, 3)] holding only NaN. *)
Definition nan_image : tensor f32 :=
  {| dimB := 1; dimH := 1; dimW := 2; dimC := 3;
     get := fun _ _ _ _ => S754_nan |}.

(** A one-pixel, one-channel batch holding plus infinity. *)
Definition inf_image : tensor f32 :=
  {| dimB := 1; dimH := 1; dimW := 1; dimC := 1;
     get := fun _ _ _ _ => S754_infinity false |}.

(** The choices [INPUT_TYPES] of the stereo node lists for [mode]. *)
Definition stereo_modes : list string :=
  ["sbs_extract_half"; "sbs_copy_half_to_stereo"; "mono_to_stereo_copy";
   "even_crop_only"]%string.

(** Neither a NaN nor an infinity. *)
Definition is_finite (x : spec_float) : bool :=
  negb (is_nan x) && negb (is_inf x).

(** What the non-wrapping modes put where no source pixel lands. *)
Definition background (edge_mode : string) (fill_r fill_g fill_b : Py.float)
           (c : nat) : f32 :=
  if (edge_mode =? "fill_color")%string
  then nth c [f32_of_float fill_r; f32_of_float fill_g; f32_of_float fill_b]
           S754_nan
  else f32_zero.

(** Two batches of one shape that agree on the columns [lo, hi). *)
Definition same_columns {A : Type} (lo hi : nat) (s t : tensor A) : Prop :=
  shape s = shape t /\
  forall b i j c, in_shape s b i j c -> (lo <= j < hi)%nat ->
                  get s b i j c = get t b i j c.

(** The exponent binary32 gives a number of magnitude below [2^k]. *)
Definition fexp32 (k : Z) : Z := Z.max (k - 24) (-149).

(** A shift record that has lost no digit. *)
Definition exact_record (r : shr_record) : Prop :=
  shr_r r = false /\ shr_s r = false.

(** A binary32 value of magnitude at most one: a zero, or a finite
    [m * 2^e] with [m <= 2^(-e)]. *)
Definition unit_weight (y : f32) : Prop :=
  match y with
  | S754_zero _ => True
  | S754_finite _ m e => e <= 0 /\ Zpos m <= 2 ^ (- e)
  | _ => False
  end.

(** A finite binary32 value: a zero, a subnormal or a normal number. *)
Definition finite_f32 (x : f32) : Prop :=
  valid_binary prec32 emax32 x = true /\ is_finite x = true.

(** Every element of the batch is a finite binary32 value: no NaN and no
    infinity. *)
Definition finite_batch (t : tensor f32) : Prop :=
  forall b i j c, in_shape t b i j c -> finite_f32 (get t b i j c).

(** The ramps of at most [f] points that [linspace] returns hold binary32
    values within [0, 1], as those of [torch.linspace(0.0, 1.0, n)] do. *)
Definition ramp_in_unit (linspace : nat -> nat -> f32) (f : Z) : Prop :=
  forall n k, (k < n)%nat -> Z.of_nat n <= f ->
    valid_binary prec32 emax32 (linspace n k) = true /\
    in_unit (linspace n k) = true.

(** The decision procedure for [ramp_in_unit]: the ramp of [n] points,
    and every ramp of at most [f] points. *)
Definition ramp_ok (linspace : nat -> nat -> f32) (n : nat) : bool :=
  forallb (fun k => valid_binary prec32 emax32 (linspace n k)
                    && in_unit (linspace n k))
          (seq 0 n).

Definition ramps_ok (linspace : nat -> nat -> f32) (f : nat) : bool :=
  forallb (ramp_ok linspace) (seq 0 (S f)).

(** A 1 x 4 batch with values below 0 and above 1:
    [-1/2, 1/4, 3/2, 1] in every channel. *)
Definition wide_range_image : tensor f32 :=
  {| dimB := 1; dimH := 1; dimW := 4; dimC := 3;
     get := fun _ _ j _ =>
              match j with
              | O => binary_normalize prec32 emax32 (-1) (-1) false
              | S O => binary_normalize prec32 emax32 1 (-2) false
              | S (S O) => binary_normalize prec32 emax32 3 (-1) false
              | _ => f32_one
              end |}.

(* ================================================================== *)
(** ** Small facts about the Python layer *)

Lemma string_eqb_false (s t : string) : s <> t -> (s =? t)%string = false.
Proof. intro H. apply String.eqb_neq. exact H. Qed.

Lemma bind_ok {A B : Type} (r : result A) (k : A -> result B) (b : B) :
  Py.bind r k = Ok b -> exists a, r = Ok a /\ k a = Ok b.
Proof.
  destruct r as [a|e]; simpl; intro H.
  - exists a. split; [reflexivity | exact H].
  - discriminate H.
Qed.

(** [round] succeeds on every float that is neither NaN nor infinite. *)
Lemma round_total (x : Py.float) :
  is_nan x = false -> is_inf x = false -> exists n, Py.round x = Ok n.
Proof.
  destruct x as [s|s| |s m e]; simpl; intros Hn Hi; try discriminate.
  - exists 0. reflexivity.
  - eexists. reflexivity.
Qed.

(* ================================================================== *)
(** ** Offset normalization *)

Section Normalize.

Variable dim : Z.
Hypothesis dim_pos : 0 < dim.

Lemma normalize_pos_dim (px : Z) :
  normalize px dim =
    if px mod dim >? dim / 2 then px mod dim - dim else px mod dim.
Proof.
  unfold normalize.
  replace (dim =? 0) with false by (symmetry; apply Z.eqb_neq; lia).
  reflexivity.
Qed.

Lemma normalize_range (px : Z) :
  - dim < 2 * normalize px dim <= dim.
Proof.
  rewrite normalize_pos_dim.
  pose proof (Z.mod_pos_bound px dim dim_pos) as Hm.
  assert (Hd : 2 * (dim / 2) <= dim < 2 * (dim / 2) + 2)
    by (Z.div_mod_to_equations; lia).
  destruct (px mod dim >? dim / 2) eqn:E.
  - apply Z.gtb_lt in E. lia.
  - rewrite Z.gtb_ltb in E. apply Z.ltb_ge in E. lia.
Qed.

Lemma normalize_congr (px : Z) :
  (normalize px dim) mod dim = px mod dim.
Proof.
  rewrite normalize_pos_dim.
  destruct (px mod dim >? dim / 2).
  - replace (px mod dim - dim) with (px mod dim + (-1) * dim) by lia.
    rewrite Z.mod_add by lia. apply Z.mod_mod. lia.
  - apply Z.mod_mod. lia.
Qed.

(** The tie: a raw offset congruent to [dim/2] stays at [+dim/2]. *)
Lemma normalize_tie (px : Z) :
  px mod dim = dim / 2 -> normalize px dim = dim / 2.
Proof.
  intro H. rewrite normalize_pos_dim, H.
  replace (dim / 2 >? dim / 2) with false; [reflexivity|].
  symmetry. rewrite Z.gtb_ltb. apply Z.ltb_irrefl.
Qed.

(** An offset already in the half-open range is left alone. *)
Lemma normalize_small (px : Z) :
  - dim < 2 * px <= dim -> normalize px dim = px.
Proof.
  intro H. rewrite normalize_pos_dim.
  assert (Hd : 2 * (dim / 2) <= dim < 2 * (dim / 2) + 2)
    by (Z.div_mod_to_equations; lia).
  destruct (Z_lt_le_dec px 0) as [Hneg|Hpos].
  - assert (Hm : px mod dim = px + dim).
    { symmetry. apply (Z.mod_unique px dim (-1)); lia. }
    rewrite Hm.
    replace (px + dim >? dim / 2) with true; [lia|].
    symmetry. apply Z.gtb_lt. lia.
  - rewrite Z.mod_small by lia.
    replace (px >? dim / 2) with false; [reflexivity|].
    symmetry. rewrite Z.gtb_ltb. apply Z.ltb_ge. lia.
Qed.

(** After normalization both copy lengths of [copy_span] are positive. *)
Lemma copy_span_positive (px : Z) :
  0 < snd (copy_span (normalize px dim) dim).
Proof.
  pose proof (normalize_range px) as Hr.
  unfold copy_span.
  destruct (normalize px dim >=? 0) eqn:E; simpl.
  - lia.
  - lia.
Qed.

End Normalize.

Lemma resolve_ok (image : tensor f32) units xo yo ahw ahh (x_px y_px : Z) :
  resolve image units xo yo ahw ahh = Ok (x_px, y_px) ->
  exists rx ry,
    raw_px ahw units xo (Z.of_nat (dimW image)) = Ok rx /\
    raw_px ahh units yo (Z.of_nat (dimH image)) = Ok ry /\
    x_px = normalize rx (Z.of_nat (dimW image)) /\
    y_px = normalize ry (Z.of_nat (dimH image)).
Proof.
  unfold resolve. intro H.
  apply bind_ok in H. destruct H as [rx [Hx H]].
  apply bind_ok in H. destruct H as [ry [Hy H]].
  injection H as H1 H2.
  exists rx, ry. repeat split; auto.
Qed.

(** With the auto-half flag the resolved offset of an axis is half its
    dimension, whatever the numeric field holds. *)
Lemma auto_half_resolves_to_half (units : string) (v : Py.float) (dim : Z) :
  1 <= dim ->
  exists raw, raw_px true units v dim = Ok raw /\
              normalize raw dim = dim / 2.
Proof.
  intro Hd. exists (dim / 2). split; [reflexivity|].
  apply normalize_tie; [lia|].
  apply Z.mod_small. Z.div_mod_to_equations. lia.
Qed.

(** C1. For an input with W >= 1 and H >= 1 the resolved offsets, however
    they were obtained (pixels, percent or the auto-half flags), satisfy
    -W/2 < x_px <= W/2 and -H/2 < y_px <= H/2; and for an even dimension a
    raw offset congruent to half the dimension normalizes to plus half the
    dimension. *)
Theorem resolved_offsets_half_open
        (image : tensor f32) (units : string) (x_offset y_offset : Py.float)
        (auto_half_width auto_half_height : bool) (x_px y_px : Z) :
  let W := Z.of_nat (dimW image) in
  let H := Z.of_nat (dimH image) in
  dimC image = 3%nat ->
  1 <= W -> 1 <= H ->
  resolve image units x_offset y_offset auto_half_width auto_half_height
    = Ok (x_px, y_px) ->
  (- W < 2 * x_px <= W) /\
  (- H < 2 * y_px <= H) /\
  (forall raw, Z.even W = true -> raw mod W = W / 2 ->
               normalize raw W = W / 2 /\ 2 * normalize raw W = W) /\
  (forall raw, Z.even H = true -> raw mod H = H / 2 ->
               normalize raw H = H / 2 /\ 2 * normalize raw H = H).
Proof.
  intros W H HC HW HH Hres.
  apply resolve_ok in Hres.
  destruct Hres as [rx [ry [_ [_ [Hx Hy]]]]].
  fold W in Hx. fold H in Hy. subst x_px y_px.
  assert (Heven : forall d, Z.even d = true -> 2 * (d / 2) = d).
  { intros d Hd. apply Z.even_spec in Hd. destruct Hd as [k Hk].
    Z.div_mod_to_equations. lia. }
  repeat split.
  - apply normalize_range; lia.
  - apply normalize_range; lia.
  - apply normalize_range; lia.
  - apply normalize_range; lia.
  - apply normalize_tie; [lia | assumption].
  - rewrite normalize_tie by (lia || assumption). apply Heven. assumption.
  - apply normalize_tie; [lia | assumption].
  - rewrite normalize_tie by (lia || assumption). apply Heven. assumption.
Qed.

(* ================================================================== *)
(** ** The offset node after its offsets are resolved *)

Lemma offset_resolved (image : tensor f32) units xo yo ahw ahh edge_mode
      fr fg fb (x_px y_px : Z) :
  dimC image = 3%nat ->
  resolve image units xo yo ahw ahh = Ok (x_px, y_px) ->
  offset image units xo yo ahw ahh edge_mode fr fg fb =
    if (x_px =? 0) && (y_px =? 0) then Ok image
    else if (edge_mode =? "wrap")%string then Ok (roll image y_px x_px)
    else
      let out := canvas (dimB image) (dimH image) (dimW image)
                        edge_mode fr fg fb in
      let '(src_x0, dst_x0, width_copy) :=
        copy_span x_px (Z.of_nat (dimW image)) in
      let '(src_y0, dst_y0, height_copy) :=
        copy_span y_px (Z.of_nat (dimH image)) in
      if (width_copy <=? 0) || (height_copy <=? 0) then Ok out
      else Ok (paste out image dst_y0 dst_x0 src_y0 src_x0
                     height_copy width_copy).
Proof.
  intros HC Hres. unfold offset.
  rewrite HC. cbn [Nat.eqb negb]. rewrite Hres. reflexivity.
Qed.

(** C9. On the non-wrapping path, for W >= 1 and H >= 1, both copy lengths
    are strictly positive, so the node never returns the bare canvas: its
    result is the canvas with the shifted rectangle pasted in. *)
Theorem fill_path_copy_lengths_positive
        (image : tensor f32) (units : string) (x_offset y_offset : Py.float)
        (auto_half_width auto_half_height : bool) (edge_mode : string)
        (fill_r fill_g fill_b : Py.float) (x_px y_px : Z) :
  let W := Z.of_nat (dimW image) in
  let H := Z.of_nat (dimH image) in
  dimC image = 3%nat ->
  1 <= W -> 1 <= H ->
  resolve image units x_offset y_offset auto_half_width auto_half_height
    = Ok (x_px, y_px) ->
  (x_px =? 0) && (y_px =? 0) = false ->
  edge_mode <> "wrap"%string ->
  let '(src_x0, dst_x0, width_copy) := copy_span x_px W in
  let '(src_y0, dst_y0, height_copy) := copy_span y_px H in
  0 < width_copy /\ 0 < height_copy /\
  (width_copy <=? 0) || (height_copy <=? 0) = false /\
  offset image units x_offset y_offset auto_half_width auto_half_height
         edge_mode fill_r fill_g fill_b
    = Ok (paste (canvas (dimB image) (dimH image) (dimW image)
                        edge_mode fill_r fill_g fill_b)
                image dst_y0 dst_x0 src_y0 src_x0 height_copy width_copy).
Proof.
  intros W H HC HW HH Hres Hnz Hmode.
  rewrite (offset_resolved _ _ _ _ _ _ edge_mode fill_r fill_g fill_b
                           _ _ HC Hres).
  rewrite Hnz, (string_eqb_false _ _ Hmode).
  apply resolve_ok in Hres.
  destruct Hres as [rx [ry [_ [_ [Hx Hy]]]]].
  fold W in Hx |- *. fold H in Hy |- *.
  assert (Hwc : 0 < snd (copy_span x_px W))
    by (subst x_px; apply copy_span_positive; lia).
  assert (Hhc : 0 < snd (copy_span y_px H))
    by (subst y_px; apply copy_span_positive; lia).
  cbv zeta.
  destruct (copy_span x_px W) as [[src_x0 dst_x0] width_copy].
  destruct (copy_span y_px H) as [[src_y0 dst_y0] height_copy].
  simpl in Hwc, Hhc.
  assert (Hguard : (width_copy <=? 0) || (height_copy <=? 0) = false).
  { apply orb_false_iff. split; apply Z.leb_gt; assumption. }
  rewrite Hguard. repeat split; auto.
Qed.

Lemma paste_inside {A : Type} (out img : tensor A) dy dx sy sx hc wc b i j c :
  dy <= Z.of_nat i < dy + hc ->
  dx <= Z.of_nat j < dx + wc ->
  get (paste out img dy dx sy sx hc wc) b i j c =
  get img b (Z.to_nat (Z.of_nat i - dy + sy))
          (Z.to_nat (Z.of_nat j - dx + sx)) c.
Proof.
  intros Hi Hj. unfold paste. cbn [get].
  destruct (Z.leb_spec dy (Z.of_nat i)); [|lia].
  destruct (Z.ltb_spec (Z.of_nat i) (dy + hc)); [|lia].
  destruct (Z.leb_spec dx (Z.of_nat j)); [|lia].
  destruct (Z.ltb_spec (Z.of_nat j) (dx + wc)); [|lia].
  reflexivity.
Qed.

Lemma paste_before_column {A : Type} (out img : tensor A)
      dy dx sy sx hc wc b i j c :
  Z.of_nat j < dx ->
  get (paste out img dy dx sy sx hc wc) b i j c = get out b i j c.
Proof.
  intros Hj. unfold paste. cbn [get].
  destruct (Z.leb_spec dx (Z.of_nat j)); [lia|].
  rewrite andb_false_r. reflexivity.
Qed.

(** C2. With edge_mode = fill_color and resolved offsets x_px > 0, y_px = 0,
    the node returns a batch of the input's shape whose columns [0, x_px)
    hold the fill colour in every row of every batch entry, and whose
    columns [x_px, W) hold the input's columns [0, W - x_px). *)
Theorem fill_color_shift_right
        (image : tensor f32) (units : string) (x_offset y_offset : Py.float)
        (auto_half_width auto_half_height : bool)
        (fill_r fill_g fill_b : Py.float) (x_px : Z) :
  dimC image = 3%nat ->
  resolve image units x_offset y_offset auto_half_width auto_half_height
    = Ok (x_px, 0) ->
  0 < x_px ->
  exists out,
    offset image units x_offset y_offset auto_half_width auto_half_height
           "fill_color" fill_r fill_g fill_b = Ok out /\
    shape out = shape image /\
    (forall b i j c, in_shape out b i j c -> Z.of_nat j < x_px ->
       get out b i j c = nth c [f32_of_float fill_r; f32_of_float fill_g;
                                f32_of_float fill_b] S754_nan) /\
    (forall b i j c, in_shape out b i j c -> x_px <= Z.of_nat j ->
       get out b i j c = get image b i (j - Z.to_nat x_px)%nat c).
Proof.
  intros HC Hres Hx.
  rewrite (offset_resolved _ _ _ _ _ _ "fill_color" fill_r fill_g fill_b
                           _ _ HC Hres).
  replace ((x_px =? 0) && (0 =? 0)) with false
    by (symmetry; apply andb_false_iff; left; apply Z.eqb_neq; lia).
  change ("fill_color" =? "wrap")%string with false.
  unfold canvas. change ("fill_color" =? "fill_color")%string with true.
  unfold copy_span.
  replace (x_px >=? 0) with true by (symmetry; apply Z.geb_le; lia).
  change (0 >=? 0) with true. cbv zeta iota beta.
  set (W := Z.of_nat (dimW image)). set (H := Z.of_nat (dimH image)).
  assert (Hfill : forall c, (c < 3)%nat ->
            fill_row fill_r fill_g fill_b c =
            nth c [f32_of_float fill_r; f32_of_float fill_g;
                   f32_of_float fill_b] S754_nan).
  { intros c Hc. destruct c as [|[|[|c]]]; try reflexivity. lia. }
  destruct ((W - x_px <=? 0) || (H - 0 <=? 0)) eqn:G.
  - (* nothing to copy: no column at or after x_px, or no row at all *)
    eexists. split; [reflexivity|].
    split; [unfold shape; simpl; rewrite HC; reflexivity|].
    split.
    + intros b i j c [_ [_ [_ Hc]]] _. simpl in Hc |- *. apply Hfill, Hc.
    + intros b i j c [_ [Hi [Hj _]]] Hle. simpl in Hi, Hj. exfalso.
      apply orb_true_iff in G. destruct G as [G|G]; apply Z.leb_le in G.
      * subst W. lia.
      * subst H. lia.
  - apply orb_false_iff in G. destruct G as [G1 G2].
    apply Z.leb_gt in G1. apply Z.leb_gt in G2.
    eexists. split; [reflexivity|].
    split; [unfold shape; simpl; rewrite HC; reflexivity|].
    split.
    + intros b i j c [_ [_ [_ Hc]]] Hlt. cbn [paste dimC full] in Hc.
      rewrite paste_before_column by assumption.
      cbn [full get]. apply Hfill, Hc.
    + intros b i j c [_ [Hi [Hj _]]] Hle. cbn [paste dimH dimW full] in Hi, Hj.
      rewrite paste_inside by (subst W H; lia).
      f_equal; lia.
Qed.

(* ================================================================== *)
(** ** Cyclic shifts *)

Lemma roll_index_back (i : nat) (s n : Z) :
  Z.of_nat i < n ->
  Z.to_nat
    ((Z.of_nat (Z.to_nat ((Z.of_nat i - - s) mod n)) - s) mod n) = i.
Proof.
  intro Hi.
  assert (Hn : 0 < n) by lia.
  pose proof (Z.mod_pos_bound (Z.of_nat i - - s) n Hn) as Hm.
  rewrite Z2Nat.id by lia.
  rewrite Zminus_mod_idemp_l.
  replace (Z.of_nat i - - s - s) with (Z.of_nat i) by lia.
  rewrite Z.mod_small by lia.
  apply Nat2Z.id.
Qed.

(** Rolling by [(sy, sx)] and then by [(-sy, -sx)] gives the tensor back. *)
Lemma roll_roll_back {A : Type} (t : tensor A) (sy sx : Z) :
  tensor_eq (roll (roll t sy sx) (- sy) (- sx)) t.
Proof.
  split; [reflexivity|].
  intros b i j c [_ [Hi [Hj _]]]. cbn [roll dimH dimW] in Hi, Hj.
  cbn [roll get dimH dimW].
  rewrite !roll_index_back by lia. reflexivity.
Qed.

Lemma tensor_eq_refl {A : Type} (t : tensor A) : tensor_eq t t.
Proof. split; [reflexivity | intros; reflexivity]. Qed.

Lemma resolve_pixels (image : tensor f32) xo yo (x y : Z) :
  Py.round xo = Ok x -> Py.round yo = Ok y ->
  resolve image "pixels" xo yo false false =
    Ok (normalize x (Z.of_nat (dimW image)),
        normalize y (Z.of_nat (dimH image))).
Proof.
  intros Hx Hy. unfold resolve, raw_px.
  change ("pixels" =? "percent")%string with false. cbv iota.
  rewrite Hx. cbn [Py.bind]. rewrite Hy. reflexivity.
Qed.

(** C3. In wrap mode, offsetting by integer pixel offsets (x, y) with
    |x| < W/2 and |y| < H/2 and then by (-x, -y) returns a batch equal to
    the original input. *)
Theorem wrap_round_trip
        (image : tensor f32) (x y : Z)
        (x_offset y_offset x_back y_back : Py.float)
        (fill_r fill_g fill_b : Py.float) :
  let W := Z.of_nat (dimW image) in
  let H := Z.of_nat (dimH image) in
  dimC image = 3%nat ->
  2 * Z.abs x < W -> 2 * Z.abs y < H ->
  Py.round x_offset = Ok x -> Py.round y_offset = Ok y ->
  Py.round x_back = Ok (- x) -> Py.round y_back = Ok (- y) ->
  exists shifted restored,
    offset image "pixels" x_offset y_offset false false "wrap"
           fill_r fill_g fill_b = Ok shifted /\
    offset shifted "pixels" x_back y_back false false "wrap"
           fill_r fill_g fill_b = Ok restored /\
    tensor_eq restored image.
Proof.
  intros W H HC HW HH Hx Hy Hx' Hy'.
  pose proof (resolve_pixels image _ _ _ _ Hx Hy) as Hres.
  fold W H in Hres.
  rewrite (normalize_small W) in Hres by lia.
  rewrite (normalize_small H) in Hres by lia.
  rewrite (offset_resolved _ _ _ _ _ _ "wrap" fill_r fill_g fill_b _ _ HC Hres).
  change ("wrap" =? "wrap")%string with true.
  destruct ((x =? 0) && (y =? 0)) eqn:Z0.
  - (* both offsets are zero: twice the identity shortcut *)
    apply andb_true_iff in Z0. destruct Z0 as [Zx Zy].
    apply Z.eqb_eq in Zx. apply Z.eqb_eq in Zy. subst x y.
    pose proof (resolve_pixels image _ _ _ _ Hx' Hy') as Hres'.
    fold W H in Hres'. cbn [Z.opp] in Hres'.
    rewrite (normalize_small W) in Hres' by lia.
    rewrite (normalize_small H) in Hres' by lia.
    exists image, image. split; [reflexivity|]. split.
    + rewrite (offset_resolved _ _ _ _ _ _ "wrap" fill_r fill_g fill_b
                               _ _ HC Hres').
      reflexivity.
    + apply tensor_eq_refl.
  - pose proof (resolve_pixels (roll image y x) _ _ _ _ Hx' Hy') as Hres'.
    cbn [roll dimW dimH] in Hres'. fold W H in Hres'.
    rewrite (normalize_small W) in Hres' by lia.
    rewrite (normalize_small H) in Hres' by lia.
    exists (roll image y x), (roll (roll image y x) (- y) (- x)).
    split; [reflexivity|]. split.
    + rewrite (offset_resolved (roll image y x) _ _ _ _ _ "wrap"
                               fill_r fill_g fill_b _ _ HC Hres').
      replace ((- x =? 0) && (- y =? 0)) with false; [reflexivity|].
      symmetry. rewrite <- Z0.
      destruct x, y; reflexivity.
    + apply roll_roll_back.
Qed.

(* ================================================================== *)
(** ** Clamping binary32 values *)

Lemma SFcompare_antisym (x y : spec_float) :
  SFcompare y x =
    match SFcompare x y with
    | Some c => Some (CompOpp c)
    | None => None
    end.
Proof.
  assert (P : forall m1 m2,
             Pos.compare_cont Eq m2 m1 = CompOpp (Pos.compare_cont Eq m1 m2))
    by (intros; apply Pos.compare_antisym).
  destruct x as [[|]|[|]| |[|] m1 e1], y as [[|]|[|]| |[|] m2 e2];
    try reflexivity; cbn [SFcompare];
    rewrite (Z.compare_antisym e1 e2), (P m1 m2);
    destruct (e1 ?= e2); cbn [CompOpp]; try reflexivity;
    destruct (Pos.compare_cont Eq m1 m2); reflexivity.
Qed.

Lemma SFltb_false_leb (x y : spec_float) :
  is_nan x = false -> is_nan y = false ->
  SFltb x y = false -> SFleb y x = true.
Proof.
  intros Hx Hy. unfold SFltb, SFleb.
  rewrite (SFcompare_antisym x y).
  destruct (SFcompare x y) as [[| |]|] eqn:E; cbn [CompOpp];
    try reflexivity; try discriminate.
  destruct x as [[|]|[|]| |[|] m1 e1], y as [[|]|[|]| |[|] m2 e2];
    discriminate.
Qed.

Lemma clamp_elt_nan (x : f32) :
  is_nan x = true -> clamp_elt f32_zero f32_one x = x.
Proof. destruct x; try discriminate. reflexivity. Qed.

Lemma clamp_elt_in_unit (x : f32) :
  is_nan x = false -> in_unit (clamp_elt f32_zero f32_one x) = true.
Proof.
  intro Hx. unfold clamp_elt, fmax.
  rewrite Hx. cbn [is_nan f32_zero].
  destruct (SFltb x f32_zero) eqn:L0; [reflexivity|].
  unfold fmin. rewrite Hx. cbn [is_nan f32_one].
  destruct (SFltb f32_one x) eqn:L1; [reflexivity|].
  unfold in_unit.
  rewrite (SFltb_false_leb x f32_zero Hx eq_refl L0).
  rewrite (SFltb_false_leb f32_one x eq_refl Hx L1).
  reflexivity.
Qed.

Lemma clamp_elt_nan_or_unit (x : f32) :
  is_nan (clamp_elt f32_zero f32_one x) = true \/
  in_unit (clamp_elt f32_zero f32_one x) = true.
Proof.
  destruct (is_nan x) eqn:E.
  - left. rewrite clamp_elt_nan by assumption. assumption.
  - right. apply clamp_elt_in_unit. assumption.
Qed.

Lemma odd_pred_even (n : nat) : (n mod 2 <> 0 -> (n - 1) mod 2 = 0)%nat.
Proof.
  intro H.
  pose proof (Nat.div_mod_eq n 2). pose proof (Nat.mod_upper_bound n 2).
  assert (Hn : (n = 2 * (n / 2) + 1)%nat) by lia.
  replace (n - 1)%nat with ((n / 2) * 2)%nat by lia.
  apply Nat.Div0.mod_mul.
Qed.

(* ================================================================== *)
(** ** The stereo node, mode by mode *)

Section Stereo.

Variable linspace : nat -> nat -> f32.

Lemma apply_even_crop_only images sh layout ewh f :
  apply linspace images "even_crop_only" sh layout ewh f =
    Ok (clamp (_ensure_even_width images ewh) f32_zero f32_one).
Proof. reflexivity. Qed.

Lemma apply_sbs_extract_half images sh layout ewh f :
  apply linspace images "sbs_extract_half" sh layout ewh f =
    let images := _ensure_even_width images ewh in
    let W := dimW images in
    if negb (W mod 2 =? 0)%nat then Raise (ValueError odd_width_msg)
    else
      Ok (clamp (if (sh =? "left")%string
                 then slice_w 0 (W / 2) images
                 else slice_w (W / 2) W images) f32_zero f32_one).
Proof. reflexivity. Qed.

Lemma apply_sbs_copy_half_to_stereo images sh layout ewh f :
  apply linspace images "sbs_copy_half_to_stereo" sh layout ewh f =
    let images := _ensure_even_width images ewh in
    let W := dimW images in
    let half := (W / 2)%nat in
    let src := if (sh =? "left")%string
               then slice_w 0 half images else slice_w half W images in
    if negb (W mod 2 =? 0)%nat then Raise (ValueError odd_width_msg)
    else
      Ok (clamp (_seam_feather linspace (cat_w src (clone src)) f half)
                f32_zero f32_one).
Proof.
  unfold VR180StereoTools.apply.
  change ("sbs_copy_half_to_stereo" =? "even_crop_only")%string with false.
  change ("sbs_copy_half_to_stereo" =? "sbs_extract_half")%string with false.
  change ("sbs_copy_half_to_stereo" =? "sbs_copy_half_to_stereo")%string
    with true.
  cbv iota zeta. unfold clone.
  destruct (negb (dimW (_ensure_even_width images ewh) mod 2 =? 0)%nat);
    [reflexivity|].
  destruct (layout =? "parallel")%string, (sh =? "left")%string;
    reflexivity.
Qed.

Lemma apply_mono_to_stereo_copy images sh layout ewh f :
  apply linspace images "mono_to_stereo_copy" sh layout ewh f =
    let mono := _ensure_even_width images ewh in
    Ok (clamp (_seam_feather linspace (cat_w mono (clone mono)) f (dimW mono))
              f32_zero f32_one).
Proof.
  unfold VR180StereoTools.apply.
  change ("mono_to_stereo_copy" =? "even_crop_only")%string with false.
  change ("mono_to_stereo_copy" =? "sbs_extract_half")%string with false.
  change ("mono_to_stereo_copy" =? "sbs_copy_half_to_stereo")%string
    with false.
  change ("mono_to_stereo_copy" =? "mono_to_stereo_copy")%string with true.
  cbv iota zeta.
  destruct (layout =? "parallel")%string; reflexivity.
Qed.

(** A mode is one of the four the node knows, or the call fails. *)
Lemma apply_modes images mode sh layout ewh f :
  mode = "even_crop_only"%string \/ mode = "sbs_extract_half"%string \/
  mode = "sbs_copy_half_to_stereo"%string \/
  mode = "mono_to_stereo_copy"%string \/
  apply linspace images mode sh layout ewh f
    = Raise (ValueError ("Unknown mode: " ++ mode)).
Proof.
  destruct (String.eqb_spec mode "even_crop_only"); [auto|].
  destruct (String.eqb_spec mode "sbs_extract_half"); [auto|].
  destruct (String.eqb_spec mode "sbs_copy_half_to_stereo");
    [auto|].
  destruct (String.eqb_spec mode "mono_to_stereo_copy"); [auto 6|].
  do 4 right. unfold VR180StereoTools.apply.
  rewrite !string_eqb_false by assumption. reflexivity.
Qed.

Lemma ensure_even_width_dimW images ewh :
  dimW (_ensure_even_width images ewh) =
    if (ewh =? "skip")%string then dimW images
    else if negb (dimW images mod 2 =? 0)%nat then (dimW images - 1)%nat
         else dimW images.
Proof.
  unfold _ensure_even_width.
  destruct (ewh =? "skip")%string; [reflexivity|].
  destruct (negb (dimW images mod 2 =? 0)%nat); [|reflexivity].
  cbn [slice_w dimW]. lia.
Qed.

Lemma ensure_even_width_even images ewh :
  (dimW images mod 2 = 0)%nat -> _ensure_even_width images ewh = images.
Proof.
  intro H. unfold _ensure_even_width.
  destruct (ewh =? "skip")%string; [reflexivity|].
  rewrite H. reflexivity.
Qed.

(** The width is odd after normalization exactly when it was odd and the
    handling is [skip]. *)
Lemma ensure_even_width_odd_iff images ewh :
  (dimW (_ensure_even_width images ewh) mod 2 =? 0)%nat = false <->
  (dimW images mod 2 = 1)%nat /\ ewh = "skip"%string.
Proof.
  rewrite ensure_even_width_dimW.
  pose proof (Nat.mod_upper_bound (dimW images) 2 ltac:(lia)) as Hb.
  destruct (String.eqb_spec ewh "skip") as [->|Hne].
  - rewrite Nat.eqb_neq. split; [intro; split; [lia|reflexivity]|].
    intros [H _]. lia.
  - destruct (dimW images mod 2 =? 0)%nat eqn:E; cbn [negb].
    + rewrite E. apply Nat.eqb_eq in E.
      split; [discriminate|]. intros [H _]. lia.
    + apply Nat.eqb_neq in E. rewrite (odd_pred_even _ E).
      split; [discriminate|]. intros [_ H]. contradiction.
Qed.

End Stereo.

(** C5. In the modes sbs_extract_half and sbs_copy_half_to_stereo the node
    fails with the odd-width error exactly when the width is odd after the
    even-width normalization, which is exactly when the input width is odd
    and even_width_handling is skip; with auto_crop_if_odd it never raises
    that error. *)
Theorem odd_width_error_iff
        (linspace : nat -> nat -> f32) (images : tensor f32)
        (source_half output_layout even_width_handling : string)
        (seam_feather : Z) :
  let failure := Raise (ValueError odd_width_msg) in
  let odd_after :=
    (dimW (_ensure_even_width images even_width_handling) mod 2 =? 0)%nat
      = false in
  let odd_and_skip :=
    (dimW images mod 2 = 1)%nat /\ even_width_handling = "skip"%string in
  (apply linspace images "sbs_extract_half" source_half output_layout
         even_width_handling seam_feather = failure <-> odd_after) /\
  (apply linspace images "sbs_copy_half_to_stereo" source_half output_layout
         even_width_handling seam_feather = failure <-> odd_after) /\
  (odd_after <-> odd_and_skip) /\
  apply linspace images "sbs_extract_half" source_half output_layout
        "auto_crop_if_odd" seam_feather <> failure /\
  apply linspace images "sbs_copy_half_to_stereo" source_half output_layout
        "auto_crop_if_odd" seam_feather <> failure.
Proof.
  intros failure odd_after odd_and_skip.
  assert (Hx : forall ewh,
             apply linspace images "sbs_extract_half" source_half
                   output_layout ewh seam_feather = failure <->
             (dimW (_ensure_even_width images ewh) mod 2 =? 0)%nat = false).
  { intro ewh. rewrite apply_sbs_extract_half. cbv zeta.
    destruct (dimW (_ensure_even_width images ewh) mod 2 =? 0)%nat;
      cbn [negb]; split; intro H; try reflexivity; discriminate H. }
  assert (Hc : forall ewh,
             apply linspace images "sbs_copy_half_to_stereo" source_half
                   output_layout ewh seam_feather = failure <->
             (dimW (_ensure_even_width images ewh) mod 2 =? 0)%nat = false).
  { intro ewh. rewrite apply_sbs_copy_half_to_stereo. cbv zeta.
    destruct (dimW (_ensure_even_width images ewh) mod 2 =? 0)%nat;
      cbn [negb]; split; intro H; try reflexivity; discriminate H. }
  split; [apply Hx|]. split; [apply Hc|].
  split; [apply ensure_even_width_odd_iff|].
  split; intro H.
  - apply Hx, ensure_even_width_odd_iff in H. destruct H as [_ H].
    discriminate H.
  - apply Hc, ensure_even_width_odd_iff in H. destruct H as [_ H].
    discriminate H.
Qed.

(** C10. On an input of even width, in the modes sbs_extract_half and
    sbs_copy_half_to_stereo, any source_half other than the exact string
    left gives the result of source_half = right, and that result is a
    batch, not an error. *)
Theorem source_half_defaults_to_right
        (linspace : nat -> nat -> f32) (images : tensor f32)
        (mode source_half output_layout even_width_handling : string)
        (seam_feather : Z) :
  (dimW images mod 2 = 0)%nat ->
  mode = "sbs_extract_half"%string \/
  mode = "sbs_copy_half_to_stereo"%string ->
  source_half <> "left"%string ->
  apply linspace images mode source_half output_layout
        even_width_handling seam_feather
  = apply linspace images mode "right" output_layout
          even_width_handling seam_feather /\
  exists out,
    apply linspace images mode source_half output_layout
          even_width_handling seam_feather = Ok out.
Proof.
  intros Heven Hmode Hsh.
  assert (E : (dimW (_ensure_even_width images even_width_handling) mod 2
               =? 0)%nat = true).
  { rewrite ensure_even_width_even by assumption.
    apply Nat.eqb_eq. assumption. }
  destruct Hmode as [-> | ->].
  - rewrite !apply_sbs_extract_half. cbv zeta.
    rewrite E, (string_eqb_false _ _ Hsh). cbn [negb].
    change ("right" =? "left")%string with false.
    split; [reflexivity | eexists; reflexivity].
  - rewrite !apply_sbs_copy_half_to_stereo. cbv zeta.
    rewrite E, (string_eqb_false _ _ Hsh). cbn [negb].
    change ("right" =? "left")%string with false.
    split; [reflexivity | eexists; reflexivity].
Qed.

(** C8. The output_layout parameter has no effect: for every input and
    every setting of the other parameters the node returns the same result
    under any two layout values; and in the two duplicating modes the
    concatenation is [source, duplicate] whatever the layout. *)
Theorem output_layout_irrelevant
        (linspace : nat -> nat -> f32) (images : tensor f32)
        (mode source_half even_width_handling : string) (seam_feather : Z)
        (layout layout' : string) :
  apply linspace images mode source_half layout
        even_width_handling seam_feather
  = apply linspace images mode source_half layout'
          even_width_handling seam_feather /\
  apply linspace images "sbs_copy_half_to_stereo" source_half layout
        even_width_handling seam_feather
  = (let images := _ensure_even_width images even_width_handling in
     let W := dimW images in
     let half := (W / 2)%nat in
     let source := if (source_half =? "left")%string
                   then slice_w 0 half images else slice_w half W images in
     let duplicate := clone source in
     if negb (W mod 2 =? 0)%nat then Raise (ValueError odd_width_msg)
     else Ok (clamp (_seam_feather linspace (cat_w source duplicate)
                                   seam_feather half)
                    f32_zero f32_one)) /\
  apply linspace images "mono_to_stereo_copy" source_half layout
        even_width_handling seam_feather
  = (let source := _ensure_even_width images even_width_handling in
     let duplicate := clone source in
     Ok (clamp (_seam_feather linspace (cat_w source duplicate)
                              seam_feather (dimW source))
               f32_zero f32_one)).
Proof.
  split; [|split].
  - destruct (String.eqb_spec mode "even_crop_only") as [-> | N1];
      [reflexivity|].
    destruct (String.eqb_spec mode "sbs_extract_half") as [-> | N2];
      [reflexivity|].
    destruct (String.eqb_spec mode "sbs_copy_half_to_stereo") as [-> | N3];
      [rewrite !apply_sbs_copy_half_to_stereo; reflexivity|].
    destruct (String.eqb_spec mode "mono_to_stereo_copy") as [-> | N4];
      [rewrite !apply_mono_to_stereo_copy; reflexivity|].
    unfold apply. rewrite !string_eqb_false by assumption. reflexivity.
  - apply apply_sbs_copy_half_to_stereo.
  - apply apply_mono_to_stereo_copy.
Qed.

(* ================================================================== *)
(** ** Seam feathering *)

Lemma seam_feather_noop (linspace : nat -> nat -> f32) (out : tensor f32)
      (f : Z) (half : nat) :
  f <= 0 -> _seam_feather linspace out f half = out.
Proof.
  intro H. unfold _seam_feather.
  replace (f <=? 0) with true by (symmetry; apply Z.leb_le; assumption).
  reflexivity.
Qed.

Lemma seam_feather_shape (linspace : nat -> nat -> f32) (out : tensor f32)
      (f : Z) (half : nat) :
  shape (_seam_feather linspace out f half) = shape out.
Proof.
  unfold _seam_feather. destruct (f <=? 0); reflexivity.
Qed.

(** What [apply] hands to [_seam_feather] in its two duplicating modes is
    twice as wide as [half_width]. *)
Lemma duplicated_half_width (images : tensor f32) (sh : string) :
  (dimW images mod 2 = 0)%nat ->
  let half := (dimW images / 2)%nat in
  let src := if (sh =? "left")%string
             then slice_w 0 half images
             else slice_w half (dimW images) images in
  dimW (cat_w src (clone src)) = (2 * half)%nat.
Proof.
  intros He half src.
  pose proof (Nat.div_mod_eq (dimW images) 2) as Hd. fold half in Hd.
  unfold clone. subst src.
  destruct (sh =? "left")%string; cbn [cat_w slice_w dimW]; lia.
Qed.

Lemma duplicated_mono_width {A : Type} (mono : tensor A) :
  dimW (cat_w mono (clone mono)) = (2 * dimW mono)%nat.
Proof. unfold clone. cbn [cat_w dimW]. lia. Qed.

(** What feathering does to any batch of width 2*half: the two bands of
    min(f, half) columns next to the seam both receive
    left_band * (1 - ramp) + right_band * ramp, and the other columns are
    left alone. *)
Lemma seam_feather_blends
        (linspace : nat -> nat -> f32) (out : tensor f32)
        (seam_feather : Z) (half : nat) :
  0 < seam_feather ->
  dimW out = (2 * half)%nat ->
  let n := Nat.min (Z.to_nat seam_feather) half in
  let ramp := linspace n in
  let left_band b i k c := get out b i (half - n + k)%nat c in
  let right_band b i k c := get out b i (half + k)%nat c in
  let blended b i k c :=
    f32_add (f32_mul (left_band b i k c) (f32_sub f32_one (ramp k)))
            (f32_mul (right_band b i k c) (ramp k)) in
  let feathered := _seam_feather linspace out seam_feather half in
  shape feathered = shape out /\
  (forall b i k c, (k < n)%nat ->
     get feathered b i (half - n + k)%nat c = blended b i k c /\
     get feathered b i (half + k)%nat c = blended b i k c /\
     get feathered b i (half - n + k)%nat c
       = get feathered b i (half + k)%nat c) /\
  (forall b i j c, (j < half - n \/ half + n <= j)%nat ->
     get feathered b i j c = get out b i j c).
Proof.
  intros Hf HW n ramp left_band right_band blended feathered.
  split; [apply seam_feather_shape|].
  assert (Hn : (n <= half)%nat) by (subst n; lia).
  assert (Hget : forall b i j c,
    get feathered b i j c =
      if (half <=? j)%nat && (j <? half + n)%nat
      then blended b i (j - half)%nat c
      else if (half - n <=? j)%nat && (j <? half)%nat
           then blended b i (j - (half - n))%nat c
           else get out b i j c).
  { intros b i j c. subst feathered. unfold _seam_feather.
    replace (seam_feather <=? 0) with false
      by (symmetry; apply Z.leb_gt; assumption).
    fold n. cbv zeta.
    cbn [assign_w tmap2 tmap_w slice_w get dimW dimB dimH dimC].
    rewrite HW.
    replace (Nat.min (half - n) (2 * half)) with (half - n)%nat by lia.
    replace (Nat.min half (2 * half)) with half by lia.
    subst blended left_band right_band ramp. cbv beta.
    reflexivity. }
  split.
  - intros b i k c Hk.
    assert (L : get feathered b i (half - n + k)%nat c = blended b i k c).
    { rewrite Hget.
      destruct (Nat.leb_spec half (half - n + k)); [lia|]. cbn [andb].
      destruct (Nat.leb_spec (half - n) (half - n + k)); [|lia].
      destruct (Nat.ltb_spec (half - n + k) half); [|lia]. cbn [andb].
      f_equal. lia. }
    assert (R : get feathered b i (half + k)%nat c = blended b i k c).
    { rewrite Hget.
      destruct (Nat.leb_spec half (half + k)); [|lia].
      destruct (Nat.ltb_spec (half + k) (half + n)); [|lia]. cbn [andb].
      f_equal. lia. }
    rewrite L, R. auto.
  - intros b i j c Hj. rewrite Hget.
    destruct Hj as [Hj | Hj].
    + destruct (Nat.leb_spec half j); [lia|]. cbn [andb].
      destruct (Nat.leb_spec (half - n) j); [lia|]. reflexivity.
    + destruct (Nat.ltb_spec j (half + n)); [lia|].
      rewrite andb_false_r.
      destruct (Nat.ltb_spec j half); [lia|].
      rewrite andb_false_r. reflexivity.
Qed.

(* ================================================================== *)
(** ** Duplicating a frame *)

Lemma cat_self_left {A : Type} (t : tensor A) :
  tensor_eq (slice_w 0 (dimW t) (cat_w t (clone t))) t.
Proof.
  unfold clone. split.
  - unfold shape. cbn [slice_w cat_w dimB dimH dimW dimC].
    f_equal. f_equal. lia.
  - intros b i j c [_ [_ [Hj _]]].
    cbn [slice_w cat_w dimW] in Hj.
    cbn [slice_w cat_w get dimW].
    replace (Nat.min 0 (dimW t + dimW t) + j)%nat with j by lia.
    destruct (Nat.ltb_spec j (dimW t)); [reflexivity | lia].
Qed.

Lemma cat_self_right {A : Type} (t : tensor A) :
  tensor_eq (slice_w (dimW t) (2 * dimW t) (cat_w t (clone t))) t.
Proof.
  unfold clone. split.
  - unfold shape. cbn [slice_w cat_w dimB dimH dimW dimC].
    f_equal. f_equal. lia.
  - intros b i j c [_ [_ [Hj _]]].
    cbn [slice_w cat_w dimW] in Hj.
    cbn [slice_w cat_w get dimW].
    replace (Nat.min (dimW t) (dimW t + dimW t) + j)%nat
      with (dimW t + j)%nat by lia.
    destruct (Nat.ltb_spec (dimW t + j) (dimW t)); [lia|].
    f_equal. lia.
Qed.

(** Clamping commutes with taking columns. *)
Lemma clamp_slice_w (lo hi : nat) (t : tensor f32) (x y : f32) :
  slice_w lo hi (clamp t x y) = clamp (slice_w lo hi t) x y.
Proof. reflexivity. Qed.

Lemma clamp_tensor_eq (s t : tensor f32) (x y : f32) :
  tensor_eq s t -> tensor_eq (clamp s x y) (clamp t x y).
Proof.
  intros [Hs Hg]. split.
  - exact Hs.
  - intros b i j c Hin. cbn [clamp tmap get]. f_equal. apply Hg. exact Hin.
Qed.

(** C7 (as the code has it). With seam_feather = 0 the mode
    mono_to_stereo_copy first applies the even-width normalization to the
    mono batch, which leaves it alone under skip or for an even width and
    drops the last column of an odd width under auto_crop_if_odd; the
    result has twice the normalized width, and its left half and its right
    half each equal the normalized batch clamped to [0, 1]. *)
Theorem mono_to_stereo_copy_halves
        (linspace : nat -> nat -> f32) (images : tensor f32)
        (source_half output_layout even_width_handling : string) :
  let mono := _ensure_even_width images even_width_handling in
  let m := dimW mono in
  mono = (if (even_width_handling =? "skip")%string then images
          else if negb (dimW images mod 2 =? 0)%nat
               then slice_w 0 (dimW images - 1) images else images) /\
  m = (if (even_width_handling =? "skip")%string then dimW images
       else if negb (dimW images mod 2 =? 0)%nat
            then (dimW images - 1)%nat else dimW images) /\
  exists out,
    apply linspace images "mono_to_stereo_copy" source_half output_layout
          even_width_handling 0 = Ok out /\
    dimW out = (2 * m)%nat /\
    tensor_eq (slice_w 0 m out) (clamp mono f32_zero f32_one) /\
    tensor_eq (slice_w m (2 * m) out) (clamp mono f32_zero f32_one).
Proof.
  intros mono m.
  split; [reflexivity|].
  split; [apply ensure_even_width_dimW|].
  rewrite apply_mono_to_stereo_copy. cbv zeta. fold mono.
  rewrite seam_feather_noop by lia.
  eexists. split; [reflexivity|].
  split; [cbn [clamp tmap cat_w clone dimW]; unfold clone; fold m; lia|].
  rewrite !clamp_slice_w.
  split; apply clamp_tensor_eq.
  - apply cat_self_left.
  - apply cat_self_right.
Qed.

(** The claim C7 as the specification words it fails on an odd width under
    auto_crop_if_odd: a mono frame of width 3 gives a frame of width 4, not
    one of width 6 whose halves are the clamped input. *)
Lemma mono_to_stereo_copy_odd_width_cropped :
  (exists out,
     apply linspace_doc (sample_image 2 3) "mono_to_stereo_copy" "left"
           "cross_eyed" "auto_crop_if_odd" 0 = Ok out /\
     dimW out = 4%nat) /\
  ~ (exists out,
       apply linspace_doc (sample_image 2 3) "mono_to_stereo_copy" "left"
             "cross_eyed" "auto_crop_if_odd" 0 = Ok out /\
       dimW out = (2 * 3)%nat /\
       tensor_eq (slice_w 0 3 out)
                 (clamp (sample_image 2 3) f32_zero f32_one) /\
       tensor_eq (slice_w 3 (2 * 3) out)
                 (clamp (sample_image 2 3) f32_zero f32_one)).
Proof.
  split.
  - eexists. split; reflexivity.
  - intros [out [Hout [Hw _]]].
    rewrite apply_mono_to_stereo_copy in Hout. cbv zeta in Hout.
    injection Hout as <-.
    cbn in Hw. discriminate Hw.
Qed.

(* ================================================================== *)
(** ** The range of the stereo node's output *)

Lemma drawn_from_refl {A : Type} (t : tensor A) : drawn_from t t.
Proof. intros b i j c H. exists j. split; [exact H | reflexivity]. Qed.

Lemma drawn_from_slice_w {A : Type} (lo hi : nat) (t s : tensor A) :
  drawn_from t s -> drawn_from (slice_w lo hi t) s.
Proof.
  intros Hts b i j c [Hb [Hi [Hj Hc]]].
  cbn [slice_w dimB dimH dimW dimC] in Hb, Hi, Hj, Hc.
  cbn [slice_w get].
  apply Hts. repeat split; try assumption. lia.
Qed.

Lemma drawn_from_cat_self {A : Type} (t s : tensor A) :
  drawn_from t s -> drawn_from (cat_w t (clone t)) s.
Proof.
  unfold clone. intros Hts b i j c [Hb [Hi [Hj Hc]]].
  cbn [cat_w dimB dimH dimW dimC] in Hb, Hi, Hj, Hc.
  cbn [cat_w get].
  destruct (Nat.ltb_spec j (dimW t)).
  - apply Hts. repeat split; assumption.
  - apply Hts. repeat split; try assumption. lia.
Qed.

Lemma drawn_from_ensure_even_width (images : tensor f32) (ewh : string) :
  drawn_from (_ensure_even_width images ewh) images.
Proof.
  unfold _ensure_even_width.
  destruct (ewh =? "skip")%string; [apply drawn_from_refl|].
  destruct (negb (dimW images mod 2 =? 0)%nat).
  - apply drawn_from_slice_w, drawn_from_refl.
  - apply drawn_from_refl.
Qed.

Lemma clamp_drawn_nan_free (t s : tensor f32) :
  drawn_from t s -> nan_free s ->
  all_in_unit (clamp t f32_zero f32_one).
Proof.
  intros Hts Hs b i j c Hin.
  cbn [clamp tmap get]. apply clamp_elt_in_unit.
  destruct (Hts b i j c Hin) as [j' [Hin' ->]].
  apply Hs. exact Hin'.
Qed.

(** Whatever the node returns is a clamped tensor. *)
Lemma apply_ok_clamped (linspace : nat -> nat -> f32) images mode sh layout
      ewh f out :
  apply linspace images mode sh layout ewh f = Ok out ->
  exists t, out = clamp t f32_zero f32_one.
Proof.
  intro H.
  destruct (apply_modes linspace images mode sh layout ewh f)
    as [-> | [-> | [-> | [-> | Hunknown]]]].
  - rewrite apply_even_crop_only in H. injection H as <-. eauto.
  - rewrite apply_sbs_extract_half in H. cbv zeta in H.
    destruct (negb _) in H; [discriminate H|]. injection H as <-. eauto.
  - rewrite apply_sbs_copy_half_to_stereo in H. cbv zeta in H.
    destruct (negb _) in H; [discriminate H|]. injection H as <-. eauto.
  - rewrite apply_mono_to_stereo_copy in H. cbv zeta in H.
    injection H as <-. eauto.
  - rewrite Hunknown in H. discriminate H.
Qed.

(** Without feathering, what is clamped is made of pixels of the input. *)
Lemma apply_ok_drawn (linspace : nat -> nat -> f32) images mode sh layout
      ewh f out :
  f <= 0 \/ mode = "even_crop_only"%string
         \/ mode = "sbs_extract_half"%string ->
  apply linspace images mode sh layout ewh f = Ok out ->
  exists t, out = clamp t f32_zero f32_one /\ drawn_from t images.
Proof.
  intros Hf H.
  pose proof (drawn_from_ensure_even_width images ewh) as He.
  destruct (apply_modes linspace images mode sh layout ewh f)
    as [-> | [-> | [-> | [-> | Hunknown]]]].
  - rewrite apply_even_crop_only in H. injection H as <-. eauto.
  - rewrite apply_sbs_extract_half in H. cbv zeta in H.
    destruct (negb _) in H; [discriminate H|]. injection H as <-.
    eexists. split; [reflexivity|].
    destruct (sh =? "left")%string; apply drawn_from_slice_w, He.
  - destruct Hf as [Hf | [Hf | Hf]]; try discriminate Hf.
    rewrite apply_sbs_copy_half_to_stereo in H. cbv zeta in H.
    destruct (negb _) in H; [discriminate H|]. injection H as <-.
    rewrite seam_feather_noop by assumption.
    eexists. split; [reflexivity|].
    apply drawn_from_cat_self.
    destruct (sh =? "left")%string; apply drawn_from_slice_w, He.
  - destruct Hf as [Hf | [Hf | Hf]]; try discriminate Hf.
    rewrite apply_mono_to_stereo_copy in H. cbv zeta in H.
    injection H as <-.
    rewrite seam_feather_noop by assumption.
    eexists. split; [reflexivity|].
    apply drawn_from_cat_self, He.
  - rewrite Hunknown in H. discriminate H.
Qed.

(** The claim C4 as the specification words it fails on a NaN: clamping
    keeps it, and a NaN is not within [0, 1]. *)
Lemma clamp_keeps_nan :
  ~ (forall out,
       apply linspace_doc nan_image "even_crop_only" "left" "cross_eyed"
             "auto_crop_if_odd" 0 = Ok out ->
       all_in_unit out).
Proof.
  intro H.
  specialize (H _ eq_refl 0%nat 0%nat 0%nat 0%nat).
  assert (Hin : in_shape (clamp (_ensure_even_width nan_image
                                   "auto_crop_if_odd") f32_zero f32_one)
                         0 0 0 0).
  { unfold in_shape. cbn. lia. }
  specialize (H Hin). vm_compute in H. discriminate H.
Qed.

(** Feathering can make a NaN out of an infinity: with one column per eye
    and seam_feather = 1 the ramp is the single value 0.0, and
    inf * 1.0 + inf * 0.0 is a NaN. *)
Example feathered_infinity_is_nan :
  exists out,
    apply linspace_doc inf_image "mono_to_stereo_copy" "left" "cross_eyed"
          "skip" 1 = Ok out /\
    get out 0 0 0 0 = S754_nan /\ get out 0 0 1 0 = S754_nan.
Proof.
  eexists. split; [reflexivity|]. split; vm_compute; reflexivity.
Qed.

(* ================================================================== *)
(** ** The theorems at concrete inputs *)

(** A 2 x 4 image, 50 percent to the right: the raw offset 2 is the tie
    W/2 and stays +2. *)
Lemma resolved_offsets_half_open_witness :
  dimC (sample_image 2 4) = 3%nat /\
  1 <= Z.of_nat (dimW (sample_image 2 4)) /\
  1 <= Z.of_nat (dimH (sample_image 2 4)) /\
  resolve (sample_image 2 4) "percent" (py_float 50) (py_float 0)
          false false = Ok (2, 0) /\
  (- 4 < 2 * 2 <= 4) /\ (- 2 < 2 * 0 <= 2) /\
  normalize 6 4 = 2.
Proof.
  assert (HC : dimC (sample_image 2 4) = 3%nat) by reflexivity.
  assert (HW : 1 <= Z.of_nat (dimW (sample_image 2 4))) by (simpl; lia).
  assert (HH : 1 <= Z.of_nat (dimH (sample_image 2 4))) by (simpl; lia).
  assert (HR : resolve (sample_image 2 4) "percent" (py_float 50)
                       (py_float 0) false false = Ok (2, 0))
    by (vm_compute; reflexivity).
  destruct (resolved_offsets_half_open _ _ _ _ _ _ _ _ HC HW HH HR)
    as [Rx [Ry [Tx _]]].
  exact (conj HC (conj HW (conj HH (conj HR (conj Rx (conj Ry
           (proj1 (Tx 6 eq_refl eq_refl)))))))).
Defined.

(** A 2 x 4 image, one pixel to the right, filled: three columns and two
    rows are copied. *)
Lemma fill_path_copy_lengths_positive_witness :
  dimC (sample_image 2 4) = 3%nat /\
  1 <= Z.of_nat (dimW (sample_image 2 4)) /\
  1 <= Z.of_nat (dimH (sample_image 2 4)) /\
  resolve (sample_image 2 4) "pixels" (py_float 1) (py_float 0)
          false false = Ok (1, 0) /\
  (1 =? 0) && (0 =? 0) = false /\
  "fill_color"%string <> "wrap"%string /\
  0 < 3 /\ 0 < 2 /\
  offset (sample_image 2 4) "pixels" (py_float 1) (py_float 0) false false
         "fill_color" (py_float 1) (py_float 0) (py_float 0)
  = Ok (paste (canvas 1 2 4 "fill_color" (py_float 1) (py_float 0)
                      (py_float 0))
              (sample_image 2 4) 0 1 0 0 2 3).
Proof.
  assert (HC : dimC (sample_image 2 4) = 3%nat) by reflexivity.
  assert (HW : 1 <= Z.of_nat (dimW (sample_image 2 4))) by (simpl; lia).
  assert (HH : 1 <= Z.of_nat (dimH (sample_image 2 4))) by (simpl; lia).
  assert (HR : resolve (sample_image 2 4) "pixels" (py_float 1)
                       (py_float 0) false false = Ok (1, 0))
    by (vm_compute; reflexivity).
  assert (HZ : (1 =? 0) && (0 =? 0) = false) by reflexivity.
  assert (HM : "fill_color"%string <> "wrap"%string) by discriminate.
  pose proof (fill_path_copy_lengths_positive
                (sample_image 2 4) "pixels" (py_float 1) (py_float 0)
                false false "fill_color" (py_float 1) (py_float 0)
                (py_float 0) 1 0 HC HW HH HR HZ HM) as P.
  cbn in P. destruct P as [Pw [Ph [_ Po]]].
  exact (conj HC (conj HW (conj HH (conj HR (conj HZ (conj HM
           (conj Pw (conj Ph Po)))))))).
Defined.

(** The same call seen column by column: column 0 is the fill colour,
    columns 1..3 are the input's columns 0..2. *)
Lemma fill_color_shift_right_witness :
  dimC (sample_image 2 4) = 3%nat /\
  resolve (sample_image 2 4) "pixels" (py_float 1) (py_float 0)
          false false = Ok (1, 0) /\
  0 < 1 /\
  exists out,
    offset (sample_image 2 4) "pixels" (py_float 1) (py_float 0) false false
           "fill_color" (py_float 1) (py_float 0) (py_float 0) = Ok out /\
    shape out = (1, 2, 4, 3)%nat /\
    get out 0 1 0 0 = f32_one /\
    get out 0 1 3 2 = get (sample_image 2 4) 0 1 2 2.
Proof.
  assert (HC : dimC (sample_image 2 4) = 3%nat) by reflexivity.
  assert (HR : resolve (sample_image 2 4) "pixels" (py_float 1)
                       (py_float 0) false false = Ok (1, 0))
    by (vm_compute; reflexivity).
  assert (HX : 0 < 1) by lia.
  destruct (fill_color_shift_right
              (sample_image 2 4) "pixels" (py_float 1) (py_float 0)
              false false (py_float 1) (py_float 0) (py_float 0) 1
              HC HR HX) as [out [Ho [Hs [Hfill Hcopy]]]].
  refine (conj HC (conj HR (conj HX _))).
  exists out.
  assert (I0 : in_shape out 0 1 0 0)
    by (unfold in_shape; unfold shape in Hs; injection Hs as -> -> -> ->;
        simpl; lia).
  assert (I3 : in_shape out 0 1 3 2)
    by (unfold in_shape; unfold shape in Hs; injection Hs as -> -> -> ->;
        simpl; lia).
  refine (conj Ho (conj Hs (conj _ _))).
  - rewrite (Hfill _ _ _ _ I0) by (simpl; lia). vm_compute. reflexivity.
  - rewrite (Hcopy _ _ _ _ I3) by (simpl; lia). reflexivity.
Defined.

(** A 3 x 4 image rolled by (1, -1) and back. *)
Lemma wrap_round_trip_witness :
  dimC (sample_image 3 4) = 3%nat /\
  2 * Z.abs 1 < Z.of_nat (dimW (sample_image 3 4)) /\
  2 * Z.abs (-1) < Z.of_nat (dimH (sample_image 3 4)) /\
  Py.round (py_float 1) = Ok 1 /\ Py.round (py_float (-1)) = Ok (-1) /\
  exists shifted restored,
    offset (sample_image 3 4) "pixels" (py_float 1) (py_float (-1))
           false false "wrap" (py_float 0) (py_float 0) (py_float 0)
      = Ok shifted /\
    offset shifted "pixels" (py_float (-1)) (py_float 1)
           false false "wrap" (py_float 0) (py_float 0) (py_float 0)
      = Ok restored /\
    tensor_eq restored (sample_image 3 4).
Proof.
  assert (HC : dimC (sample_image 3 4) = 3%nat) by reflexivity.
  assert (HW : 2 * Z.abs 1 < Z.of_nat (dimW (sample_image 3 4)))
    by (simpl; lia).
  assert (HH : 2 * Z.abs (-1) < Z.of_nat (dimH (sample_image 3 4)))
    by (simpl; lia).
  assert (R1 : Py.round (py_float 1) = Ok 1) by (vm_compute; reflexivity).
  assert (R2 : Py.round (py_float (-1)) = Ok (-1))
    by (vm_compute; reflexivity).
  exact (conj HC (conj HW (conj HH (conj R1 (conj R2
           (wrap_round_trip (sample_image 3 4) 1 (-1)
                            (py_float 1) (py_float (-1))
                            (py_float (-1)) (py_float 1)
                            (py_float 0) (py_float 0) (py_float 0)
                            HC HW HH R1 R2 R2 R1)))))).
Defined.

(** An unknown source_half on a 2 x 4 SBS frame selects the right half. *)
Lemma source_half_defaults_to_right_witness :
  (dimW (sample_image 2 4) mod 2 = 0)%nat /\
  "middle"%string <> "left"%string /\
  apply linspace_doc (sample_image 2 4) "sbs_extract_half" "middle"
        "cross_eyed" "skip" 0
  = Ok (clamp (slice_w 2 4 (sample_image 2 4)) f32_zero f32_one).
Proof.
  assert (HE : (dimW (sample_image 2 4) mod 2 = 0)%nat) by reflexivity.
  assert (HS : "middle"%string <> "left"%string) by discriminate.
  destruct (source_half_defaults_to_right
              linspace_doc (sample_image 2 4) "sbs_extract_half" "middle"
              "cross_eyed" "skip" 0 HE (or_introl eq_refl) HS) as [Heq _].
  refine (conj HE (conj HS _)).
  rewrite Heq. reflexivity.
Defined.

(* ================================================================== *)
(** * Further properties of the offset node *)

Lemma offset_bad_channels (image : tensor f32) units xo yo ahw ahh edge_mode
      fr fg fb :
  dimC image <> 3%nat ->
  offset image units xo yo ahw ahh edge_mode fr fg fb =
    Raise (ValueError ("Expected 3-channel IMAGE, got C="
                         ++ str_of_nat (dimC image))).
Proof.
  intro H. unfold offset.
  replace (dimC image =? 3)%nat with false
    by (symmetry; apply Nat.eqb_neq; exact H).
  reflexivity.
Qed.

(** The exceptions the conversion of one offset can raise. *)
Lemma raw_px_raise (auto_half : bool) units v dim e :
  raw_px auto_half units v dim = Raise e ->
  e = ValueError "cannot convert float NaN to integer" \/
  e = OverflowError "cannot convert float infinity to integer" \/
  e = OverflowError "int too large to convert to float".
Proof.
  assert (R : forall x, Py.round x = Raise e ->
            e = ValueError "cannot convert float NaN to integer" \/
            e = OverflowError "cannot convert float infinity to integer" \/
            e = OverflowError "int too large to convert to float").
  { intros x. destruct x; cbn [Py.round]; intro H;
      try discriminate H; injection H as <-; auto. }
  unfold raw_px. destruct auto_half; [discriminate|].
  destruct (units =? "percent")%string; [|apply R].
  unfold float_of_int.
  destruct (is_inf (binary_normalize prec64 emax64 dim 0 false)).
  - cbn [Py.bind]. intro H. injection H as <-. auto.
  - cbn [Py.bind]. apply R.
Qed.

Lemma resolve_raise (image : tensor f32) units xo yo ahw ahh e :
  resolve image units xo yo ahw ahh = Raise e ->
  e = ValueError "cannot convert float NaN to integer" \/
  e = OverflowError "cannot convert float infinity to integer" \/
  e = OverflowError "int too large to convert to float".
Proof.
  unfold resolve.
  destruct (raw_px ahw units xo (Z.of_nat (dimW image))) as [rx|ex] eqn:Ex.
  - cbn [Py.bind].
    destruct (raw_px ahh units yo (Z.of_nat (dimH image))) as [ry|ey] eqn:Ey.
    + discriminate.
    + cbn [Py.bind]. intro H. injection H as <-.
      apply (raw_px_raise _ _ _ _ _ Ey).
  - cbn [Py.bind]. intro H. injection H as <-.
    apply (raw_px_raise _ _ _ _ _ Ex).
Qed.

Lemma resolve_raw (image : tensor f32) units xo yo ahw ahh (rx ry : Z) :
  raw_px ahw units xo (Z.of_nat (dimW image)) = Ok rx ->
  raw_px ahh units yo (Z.of_nat (dimH image)) = Ok ry ->
  resolve image units xo yo ahw ahh =
    Ok (normalize rx (Z.of_nat (dimW image)),
        normalize ry (Z.of_nat (dimH image))).
Proof.
  intros Hx Hy. unfold resolve. rewrite Hx. cbn [Py.bind].
  rewrite Hy. reflexivity.
Qed.

(** With three channels the node fails exactly as [resolve] does. *)
Lemma offset_raise_resolve (image : tensor f32) units xo yo ahw ahh edge_mode
      fr fg fb e :
  dimC image = 3%nat ->
  offset image units xo yo ahw ahh edge_mode fr fg fb = Raise e ->
  resolve image units xo yo ahw ahh = Raise e.
Proof.
  intros HC H.
  destruct (resolve image units xo yo ahw ahh) as [[x y]|e'] eqn:R.
  - rewrite (offset_resolved _ _ _ _ _ _ edge_mode fr fg fb _ _ HC R) in H.
    destruct ((x =? 0) && (y =? 0)); [discriminate H|].
    destruct (edge_mode =? "wrap")%string; [discriminate H|].
    cbv zeta in H.
    destruct (copy_span x (Z.of_nat (dimW image))) as [[? ?] ?].
    destruct (copy_span y (Z.of_nat (dimH image))) as [[? ?] ?].
    destruct ((_ <=? 0) || (_ <=? 0)) in H; discriminate H.
  - unfold offset in H. rewrite HC in H. cbn [Nat.eqb negb] in H.
    rewrite R in H. cbn [Py.bind] in H. injection H as <-. reflexivity.
Qed.

Lemma offset_ok_resolve (image : tensor f32) units xo yo ahw ahh edge_mode
      fr fg fb out :
  offset image units xo yo ahw ahh edge_mode fr fg fb = Ok out ->
  dimC image = 3%nat /\
  exists x_px y_px, resolve image units xo yo ahw ahh = Ok (x_px, y_px).
Proof.
  intro H.
  destruct (Nat.eq_dec (dimC image) 3) as [HC|HC].
  - split; [exact HC|].
    destruct (resolve image units xo yo ahw ahh) as [[x y]|e] eqn:R.
    + eauto.
    + unfold offset in H. rewrite HC in H. cbn [Nat.eqb negb] in H.
      rewrite R in H. discriminate H.
  - rewrite offset_bad_channels in H by exact HC. discriminate H.
Qed.

(** X1. The node raises the three-channel ValueError, naming the channel
    count it found, exactly when the input does not have three channels;
    no other parameter matters, not even a NaN offset. *)
Theorem offset_channel_error_iff
        (image : tensor f32) (units : string) (x_offset y_offset : Py.float)
        (auto_half_width auto_half_height : bool) (edge_mode : string)
        (fill_r fill_g fill_b : Py.float) :
  offset image units x_offset y_offset auto_half_width auto_half_height
         edge_mode fill_r fill_g fill_b
  = Raise (ValueError ("Expected 3-channel IMAGE, got C="
                         ++ str_of_nat (dimC image)))
  <-> dimC image <> 3%nat.
Proof.
  split.
  - intros H HC.
    apply offset_raise_resolve in H; [|exact HC].
    apply resolve_raise in H.
    destruct H as [H | [H | H]]; discriminate H.
  - apply offset_bad_channels.
Qed.

Lemma offset_shape (image : tensor f32) units x_offset y_offset
      auto_half_width auto_half_height edge_mode fill_r fill_g fill_b out :
  offset image units x_offset y_offset auto_half_width auto_half_height
         edge_mode fill_r fill_g fill_b = Ok out ->
  shape out = shape image.
Proof.
  intro H.
  destruct (offset_ok_resolve _ _ _ _ _ _ _ _ _ _ _ H) as [HC [x [y R]]].
  rewrite (offset_resolved _ _ _ _ _ _ edge_mode fill_r fill_g fill_b
                           _ _ HC R) in H.
  destruct ((x =? 0) && (y =? 0)); [injection H as <-; reflexivity|].
  destruct (edge_mode =? "wrap")%string; [injection H as <-; reflexivity|].
  cbv zeta in H.
  destruct (copy_span x (Z.of_nat (dimW image))) as [[? ?] ?].
  destruct (copy_span y (Z.of_nat (dimH image))) as [[? ?] ?].
  assert (S : shape (canvas (dimB image) (dimH image) (dimW image)
                            edge_mode fill_r fill_g fill_b) = shape image).
  { unfold canvas, shape.
    destruct (edge_mode =? "fill_color")%string; cbn; rewrite HC;
      reflexivity. }
  destruct ((_ <=? 0) || (_ <=? 0)) in H; injection H as <-; exact S.
Qed.

(** X2. Whatever the mode and the offsets, a batch the node returns has the
    shape of its input. *)
Theorem offset_preserves_shape
        (image : tensor f32) (units : string) (x_offset y_offset : Py.float)
        (auto_half_width auto_half_height : bool) (edge_mode : string)
        (fill_r fill_g fill_b : Py.float) (out : tensor f32) :
  offset image units x_offset y_offset auto_half_width auto_half_height
         edge_mode fill_r fill_g fill_b = Ok out ->
  shape out = shape image.
Proof.
  apply offset_shape.
Qed.

Lemma offset_preserves_shape_witness :
  exists out,
    offset (sample_image 2 4) "percent" (py_float 25) (py_float 50)
           false false "transparent_black"
           (py_float 0) (py_float 0) (py_float 0) = Ok out /\
    shape out = (1, 2, 4, 3)%nat.
Proof.
  eexists. split; [vm_compute; reflexivity|].
  refine (offset_preserves_shape
            (sample_image 2 4) "percent" (py_float 25) (py_float 50)
            false false "transparent_black"
            (py_float 0) (py_float 0) (py_float 0) _ _).
  vm_compute. reflexivity.
Defined.

(** X3. An offset that is a whole number of widths and heights returns the
    input itself in every edge mode: the fill modes do not blank the image
    when it is shifted by a full period. *)
Theorem offset_full_period_is_identity
        (image : tensor f32) (units : string) (x_offset y_offset : Py.float)
        (auto_half_width auto_half_height : bool) (edge_mode : string)
        (fill_r fill_g fill_b : Py.float) (rx ry : Z) :
  let W := Z.of_nat (dimW image) in
  let H := Z.of_nat (dimH image) in
  dimC image = 3%nat ->
  1 <= W -> 1 <= H ->
  raw_px auto_half_width units x_offset W = Ok rx ->
  raw_px auto_half_height units y_offset H = Ok ry ->
  rx mod W = 0 -> ry mod H = 0 ->
  offset image units x_offset y_offset auto_half_width auto_half_height
         edge_mode fill_r fill_g fill_b = Ok image.
Proof.
  intros W H HC HW HH Hx Hy Mx My.
  pose proof (resolve_raw image _ _ _ _ _ _ _ Hx Hy) as R.
  fold W H in R.
  rewrite (normalize_pos_dim W) in R by lia.
  rewrite (normalize_pos_dim H) in R by lia.
  rewrite Mx, My in R.
  replace (0 >? W / 2) with false in R
    by (symmetry; rewrite Z.gtb_ltb; apply Z.ltb_ge;
        apply Z.div_pos; lia).
  replace (0 >? H / 2) with false in R
    by (symmetry; rewrite Z.gtb_ltb; apply Z.ltb_ge;
        apply Z.div_pos; lia).
  rewrite (offset_resolved _ _ _ _ _ _ edge_mode fill_r fill_g fill_b
                           _ _ HC R).
  reflexivity.
Qed.

Lemma offset_full_period_is_identity_witness :
  offset (sample_image 2 4) "pixels" (py_float 8) (py_float (-2))
         false false "fill_color" (py_float 1) (py_float 0) (py_float 0)
  = Ok (sample_image 2 4).
Proof.
  apply (offset_full_period_is_identity
           (sample_image 2 4) "pixels" (py_float 8) (py_float (-2))
           false false "fill_color" (py_float 1) (py_float 0) (py_float 0)
           8 (-2));
    try reflexivity; simpl; lia.
Defined.

(* ------------------------------------------------------------------ *)
(** *** Wrap mode as a cyclic shift *)

Lemma shift_index_congr (i a b n : Z) :
  0 < n -> a mod n = b mod n -> (i - a) mod n = (i - b) mod n.
Proof.
  intros Hn H.
  rewrite (Zminus_mod i a n), (Zminus_mod i b n), H. reflexivity.
Qed.

Lemma shift_index_zero (i : nat) (a n : Z) :
  Z.of_nat i < n -> a mod n = 0 ->
  Z.to_nat ((Z.of_nat i - a) mod n) = i.
Proof.
  intros Hi H.
  rewrite (Zminus_mod (Z.of_nat i) a n), H, Z.sub_0_r, Z.mod_mod by lia.
  rewrite Z.mod_small by lia. apply Nat2Z.id.
Qed.

(** In wrap mode the node is the cyclic shift by the raw offsets. *)
Lemma offset_wrap_get (image : tensor f32) units xo yo ahw ahh fr fg fb
      (rx ry : Z) :
  dimC image = 3%nat ->
  1 <= Z.of_nat (dimW image) -> 1 <= Z.of_nat (dimH image) ->
  raw_px ahw units xo (Z.of_nat (dimW image)) = Ok rx ->
  raw_px ahh units yo (Z.of_nat (dimH image)) = Ok ry ->
  exists out,
    offset image units xo yo ahw ahh "wrap" fr fg fb = Ok out /\
    shape out = shape image /\
    forall b i j c, in_shape image b i j c ->
      get out b i j c =
      get image b
          (Z.to_nat ((Z.of_nat i - ry) mod Z.of_nat (dimH image)))
          (Z.to_nat ((Z.of_nat j - rx) mod Z.of_nat (dimW image))) c.
Proof.
  intros HC HW1 HH1 Hx Hy.
  pose proof (resolve_raw image _ _ _ _ _ _ _ Hx Hy) as R.
  rewrite (offset_resolved _ _ _ _ _ _ "wrap" fr fg fb _ _ HC R).
  change ("wrap" =? "wrap")%string with true.
  set (W := Z.of_nat (dimW image)). set (H := Z.of_nat (dimH image)).
  destruct ((normalize rx W =? 0) && (normalize ry H =? 0)) eqn:Z0.
  - exists image. split; [reflexivity|]. split; [reflexivity|].
    intros b i j c [_ [Hi [Hj _]]].
    apply andb_true_iff in Z0. destruct Z0 as [Zx Zy].
    apply Z.eqb_eq in Zx. apply Z.eqb_eq in Zy.
    assert (Mx : rx mod W = 0).
    { rewrite <- (normalize_congr W) by (subst W; lia).
      rewrite Zx. apply Z.mod_0_l. subst W; lia. }
    assert (My : ry mod H = 0).
    { rewrite <- (normalize_congr H) by (subst H; lia).
      rewrite Zy. apply Z.mod_0_l. subst H; lia. }
    rewrite (shift_index_zero i ry H) by (subst H; lia || assumption).
    rewrite (shift_index_zero j rx W) by (subst W; lia || assumption).
    reflexivity.
  - eexists. split; [reflexivity|]. split; [reflexivity|].
    intros b i j c [_ [Hi [Hj _]]].
    cbn [roll get]. fold W H.
    rewrite (shift_index_congr (Z.of_nat i) (normalize ry H) ry H)
      by (subst H; lia || (apply normalize_congr; lia)).
    rewrite (shift_index_congr (Z.of_nat j) (normalize rx W) rx W)
      by (subst W; lia || (apply normalize_congr; lia)).
    reflexivity.
Qed.

(** X4. For an image with W >= 1 and H >= 1, in wrap mode the result is
    the cyclic shift by the offsets as they were given, before any
    normalization: the pixel at row i, column j of the output is the
    input's pixel at row (i - y) mod H, column (j - x) mod W. Offsets that
    differ by whole widths or heights therefore give the same picture. *)
Theorem wrap_is_cyclic_shift
        (image : tensor f32) (units : string) (x_offset y_offset : Py.float)
        (auto_half_width auto_half_height : bool)
        (fill_r fill_g fill_b : Py.float) (rx ry : Z) :
  dimC image = 3%nat ->
  1 <= Z.of_nat (dimW image) -> 1 <= Z.of_nat (dimH image) ->
  raw_px auto_half_width units x_offset (Z.of_nat (dimW image)) = Ok rx ->
  raw_px auto_half_height units y_offset (Z.of_nat (dimH image)) = Ok ry ->
  exists out,
    offset image units x_offset y_offset auto_half_width auto_half_height
           "wrap" fill_r fill_g fill_b = Ok out /\
    shape out = shape image /\
    forall b i j c, in_shape image b i j c ->
      get out b i j c =
      get image b
          (Z.to_nat ((Z.of_nat i - ry) mod Z.of_nat (dimH image)))
          (Z.to_nat ((Z.of_nat j - rx) mod Z.of_nat (dimW image))) c.
Proof.
  intros HC HW HH Hx Hy.
  exact (offset_wrap_get image units x_offset y_offset auto_half_width
                         auto_half_height fill_r fill_g fill_b rx ry
                         HC HW HH Hx Hy).
Qed.

Lemma wrap_is_cyclic_shift_witness :
  exists out,
    offset (sample_image 2 4) "pixels" (py_float 7) (py_float 1)
           false false "wrap" (py_float 0) (py_float 0) (py_float 0)
      = Ok out /\
    get out 0 0 1 2 = get (sample_image 2 4) 0 1 2 2.
Proof.
  destruct (wrap_is_cyclic_shift
              (sample_image 2 4) "pixels" (py_float 7) (py_float 1)
              false false (py_float 0) (py_float 0) (py_float 0) 7 1
              eq_refl ltac:(simpl; lia) ltac:(simpl; lia) eq_refl eq_refl)
    as [out [Ho [_ Hg]]].
  exists out. split; [exact Ho|].
  refine (Hg 0%nat 0%nat 1%nat 2%nat _).
  unfold in_shape. simpl. lia.
Defined.

Lemma shift_index_add (i : nat) (a b n : Z) :
  0 < n ->
  Z.to_nat ((Z.of_nat (Z.to_nat ((Z.of_nat i - b) mod n)) - a) mod n)
  = Z.to_nat ((Z.of_nat i - (a + b)) mod n).
Proof.
  intro Hn.
  pose proof (Z.mod_pos_bound (Z.of_nat i - b) n Hn) as Hm.
  rewrite Z2Nat.id by lia.
  rewrite Zminus_mod_idemp_l.
  f_equal. f_equal. lia.
Qed.

Lemma shape_dims {A : Type} (s t : tensor A) :
  shape s = shape t ->
  dimB s = dimB t /\ dimH s = dimH t /\ dimW s = dimW t /\ dimC s = dimC t.
Proof. unfold shape. intro H. injection H as -> -> -> ->. auto. Qed.

(** X5. Wrap-mode offsets add up: for an image with W >= 1 and H >= 1,
    offsetting by (x1, y1) and then by (x2, y2) gives a batch equal to the
    one a single offset by (x1 + x2, y1 + y2) gives. *)
Theorem wrap_offsets_compose
        (image : tensor f32) (x1 y1 x2 y2 : Z)
        (xo1 yo1 xo2 yo2 xo12 yo12 : Py.float)
        (fill_r fill_g fill_b : Py.float) :
  dimC image = 3%nat ->
  1 <= Z.of_nat (dimW image) -> 1 <= Z.of_nat (dimH image) ->
  Py.round xo1 = Ok x1 -> Py.round yo1 = Ok y1 ->
  Py.round xo2 = Ok x2 -> Py.round yo2 = Ok y2 ->
  Py.round xo12 = Ok (x1 + x2) -> Py.round yo12 = Ok (y1 + y2) ->
  exists first second direct,
    offset image "pixels" xo1 yo1 false false "wrap"
           fill_r fill_g fill_b = Ok first /\
    offset first "pixels" xo2 yo2 false false "wrap"
           fill_r fill_g fill_b = Ok second /\
    offset image "pixels" xo12 yo12 false false "wrap"
           fill_r fill_g fill_b = Ok direct /\
    tensor_eq second direct.
Proof.
  intros HC HW1 HH1 X1 Y1 X2 Y2 X12 Y12.
  destruct (offset_wrap_get image "pixels" xo1 yo1 false false
                            fill_r fill_g fill_b x1 y1 HC HW1 HH1 X1 Y1)
    as [first [O1 [S1 G1]]].
  destruct (shape_dims _ _ S1) as [D1b [D1h [D1w D1c]]].
  assert (HC1 : dimC first = 3%nat) by congruence.
  assert (HW2 : 1 <= Z.of_nat (dimW first)) by (rewrite D1w; exact HW1).
  assert (HH2 : 1 <= Z.of_nat (dimH first)) by (rewrite D1h; exact HH1).
  destruct (offset_wrap_get first "pixels" xo2 yo2 false false
                            fill_r fill_g fill_b x2 y2 HC1 HW2 HH2 X2 Y2)
    as [second [O2 [S2 G2]]].
  destruct (shape_dims _ _ S2) as [D2b [D2h [D2w D2c]]].
  destruct (offset_wrap_get image "pixels" xo12 yo12 false false
                            fill_r fill_g fill_b (x1 + x2) (y1 + y2)
                            HC HW1 HH1 X12 Y12)
    as [direct [O3 [S3 G3]]].
  exists first, second, direct.
  repeat (split; [assumption|]).
  split; [congruence|].
  intros b i j c [Hb [Hi [Hj Hc]]].
  assert (I1 : in_shape first b i j c)
    by (unfold in_shape; rewrite <- D2b, <- D2h, <- D2w, <- D2c; auto).
  assert (I0 : in_shape image b i j c)
    by (unfold in_shape; rewrite <- D1b, <- D1h, <- D1w, <- D1c;
        apply I1).
  destruct I0 as [Ib [Ii [Ij Ic]]].
  rewrite (G2 b i j c I1), (G3 b i j c (conj Ib (conj Ii (conj Ij Ic)))).
  rewrite D1h, D1w.
  set (H := Z.of_nat (dimH image)). set (W := Z.of_nat (dimW image)).
  assert (HH : 0 < H) by (subst H; lia).
  assert (HW : 0 < W) by (subst W; lia).
  pose proof (Z.mod_pos_bound (Z.of_nat i - y2) H HH) as Bi.
  pose proof (Z.mod_pos_bound (Z.of_nat j - x2) W HW) as Bj.
  rewrite G1.
  - fold H W. rewrite !shift_index_add by assumption. reflexivity.
  - unfold in_shape. repeat split; try assumption.
    + subst H. lia.
    + subst W. lia.
Qed.

Lemma wrap_offsets_compose_witness :
  exists first second direct,
    offset (sample_image 3 4) "pixels" (py_float 3) (py_float 2)
           false false "wrap" (py_float 0) (py_float 0) (py_float 0)
      = Ok first /\
    offset first "pixels" (py_float (-1)) (py_float 2)
           false false "wrap" (py_float 0) (py_float 0) (py_float 0)
      = Ok second /\
    offset (sample_image 3 4) "pixels" (py_float 2) (py_float 4)
           false false "wrap" (py_float 0) (py_float 0) (py_float 0)
      = Ok direct /\
    tensor_eq second direct.
Proof.
  apply (wrap_offsets_compose (sample_image 3 4) 3 2 (-1) 2);
    try (simpl; lia); vm_compute; reflexivity.
Defined.

(* ------------------------------------------------------------------ *)
(** *** The non-wrapping modes as a shift with a background *)

Lemma canvas_get (b h w : nat) edge_mode fr fg fb (n i j c : nat) :
  (c < 3)%nat ->
  get (canvas b h w edge_mode fr fg fb) n i j c
  = background edge_mode fr fg fb c.
Proof.
  intro Hc. unfold canvas, background.
  destruct (edge_mode =? "fill_color")%string.
  - cbn [full get]. destruct c as [|[|[|c]]]; try reflexivity. lia.
  - reflexivity.
Qed.

Lemma copy_span_cases (px dim : Z) :
  (0 <= px /\ copy_span px dim = (0, px, dim - px)) \/
  (px < 0 /\ copy_span px dim = (- px, 0, dim + px)).
Proof.
  unfold copy_span. destruct (Z.geb_spec px 0); [left | right];
    split; try reflexivity; lia.
Qed.

Lemma offset_fill_get (image : tensor f32) units x_offset y_offset
      auto_half_width auto_half_height edge_mode fill_r fill_g fill_b
      (x_px y_px : Z) :
  dimC image = 3%nat ->
  resolve image units x_offset y_offset auto_half_width auto_half_height
    = Ok (x_px, y_px) ->
  edge_mode <> "wrap"%string ->
  exists out,
    offset image units x_offset y_offset auto_half_width auto_half_height
           edge_mode fill_r fill_g fill_b = Ok out /\
    forall b i j c, in_shape image b i j c ->
      let si := Z.of_nat i - y_px in
      let sj := Z.of_nat j - x_px in
      get out b i j c =
        if (0 <=? si) && (si <? Z.of_nat (dimH image))
           && (0 <=? sj) && (sj <? Z.of_nat (dimW image))
        then get image b (Z.to_nat si) (Z.to_nat sj) c
        else background edge_mode fill_r fill_g fill_b c.
Proof.
  intros HC R Hmode.
  rewrite (offset_resolved _ _ _ _ _ _ edge_mode fill_r fill_g fill_b
                           _ _ HC R).
  rewrite (string_eqb_false _ _ Hmode).
  set (W := Z.of_nat (dimW image)). set (H := Z.of_nat (dimH image)).
  destruct (resolve_ok _ _ _ _ _ _ _ _ R) as [rx [ry [_ [_ [Ex Ey]]]]].
  fold W in Ex. fold H in Ey.
  destruct ((x_px =? 0) && (y_px =? 0)) eqn:Z0.
  - (* the identity shortcut *)
    apply andb_true_iff in Z0. destruct Z0 as [Zx Zy].
    apply Z.eqb_eq in Zx. apply Z.eqb_eq in Zy. subst x_px y_px.
    rewrite Zx, Zy.
    exists image. split; [reflexivity|].
    intros b i j c [_ [Hi [Hj _]]]. cbv zeta.
    rewrite !Z.sub_0_r, !Nat2Z.id.
    destruct (Z.leb_spec 0 (Z.of_nat i)); [|lia].
    destruct (Z.ltb_spec (Z.of_nat i) H); [|subst H; lia].
    destruct (Z.leb_spec 0 (Z.of_nat j)); [|lia].
    destruct (Z.ltb_spec (Z.of_nat j) W); [|subst W; lia].
    reflexivity.
  - cbv zeta.
    destruct (copy_span x_px W) as [[src_x0 dst_x0] width_copy] eqn:Cx.
    destruct (copy_span y_px H) as [[src_y0 dst_y0] height_copy] eqn:Cy.
    destruct ((width_copy <=? 0) || (height_copy <=? 0)) eqn:G.
    + (* the guard: only taken when the image has no pixel *)
      eexists. split; [reflexivity|].
      intros b i j c [_ [Hi [Hj _]]]. exfalso.
      assert (Pw : 0 < snd (copy_span x_px W))
        by (subst x_px; apply copy_span_positive; subst W; lia).
      assert (Ph : 0 < snd (copy_span y_px H))
        by (subst y_px; apply copy_span_positive; subst H; lia).
      rewrite Cx in Pw. rewrite Cy in Ph. cbn [snd] in Pw, Ph.
      apply orb_true_iff in G. destruct G as [G|G]; apply Z.leb_le in G; lia.
    + eexists. split; [reflexivity|].
      intros b i j c [_ [Hi [Hj Hc]]]. cbv zeta.
      assert (Rx : - W < 2 * x_px <= W)
        by (subst x_px; apply normalize_range; subst W; lia).
      assert (Ry : - H < 2 * y_px <= H)
        by (subst y_px; apply normalize_range; subst H; lia).
      clear Ex Ey.
      unfold paste. cbn [get].
      rewrite canvas_get by (rewrite <- HC; exact Hc).
      destruct (copy_span_cases x_px W) as [[Sx Cx'] | [Sx Cx']];
        rewrite Cx' in Cx; injection Cx as <- <- <-;
        destruct (copy_span_cases y_px H) as [[Sy Cy'] | [Sy Cy']];
        rewrite Cy' in Cy; injection Cy as <- <- <-;
        destruct (Z.leb_spec 0 (Z.of_nat i - y_px));
        destruct (Z.ltb_spec (Z.of_nat i - y_px) H);
        destruct (Z.leb_spec 0 (Z.of_nat j - x_px));
        destruct (Z.ltb_spec (Z.of_nat j - x_px) W);
        cbn [andb];
        repeat match goal with
               | |- context [ (?a <=? ?b) ] =>
                   destruct (Z.leb_spec a b); try lia
               | |- context [ (?a <? ?b) ] =>
                   destruct (Z.ltb_spec a b); try lia
               end;
        cbn [andb]; try reflexivity; try (f_equal; lia);
        subst W H; lia.
Qed.

(** X6. In the non-wrapping modes the output pixel at row i, column j is
    the input's pixel at row i - y_px, column j - x_px when that position
    lies inside the image, and the background (the fill colour, or black)
    otherwise. This holds for every resolved offset, in both directions on
    both axes. *)
Theorem fill_modes_shift_with_background
        (image : tensor f32) (units : string) (x_offset y_offset : Py.float)
        (auto_half_width auto_half_height : bool) (edge_mode : string)
        (fill_r fill_g fill_b : Py.float) (x_px y_px : Z) :
  dimC image = 3%nat ->
  resolve image units x_offset y_offset auto_half_width auto_half_height
    = Ok (x_px, y_px) ->
  edge_mode <> "wrap"%string ->
  exists out,
    offset image units x_offset y_offset auto_half_width auto_half_height
           edge_mode fill_r fill_g fill_b = Ok out /\
    forall b i j c, in_shape image b i j c ->
      let si := Z.of_nat i - y_px in
      let sj := Z.of_nat j - x_px in
      get out b i j c =
        if (0 <=? si) && (si <? Z.of_nat (dimH image))
           && (0 <=? sj) && (sj <? Z.of_nat (dimW image))
        then get image b (Z.to_nat si) (Z.to_nat sj) c
        else background edge_mode fill_r fill_g fill_b c.
Proof.
  apply offset_fill_get.
Qed.

Lemma fill_modes_shift_with_background_witness :
  exists out,
    offset (sample_image 3 4) "pixels" (py_float (-1)) (py_float 1)
           false false "transparent_black"
           (py_float 0) (py_float 0) (py_float 0) = Ok out /\
    get out 0 1 2 1 = get (sample_image 3 4) 0 0 3 1 /\
    get out 0 0 2 1 = f32_zero /\
    get out 0 1 3 1 = f32_zero.
Proof.
  destruct (fill_modes_shift_with_background
              (sample_image 3 4) "pixels" (py_float (-1)) (py_float 1)
              false false "transparent_black"
              (py_float 0) (py_float 0) (py_float 0) (-1) 1
              eq_refl ltac:(vm_compute; reflexivity) ltac:(discriminate))
    as [out [Ho Hg]].
  exists out. split; [exact Ho|].
  assert (I : forall i j, (i < 3)%nat -> (j < 4)%nat ->
                          in_shape (sample_image 3 4) 0 i j 1)
    by (intros; unfold in_shape; simpl; lia).
  split; [|split].
  - exact (Hg 0%nat 1%nat 2%nat 1%nat
               (I 1%nat 2%nat ltac:(lia) ltac:(lia))).
  - exact (Hg 0%nat 0%nat 2%nat 1%nat
               (I 0%nat 2%nat ltac:(lia) ltac:(lia))).
  - exact (Hg 0%nat 1%nat 3%nat 1%nat
               (I 1%nat 3%nat ltac:(lia) ltac:(lia))).
Defined.

(* ------------------------------------------------------------------ *)
(** *** Parameters the offset node ignores, and offsets it rejects *)

(** X7. The fill colour matters only for edge_mode = fill_color; and any
    edge_mode other than wrap and fill_color, known or not, is treated as
    transparent_black: the node never rejects an edge mode. *)
Theorem edge_mode_defaults_to_black
        (image : tensor f32) (units : string) (x_offset y_offset : Py.float)
        (auto_half_width auto_half_height : bool) (edge_mode : string)
        (fill_r fill_g fill_b fill_r' fill_g' fill_b' : Py.float) :
  edge_mode <> "fill_color"%string ->
  offset image units x_offset y_offset auto_half_width auto_half_height
         edge_mode fill_r fill_g fill_b
  = offset image units x_offset y_offset auto_half_width auto_half_height
           edge_mode fill_r' fill_g' fill_b' /\
  (edge_mode <> "wrap"%string ->
   offset image units x_offset y_offset auto_half_width auto_half_height
          edge_mode fill_r fill_g fill_b
   = offset image units x_offset y_offset auto_half_width auto_half_height
            "transparent_black" fill_r fill_g fill_b).
Proof.
  intro Hf. unfold offset, canvas.
  rewrite (string_eqb_false _ _ Hf).
  change ("transparent_black" =? "fill_color")%string with false.
  change ("transparent_black" =? "wrap")%string with false.
  split; [reflexivity|].
  intro Hw. rewrite (string_eqb_false _ _ Hw). reflexivity.
Qed.

Lemma edge_mode_defaults_to_black_witness :
  offset (sample_image 2 4) "pixels" (py_float 1) (py_float 0) false false
         "mirror" (py_float 1) (py_float 1) (py_float 1)
  = offset (sample_image 2 4) "pixels" (py_float 1) (py_float 0) false false
           "transparent_black" (py_float 1) (py_float 1) (py_float 1).
Proof.
  refine (proj2 (edge_mode_defaults_to_black
                   (sample_image 2 4) "pixels" (py_float 1) (py_float 0)
                   false false "mirror"
                   (py_float 1) (py_float 1) (py_float 1)
                   (py_float 1) (py_float 1) (py_float 1) _) _);
    discriminate.
Defined.

Lemma normalize_half (dim : Z) : 0 <= dim -> normalize (dim / 2) dim = dim / 2.
Proof.
  intro H. destruct (Z.eq_dec dim 0) as [-> | Hn].
  - reflexivity.
  - apply normalize_tie; [lia|].
    apply Z.mod_small. Z.div_mod_to_equations. lia.
Qed.

(** X8. An auto-half flag overrides the numeric field of its axis
    entirely: with both flags set the resolved offsets are
    (W // 2, H // 2) for every units value and every x_offset and
    y_offset, NaN and infinities included, and the node's result does not
    depend on them. *)
Theorem auto_half_overrides_offsets
        (image : tensor f32) (units units' : string)
        (x_offset y_offset x_offset' y_offset' : Py.float)
        (edge_mode : string) (fill_r fill_g fill_b : Py.float) :
  resolve image units x_offset y_offset true true
  = Ok (Z.of_nat (dimW image) / 2, Z.of_nat (dimH image) / 2) /\
  offset image units x_offset y_offset true true
         edge_mode fill_r fill_g fill_b
  = offset image units' x_offset' y_offset' true true
           edge_mode fill_r fill_g fill_b.
Proof.
  assert (R : forall u xo yo,
             resolve image u xo yo true true
             = Ok (Z.of_nat (dimW image) / 2, Z.of_nat (dimH image) / 2)).
  { intros u xo yo. unfold resolve, raw_px. cbn [Py.bind].
    rewrite !normalize_half by lia. reflexivity. }
  split; [apply R|].
  unfold offset. rewrite !R. reflexivity.
Qed.

Lemma round_ok_finite (x : Py.float) :
  (exists n, Py.round x = Ok n) <-> is_finite x = true.
Proof.
  split.
  - intros [n H]. destruct x; try discriminate H; reflexivity.
  - intro H. apply round_total.
    + unfold is_finite in H. apply andb_true_iff in H.
      destruct H as [H _]. apply negb_true_iff in H. exact H.
    + unfold is_finite in H. apply andb_true_iff in H.
      destruct H as [_ H]. apply negb_true_iff in H. exact H.
Qed.

Lemma raw_px_pixels (units : string) (v : Py.float) (dim : Z) :
  units <> "percent"%string -> raw_px false units v dim = Py.round v.
Proof.
  intro H. unfold raw_px. rewrite (string_eqb_false _ _ H). reflexivity.
Qed.

(** Once the offsets are resolved the node returns a batch. *)
Lemma offset_ok_of_resolve (image : tensor f32) units xo yo ahw ahh edge_mode
      fr fg fb (x_px y_px : Z) :
  dimC image = 3%nat ->
  resolve image units xo yo ahw ahh = Ok (x_px, y_px) ->
  exists out, offset image units xo yo ahw ahh edge_mode fr fg fb = Ok out.
Proof.
  intros HC R.
  rewrite (offset_resolved _ _ _ _ _ _ edge_mode fr fg fb _ _ HC R).
  destruct ((x_px =? 0) && (y_px =? 0)); [eauto|].
  destruct (edge_mode =? "wrap")%string; [eauto|].
  cbv zeta.
  destruct (copy_span x_px (Z.of_nat (dimW image))) as [[? ?] ?].
  destruct (copy_span y_px (Z.of_nat (dimH image))) as [[? ?] ?].
  destruct ((_ <=? 0) || (_ <=? 0)); eauto.
Qed.

(** X9. With pixel units and no auto-half flag, a three-channel input with
    W >= 1 and H >= 1 is offset successfully exactly when both offsets are
    finite numbers; a NaN or an infinite offset makes the call raise
    instead of returning a batch. *)
Theorem pixel_offsets_must_be_finite
        (image : tensor f32) (units : string) (x_offset y_offset : Py.float)
        (edge_mode : string) (fill_r fill_g fill_b : Py.float) :
  dimC image = 3%nat ->
  1 <= Z.of_nat (dimW image) -> 1 <= Z.of_nat (dimH image) ->
  units <> "percent"%string ->
  (exists out,
     offset image units x_offset y_offset false false
            edge_mode fill_r fill_g fill_b = Ok out)
  <-> is_finite x_offset = true /\ is_finite y_offset = true.
Proof.
  intros HC HW1 HH1 Hu. split.
  - intros [out H].
    destruct (offset_ok_resolve _ _ _ _ _ _ _ _ _ _ _ H) as [_ [x [y R]]].
    destruct (resolve_ok _ _ _ _ _ _ _ _ R) as [rx [ry [Hx [Hy _]]]].
    rewrite raw_px_pixels in Hx, Hy by exact Hu.
    split; apply round_ok_finite; eauto.
  - intros [Fx Fy].
    apply round_ok_finite in Fx. destruct Fx as [rx Hx].
    apply round_ok_finite in Fy. destruct Fy as [ry Hy].
    apply (offset_ok_of_resolve image units x_offset y_offset false false
                                edge_mode fill_r fill_g fill_b
                                (normalize rx (Z.of_nat (dimW image)))
                                (normalize ry (Z.of_nat (dimH image))) HC).
    apply resolve_raw; rewrite raw_px_pixels by exact Hu; assumption.
Qed.

Lemma pixel_offsets_must_be_finite_witness :
  ~ (exists out,
       offset (sample_image 2 4) "pixels" S754_nan (py_float 0) false false
              "wrap" (py_float 0) (py_float 0) (py_float 0) = Ok out) /\
  exists out,
    offset (sample_image 2 4) "pixels" (py_float 1) (py_float 0) false false
           "wrap" (py_float 0) (py_float 0) (py_float 0) = Ok out.
Proof.
  split.
  - intro H.
    apply (pixel_offsets_must_be_finite
             (sample_image 2 4) "pixels" S754_nan (py_float 0)
             "wrap" (py_float 0) (py_float 0) (py_float 0)
             eq_refl ltac:(simpl; lia) ltac:(simpl; lia)
             ltac:(discriminate)) in H.
    destruct H as [H _]. discriminate H.
  - apply (pixel_offsets_must_be_finite
             (sample_image 2 4) "pixels" (py_float 1) (py_float 0)
             "wrap" (py_float 0) (py_float 0) (py_float 0)
             eq_refl ltac:(simpl; lia) ltac:(simpl; lia)
             ltac:(discriminate)).
    split; reflexivity.
Defined.

(* ================================================================== *)
(** * Further properties of the stereo node *)

Lemma in_stereo_modes (mode : string) :
  In mode stereo_modes <->
  mode = "sbs_extract_half"%string \/
  mode = "sbs_copy_half_to_stereo"%string \/
  mode = "mono_to_stereo_copy"%string \/
  mode = "even_crop_only"%string.
Proof.
  unfold stereo_modes. cbn [In]. split.
  - intros [H | [H | [H | [H | []]]]]; subst; auto.
  - intros [H | [H | [H | H]]]; subst; auto.
Qed.

(** What the node does in each of its four modes, and in no other. *)
Lemma apply_outcome (linspace : nat -> nat -> f32) images mode sh layout
      ewh f :
  let W := dimW (_ensure_even_width images ewh) in
  (mode = "even_crop_only"%string /\
   exists out, apply linspace images mode sh layout ewh f = Ok out) \/
  (mode = "mono_to_stereo_copy"%string /\
   exists out, apply linspace images mode sh layout ewh f = Ok out) \/
  ((mode = "sbs_extract_half"%string \/
    mode = "sbs_copy_half_to_stereo"%string) /\
   (W mod 2 =? 0)%nat = true /\
   exists out, apply linspace images mode sh layout ewh f = Ok out) \/
  ((mode = "sbs_extract_half"%string \/
    mode = "sbs_copy_half_to_stereo"%string) /\
   (W mod 2 =? 0)%nat = false /\
   apply linspace images mode sh layout ewh f
     = Raise (ValueError odd_width_msg)) \/
  (~ In mode stereo_modes /\
   apply linspace images mode sh layout ewh f
     = Raise (ValueError ("Unknown mode: " ++ mode))).
Proof.
  intro W.
  destruct (String.eqb_spec mode "even_crop_only") as [-> | N1].
  { left. split; [reflexivity|]. rewrite apply_even_crop_only. eauto. }
  destruct (String.eqb_spec mode "mono_to_stereo_copy") as [-> | N2].
  { right; left. split; [reflexivity|].
    rewrite apply_mono_to_stereo_copy. cbv zeta. eauto. }
  destruct (String.eqb_spec mode "sbs_extract_half") as [-> | N3].
  { rewrite apply_sbs_extract_half. cbv zeta. fold W.
    destruct (W mod 2 =? 0)%nat; cbn [negb].
    - right; right; left. split; [auto|]. split; [reflexivity|]. eauto.
    - right; right; right; left. auto. }
  destruct (String.eqb_spec mode "sbs_copy_half_to_stereo") as [-> | N4].
  { rewrite apply_sbs_copy_half_to_stereo. cbv zeta. fold W.
    destruct (W mod 2 =? 0)%nat; cbn [negb].
    - right; right; left. split; [auto|]. split; [reflexivity|]. eauto.
    - right; right; right; left. auto. }
  do 4 right. split.
  - rewrite in_stereo_modes. intros [H | [H | [H | H]]]; contradiction.
  - unfold apply. rewrite !string_eqb_false by assumption. reflexivity.
Qed.

(** X10. The node raises the ValueError naming an unknown mode exactly when
    the mode is not one of the four choices its INPUT_TYPES lists. *)
Theorem unknown_mode_error_iff
        (linspace : nat -> nat -> f32) (images : tensor f32)
        (mode source_half output_layout even_width_handling : string)
        (seam_feather : Z) :
  apply linspace images mode source_half output_layout
        even_width_handling seam_feather
  = Raise (ValueError ("Unknown mode: " ++ mode))
  <-> ~ In mode stereo_modes.
Proof.
  destruct (apply_outcome linspace images mode source_half output_layout
                          even_width_handling seam_feather)
    as [[-> [out E]] | [[-> [out E]] | [[M [_ [out E]]] | [[M [_ E]] |
        [N E]]]]];
    rewrite E.
  - split; [discriminate|]. intro H. exfalso. apply H.
    apply in_stereo_modes. auto.
  - split; [discriminate|]. intro H. exfalso. apply H.
    apply in_stereo_modes. auto.
  - split; [discriminate|]. intro H. exfalso. apply H.
    apply in_stereo_modes. destruct M; auto.
  - split.
    + intro H. exfalso. destruct M as [-> | ->]; discriminate H.
    + intro H. exfalso. apply H.
      apply in_stereo_modes. destruct M; auto.
  - split; [intros _; exact N | reflexivity].
Qed.

(** X11. The node returns a batch exactly when the mode is one of the four
    listed ones and the odd-width conflict does not arise, that is, unless
    a splitting mode meets an odd input width under skip. *)
Theorem apply_succeeds_iff
        (linspace : nat -> nat -> f32) (images : tensor f32)
        (mode source_half output_layout even_width_handling : string)
        (seam_feather : Z) :
  (exists out,
     apply linspace images mode source_half output_layout
           even_width_handling seam_feather = Ok out)
  <-> In mode stereo_modes /\
      ~ ((mode = "sbs_extract_half"%string \/
          mode = "sbs_copy_half_to_stereo"%string) /\
         (dimW images mod 2 = 1)%nat /\
         even_width_handling = "skip"%string).
Proof.
  pose proof (ensure_even_width_odd_iff images even_width_handling) as Odd.
  destruct (apply_outcome linspace images mode source_half output_layout
                          even_width_handling seam_feather)
    as [[-> [out E]] | [[-> [out E]] | [[M [Ev [out E]]] | [[M [Ev E]] |
        [N E]]]]];
    rewrite E.
  - split; [|eauto]. intros _. split; [apply in_stereo_modes; auto|].
    intros [[H | H] _]; discriminate H.
  - split; [|eauto]. intros _. split; [apply in_stereo_modes; auto|].
    intros [[H | H] _]; discriminate H.
  - split; [|eauto]. intros _.
    split; [apply in_stereo_modes; destruct M; auto|].
    intros [_ H]. apply Odd in H. rewrite Ev in H. discriminate H.
  - split.
    + intros [out H]. discriminate H.
    + intros [_ H]. exfalso. apply H. split; [exact M|].
      apply Odd. exact Ev.
  - split.
    + intros [out H]. discriminate H.
    + intros [H _]. contradiction.
Qed.

(* ------------------------------------------------------------------ *)
(** *** Shapes and pixels of the results *)

Lemma ensure_even_width_dims (images : tensor f32) (ewh : string) :
  dimB (_ensure_even_width images ewh) = dimB images /\
  dimH (_ensure_even_width images ewh) = dimH images /\
  dimC (_ensure_even_width images ewh) = dimC images.
Proof.
  unfold _ensure_even_width.
  destruct (ewh =? "skip")%string; [auto|].
  destruct (negb (dimW images mod 2 =? 0)%nat); auto.
Qed.

(** The normalization only ever drops the last column. *)
Lemma ensure_even_width_get (images : tensor f32) (ewh : string) b i j c :
  get (_ensure_even_width images ewh) b i j c = get images b i j c.
Proof.
  unfold _ensure_even_width.
  destruct (ewh =? "skip")%string; [reflexivity|].
  destruct (negb (dimW images mod 2 =? 0)%nat); reflexivity.
Qed.

Lemma even_halves (n : nat) :
  (n mod 2 =? 0)%nat = true -> (n = 2 * (n / 2))%nat.
Proof.
  intro H. apply Nat.eqb_eq in H.
  pose proof (Nat.div_mod_eq n 2). lia.
Qed.

(** X12. A batch the node returns keeps the batch size, height and channel
    count of its input; its width is the normalized width W' in the modes
    even_crop_only and sbs_copy_half_to_stereo, W'/2 in sbs_extract_half
    and 2 W' in mono_to_stereo_copy, where W' is the input width, less one
    if it is odd and even_width_handling is not skip. *)
Theorem apply_output_shape
        (linspace : nat -> nat -> f32) (images : tensor f32)
        (mode source_half output_layout even_width_handling : string)
        (seam_feather : Z) (out : tensor f32) :
  apply linspace images mode source_half output_layout
        even_width_handling seam_feather = Ok out ->
  let W' := if (even_width_handling =? "skip")%string then dimW images
            else if negb (dimW images mod 2 =? 0)%nat
                 then (dimW images - 1)%nat else dimW images in
  dimB out = dimB images /\ dimH out = dimH images /\
  dimC out = dimC images /\
  dimW out = if (mode =? "sbs_extract_half")%string then (W' / 2)%nat
             else if (mode =? "mono_to_stereo_copy")%string
                  then (2 * W')%nat
                  else W'.
Proof.
  intros H W'.
  pose proof (ensure_even_width_dimW images even_width_handling) as EW.
  fold W' in EW.
  destruct (ensure_even_width_dims images even_width_handling)
    as [EB [EH EC]].
  destruct (apply_modes linspace images mode source_half output_layout
                        even_width_handling seam_feather)
    as [-> | [-> | [-> | [-> | U]]]].
  - rewrite apply_even_crop_only in H. injection H as <-.
    cbn [clamp tmap dimB dimH dimW dimC]. auto.
  - rewrite apply_sbs_extract_half in H. cbv zeta in H.
    rewrite EW in H.
    destruct (W' mod 2 =? 0)%nat eqn:Ev; cbn [negb] in H;
      [|discriminate H].
    pose proof (even_halves _ Ev) as Hh.
    remember (W' / 2)%nat as half eqn:Eh in *. clear Eh.
    injection H as <-.
    change ("sbs_extract_half" =? "sbs_extract_half")%string with true.
    cbv iota.
    destruct (source_half =? "left")%string;
      cbn [clamp tmap slice_w dimB dimH dimW dimC]; rewrite EW;
      repeat split; try assumption; lia.
  - rewrite apply_sbs_copy_half_to_stereo in H. cbv zeta in H.
    rewrite EW in H.
    destruct (W' mod 2 =? 0)%nat eqn:Ev; cbn [negb] in H;
      [|discriminate H].
    pose proof (even_halves _ Ev) as Hh.
    remember (W' / 2)%nat as half eqn:Eh in *. clear Eh.
    injection H as <-.
    change ("sbs_copy_half_to_stereo" =? "sbs_extract_half")%string
      with false.
    change ("sbs_copy_half_to_stereo" =? "mono_to_stereo_copy")%string
      with false.
    cbv iota.
    match goal with
    | |- context [ _seam_feather linspace ?o ?f ?h ] =>
        pose proof (seam_feather_shape linspace o f h) as S
    end.
    apply shape_dims in S. destruct S as [Sb [Sh [Sw Sc]]].
    cbn [clamp tmap dimB dimH dimW dimC].
    rewrite Sb, Sh, Sw, Sc. unfold clone.
    destruct (source_half =? "left")%string;
      cbn [cat_w slice_w dimB dimH dimW dimC]; rewrite EW;
      repeat split; try assumption; lia.
  - rewrite apply_mono_to_stereo_copy in H. cbv zeta in H.
    injection H as <-.
    match goal with
    | |- context [ _seam_feather linspace ?o ?f ?h ] =>
        pose proof (seam_feather_shape linspace o f h) as S
    end.
    apply shape_dims in S. destruct S as [Sb [Sh [Sw Sc]]].
    cbn [clamp tmap dimB dimH dimW dimC].
    rewrite Sb, Sh, Sw, Sc. unfold clone.
    cbn [cat_w dimB dimH dimW dimC]. rewrite EW.
    change ("mono_to_stereo_copy" =? "sbs_extract_half")%string with false.
    change ("mono_to_stereo_copy" =? "mono_to_stereo_copy")%string with true.
    cbv iota. repeat split; try assumption. lia.
  - rewrite U in H. discriminate H.
Qed.

Lemma apply_output_shape_witness :
  exists out,
    apply linspace_doc (sample_image 2 5) "mono_to_stereo_copy" "left"
          "cross_eyed" "auto_crop_if_odd" 3 = Ok out /\
    shape out = (1, 2, 8, 3)%nat.
Proof.
  eexists. split; [reflexivity|].
  destruct (apply_output_shape
              linspace_doc (sample_image 2 5) "mono_to_stereo_copy" "left"
              "cross_eyed" "auto_crop_if_odd" 3 _ eq_refl)
    as [Hb [Hh [Hc Hw]]].
  unfold shape. rewrite Hb, Hh, Hc, Hw. reflexivity.
Defined.

(** even_crop_only returns the input with every element clamped, without
    its last column when the width is odd and the handling is not skip. *)
Lemma even_crop_only_clamps_each_pixel
        (linspace : nat -> nat -> f32) (images : tensor f32)
        (source_half output_layout even_width_handling : string)
        (seam_feather : Z) :
  exists out,
    apply linspace images "even_crop_only" source_half output_layout
          even_width_handling seam_feather = Ok out /\
    dimW out = (if (even_width_handling =? "skip")%string then dimW images
                else if negb (dimW images mod 2 =? 0)%nat
                     then (dimW images - 1)%nat else dimW images) /\
    forall b i j c,
      get out b i j c = clamp_elt f32_zero f32_one (get images b i j c).
Proof.
  rewrite apply_even_crop_only. eexists. split; [reflexivity|].
  split.
  - cbn [clamp tmap dimW]. apply ensure_even_width_dimW.
  - intros b i j c. cbn [clamp tmap get].
    rewrite ensure_even_width_get. reflexivity.
Qed.

(** X13. sbs_extract_half returns a batch half as wide as the normalized
    input; with source_half = left its column j is the clamped column j of
    the input, otherwise the clamped column W'/2 + j. *)
Theorem sbs_extract_half_pixels
        (linspace : nat -> nat -> f32) (images : tensor f32)
        (source_half output_layout even_width_handling : string)
        (seam_feather : Z) (out : tensor f32) :
  apply linspace images "sbs_extract_half" source_half output_layout
        even_width_handling seam_feather = Ok out ->
  let half := (dimW (_ensure_even_width images even_width_handling) / 2)%nat in
  dimW out = half /\
  forall b i j c, (j < half)%nat ->
    get out b i j c =
    clamp_elt f32_zero f32_one
              (get images b i
                   (if (source_half =? "left")%string then j
                    else (half + j)%nat) c).
Proof.
  intros H half.
  rewrite apply_sbs_extract_half in H. cbv zeta in H. fold half in H.
  destruct (dimW (_ensure_even_width images even_width_handling) mod 2
            =? 0)%nat eqn:Ev; cbn [negb] in H; [|discriminate H].
  pose proof (even_halves _ Ev) as Hh. fold half in Hh.
  injection H as <-.
  destruct (source_half =? "left")%string;
    cbn [clamp tmap slice_w dimW get]; (split; [lia|]);
    intros b i j c Hj; rewrite ensure_even_width_get; f_equal; f_equal; lia.
Qed.

Lemma sbs_extract_half_pixels_witness :
  exists out,
    apply linspace_doc wide_range_image "sbs_extract_half" "right"
          "cross_eyed" "skip" 0 = Ok out /\
    dimW out = 2%nat /\
    get out 0 0 0 0 = f32_one /\
    get out 0 0 1 0 = f32_one.
Proof.
  eexists. split; [reflexivity|].
  destruct (sbs_extract_half_pixels
              linspace_doc wide_range_image "sbs_extract_half"
              "cross_eyed" "skip" 0 _ eq_refl) as [Hw Hg].
  split; [exact Hw|]. split.
  - exact (Hg 0%nat 0%nat 0%nat 0%nat ltac:(simpl; lia)).
  - exact (Hg 0%nat 0%nat 1%nat 0%nat ltac:(simpl; lia)).
Defined.

(* ------------------------------------------------------------------ *)
(** *** Clamping twice, and values already in range *)

Lemma SFleb_true_ltb_false (x y : spec_float) :
  SFleb x y = true -> SFltb y x = false.
Proof.
  unfold SFleb, SFltb. rewrite (SFcompare_antisym x y).
  destruct (SFcompare x y) as [[| |]|]; cbn [CompOpp];
    try reflexivity; discriminate.
Qed.

Lemma in_unit_not_nan (x : f32) : in_unit x = true -> is_nan x = false.
Proof. destruct x; try reflexivity. discriminate. Qed.

(** A value within [0, 1] is left as it is. *)
Lemma clamp_elt_unit_id (x : f32) :
  in_unit x = true -> clamp_elt f32_zero f32_one x = x.
Proof.
  intro H. pose proof (in_unit_not_nan x H) as Hn.
  unfold in_unit in H. apply andb_true_iff in H. destruct H as [H0 H1].
  unfold clamp_elt, fmax. rewrite Hn. cbn [is_nan f32_zero].
  rewrite (SFleb_true_ltb_false _ _ H0).
  unfold fmin. rewrite Hn. cbn [is_nan f32_one].
  rewrite (SFleb_true_ltb_false _ _ H1). reflexivity.
Qed.

Lemma clamp_elt_idempotent (x : f32) :
  clamp_elt f32_zero f32_one (clamp_elt f32_zero f32_one x)
  = clamp_elt f32_zero f32_one x.
Proof.
  destruct (is_nan x) eqn:E.
  - rewrite (clamp_elt_nan x E). apply (clamp_elt_nan x E).
  - apply clamp_elt_unit_id, clamp_elt_in_unit. assumption.
Qed.

(** X14. even_crop_only is idempotent, NaN included: applied to its own
    result, under the same handling, it returns an equal batch. *)
Theorem even_crop_only_idempotent
        (linspace : nat -> nat -> f32) (images : tensor f32)
        (source_half output_layout even_width_handling : string)
        (seam_feather : Z) :
  exists once twice,
    apply linspace images "even_crop_only" source_half output_layout
          even_width_handling seam_feather = Ok once /\
    apply linspace once "even_crop_only" source_half output_layout
          even_width_handling seam_feather = Ok twice /\
    shape twice = shape once /\
    forall b i j c, get twice b i j c = get once b i j c.
Proof.
  rewrite apply_even_crop_only.
  eexists. eexists. split; [reflexivity|].
  rewrite apply_even_crop_only. split; [reflexivity|].
  split.
  - unfold shape. cbn [clamp tmap dimB dimH dimW dimC].
    destruct (ensure_even_width_dims
                (clamp (_ensure_even_width images even_width_handling)
                       f32_zero f32_one) even_width_handling)
      as [-> [-> ->]].
    rewrite (ensure_even_width_dimW
               (clamp (_ensure_even_width images even_width_handling)
                      f32_zero f32_one)).
    cbn [clamp tmap dimB dimH dimW dimC].
    rewrite (ensure_even_width_dimW images).
    destruct (even_width_handling =? "skip")%string; [reflexivity|].
    destruct (dimW images mod 2 =? 0)%nat eqn:E; cbn [negb].
    + rewrite E. reflexivity.
    + apply Nat.eqb_neq in E. rewrite (odd_pred_even _ E). reflexivity.
  - intros b i j c. cbn [clamp tmap get].
    rewrite !ensure_even_width_get. cbn [clamp tmap get].
    rewrite ensure_even_width_get. apply clamp_elt_idempotent.
Qed.

(** X15. A batch whose values all lie within [0, 1] passes through
    even_crop_only unchanged, up to the dropped last column: every pixel of
    the result is the input's pixel at the same position. *)
Theorem even_crop_only_keeps_in_range_values
        (linspace : nat -> nat -> f32) (images : tensor f32)
        (source_half output_layout even_width_handling : string)
        (seam_feather : Z) :
  all_in_unit images ->
  exists out,
    apply linspace images "even_crop_only" source_half output_layout
          even_width_handling seam_feather = Ok out /\
    forall b i j c, in_shape out b i j c ->
                    get out b i j c = get images b i j c.
Proof.
  intro Hu. rewrite apply_even_crop_only. eexists. split; [reflexivity|].
  intros b i j c [Hb [Hi [Hj Hc]]].
  cbn [clamp tmap dimB dimH dimW dimC] in Hb, Hi, Hj, Hc.
  cbn [clamp tmap get].
  rewrite ensure_even_width_get. apply clamp_elt_unit_id.
  destruct (ensure_even_width_dims images even_width_handling)
    as [Eb [Eh Ec]].
  rewrite Eb in Hb. rewrite Eh in Hi. rewrite Ec in Hc.
  rewrite ensure_even_width_dimW in Hj.
  apply Hu. repeat split; try assumption.
  destruct (even_width_handling =? "skip")%string; [exact Hj|].
  destruct (negb (dimW images mod 2 =? 0)%nat); lia.
Qed.

Lemma sample_image_in_unit : all_in_unit (sample_image 2 3).
Proof.
  intros b i j c [Hb [Hi [Hj Hc]]]. cbn in Hb, Hi, Hj, Hc.
  destruct b as [|b]; [|lia].
  destruct i as [|[|i]]; [| |lia];
    (destruct j as [|[|[|j]]]; [| | |lia]);
    (destruct c as [|[|[|c]]]; [| | |lia]); reflexivity.
Qed.

Lemma even_crop_only_keeps_in_range_values_witness :
  exists out,
    apply linspace_doc (sample_image 2 3) "even_crop_only" "left"
          "cross_eyed" "auto_crop_if_odd" 0 = Ok out /\
    dimW out = 2%nat /\
    get out 0 1 1 2 = get (sample_image 2 3) 0 1 1 2.
Proof.
  destruct (even_crop_only_keeps_in_range_values
              linspace_doc (sample_image 2 3) "left" "cross_eyed"
              "auto_crop_if_odd" 0 sample_image_in_unit) as [out [Ho Hg]].
  exists out.
  assert (Hw : dimW out = 2%nat).
  { rewrite apply_even_crop_only in Ho. injection Ho as <-. reflexivity. }
  split; [exact Ho|]. split; [exact Hw|].
  apply Hg.
  rewrite apply_even_crop_only in Ho. injection Ho as <-.
  unfold in_shape. cbn. lia.
Defined.

(* ------------------------------------------------------------------ *)
(** *** Duplicating one eye, and getting it back *)

(** X16. With seam_feather = 0, sbs_copy_half_to_stereo returns a batch as
    wide as the normalized input whose left half and right half are both
    the clamped source half: column j of either half is the clamped input
    column j for source_half = left, and the clamped input column
    W'/2 + j otherwise. *)
Theorem sbs_copy_half_duplicates_source
        (linspace : nat -> nat -> f32) (images : tensor f32)
        (source_half output_layout even_width_handling : string)
        (out : tensor f32) :
  apply linspace images "sbs_copy_half_to_stereo" source_half output_layout
        even_width_handling 0 = Ok out ->
  let half := (dimW (_ensure_even_width images even_width_handling) / 2)%nat in
  dimW out = (2 * half)%nat /\
  forall b i j c, (j < half)%nat ->
    let source :=
      clamp_elt f32_zero f32_one
                (get images b i
                     (if (source_half =? "left")%string then j
                      else (half + j)%nat) c) in
    get out b i j c = source /\ get out b i (half + j)%nat c = source.
Proof.
  intros H half.
  rewrite apply_sbs_copy_half_to_stereo in H. cbv zeta in H.
  fold half in H.
  destruct (dimW (_ensure_even_width images even_width_handling) mod 2
            =? 0)%nat eqn:Ev; cbn [negb] in H; [|discriminate H].
  pose proof (even_halves _ Ev) as Hh. fold half in Hh.
  rewrite seam_feather_noop in H by lia.
  injection H as <-. unfold clone.
  destruct (source_half =? "left")%string;
    cbn [clamp tmap cat_w slice_w dimW get];
    (split; [lia|]); intros b i j c Hj; cbv zeta;
    replace (Nat.min half
               (dimW (_ensure_even_width images even_width_handling))
             - Nat.min 0
                 (dimW (_ensure_even_width images even_width_handling)))%nat
      with half by lia;
    replace (Nat.min
               (dimW (_ensure_even_width images even_width_handling))
               (dimW (_ensure_even_width images even_width_handling))
             - Nat.min half
                 (dimW (_ensure_even_width images even_width_handling)))%nat
      with half by lia;
    destruct (Nat.ltb_spec j half); try lia;
    destruct (Nat.ltb_spec (half + j) half); try lia;
    rewrite !ensure_even_width_get;
    split; f_equal; f_equal; lia.
Qed.

Lemma sbs_copy_half_duplicates_source_witness :
  exists out,
    apply linspace_doc wide_range_image "sbs_copy_half_to_stereo" "left"
          "parallel" "skip" 0 = Ok out /\
    dimW out = 4%nat /\
    get out 0 0 0 1 = f32_zero /\ get out 0 0 2 1 = f32_zero.
Proof.
  eexists. split; [reflexivity|].
  destruct (sbs_copy_half_duplicates_source
              linspace_doc wide_range_image "left" "parallel" "skip"
              _ eq_refl) as [Hw Hg].
  split; [exact Hw|].
  exact (Hg 0%nat 0%nat 0%nat 1%nat ltac:(simpl; lia)).
Defined.

(** Extracting either half of a clamped duplicated frame gives the clamped
    frame. *)
Lemma extract_of_duplicate (linspace : nat -> nat -> f32) (src : tensor f32)
      (sh layout ewh : string) (f : Z) :
  exists out,
    apply linspace (clamp (cat_w src (clone src)) f32_zero f32_one)
          "sbs_extract_half" sh layout ewh f = Ok out /\
    tensor_eq out (clamp src f32_zero f32_one).
Proof.
  unfold clone.
  set (stereo := clamp (cat_w src src) f32_zero f32_one).
  assert (Hw : dimW stereo = (dimW src * 2)%nat)
    by (subst stereo; cbn [clamp tmap cat_w dimW]; lia).
  assert (Hm : (dimW stereo mod 2 = 0)%nat)
    by (rewrite Hw; apply Nat.Div0.mod_mul).
  assert (Hd : (dimW stereo / 2 = dimW src)%nat)
    by (rewrite Hw; apply Nat.div_mul; lia).
  rewrite apply_sbs_extract_half. cbv zeta.
  rewrite (ensure_even_width_even stereo ewh Hm).
  rewrite Hm, Hd. cbn [Nat.eqb negb].
  eexists. split; [reflexivity|].
  destruct (sh =? "left")%string.
  - split.
    + unfold shape. subst stereo.
      cbn [clamp tmap slice_w cat_w dimB dimH dimW dimC].
      f_equal. f_equal. lia.
    + intros b i j c [_ [_ [Hj _]]]. subst stereo.
      cbn [clamp tmap slice_w cat_w dimW] in Hj.
      cbn [clamp tmap slice_w cat_w dimW get].
      rewrite clamp_elt_idempotent. f_equal.
      replace (Nat.min 0 (dimW src + dimW src) + j)%nat with j by lia.
      destruct (Nat.ltb_spec j (dimW src)); [reflexivity | lia].
  - split.
    + unfold shape. subst stereo.
      cbn [clamp tmap slice_w cat_w dimB dimH dimW dimC].
      f_equal. f_equal. lia.
    + intros b i j c [_ [_ [Hj _]]]. subst stereo.
      cbn [clamp tmap slice_w cat_w dimW] in Hj.
      cbn [clamp tmap slice_w cat_w dimW get].
      rewrite clamp_elt_idempotent. f_equal.
      replace (Nat.min (dimW src) (dimW src + dimW src) + j)%nat
        with (dimW src + j)%nat by lia.
      destruct (Nat.ltb_spec (dimW src + j) (dimW src)); [lia|].
      f_equal. lia.
Qed.

(** X17. Round trip: a mono frame duplicated by mono_to_stereo_copy with
    seam_feather = 0 and then split by sbs_extract_half gives back the
    clamped, width-normalized mono frame, whichever half is extracted and
    whatever the other parameters of the second call are. *)
Theorem mono_to_stereo_then_extract
        (linspace : nat -> nat -> f32) (mono : tensor f32)
        (source_half output_layout even_width_handling : string)
        (source_half' output_layout' even_width_handling' : string)
        (seam_feather' : Z) :
  exists stereo out,
    apply linspace mono "mono_to_stereo_copy" source_half output_layout
          even_width_handling 0 = Ok stereo /\
    apply linspace stereo "sbs_extract_half" source_half' output_layout'
          even_width_handling' seam_feather' = Ok out /\
    tensor_eq out (clamp (_ensure_even_width mono even_width_handling)
                         f32_zero f32_one).
Proof.
  rewrite apply_mono_to_stereo_copy. cbv zeta.
  rewrite seam_feather_noop by lia.
  destruct (extract_of_duplicate
              linspace (_ensure_even_width mono even_width_handling)
              source_half' output_layout' even_width_handling'
              seam_feather') as [out [Ho He]].
  eexists. exists out. split; [reflexivity|]. split; assumption.
Qed.

(** X18. After sbs_copy_half_to_stereo with seam_feather = 0 both halves of
    the result are the chosen source half: extracting either half of the
    result gives a batch equal to the one sbs_extract_half gives on the
    original input for that source half. *)
Theorem copy_half_then_extract
        (linspace : nat -> nat -> f32) (images : tensor f32)
        (source_half output_layout even_width_handling : string)
        (source_half' output_layout' even_width_handling' : string)
        (seam_feather' seam_feather'' : Z) (stereo : tensor f32) :
  apply linspace images "sbs_copy_half_to_stereo" source_half output_layout
        even_width_handling 0 = Ok stereo ->
  exists either original,
    apply linspace stereo "sbs_extract_half" source_half' output_layout'
          even_width_handling' seam_feather' = Ok either /\
    apply linspace images "sbs_extract_half" source_half output_layout
          even_width_handling seam_feather'' = Ok original /\
    tensor_eq either original.
Proof.
  intro H.
  rewrite apply_sbs_copy_half_to_stereo in H. cbv zeta in H.
  destruct (dimW (_ensure_even_width images even_width_handling) mod 2
            =? 0)%nat eqn:Ev; cbn [negb] in H; [|discriminate H].
  rewrite seam_feather_noop in H by lia. injection H as <-.
  set (images' := _ensure_even_width images even_width_handling) in *.
  set (half := (dimW images' / 2)%nat).
  set (src := if (source_half =? "left")%string
              then slice_w 0 half images'
              else slice_w half (dimW images') images').
  destruct (extract_of_duplicate linspace src source_half' output_layout'
                                 even_width_handling' seam_feather')
    as [either [He Heq]].
  exists either, (clamp src f32_zero f32_one).
  split; [exact He|]. split; [|exact Heq].
  rewrite (apply_sbs_extract_half linspace images). cbv zeta.
  fold images'. rewrite Ev. reflexivity.
Qed.

Lemma copy_half_then_extract_witness :
  exists stereo either original,
    apply linspace_doc (sample_image 2 4) "sbs_copy_half_to_stereo" "right"
          "parallel" "skip" 0 = Ok stereo /\
    apply linspace_doc stereo "sbs_extract_half" "left" "cross_eyed"
          "auto_crop_if_odd" 9 = Ok either /\
    apply linspace_doc (sample_image 2 4) "sbs_extract_half" "right"
          "parallel" "skip" 0 = Ok original /\
    tensor_eq either original.
Proof.
  pose (src := slice_w 2 4 (sample_image 2 4)).
  pose (stereo := clamp (cat_w src (clone src)) f32_zero f32_one).
  assert (E : apply linspace_doc (sample_image 2 4)
                    "sbs_copy_half_to_stereo" "right" "parallel" "skip" 0
              = Ok stereo) by reflexivity.
  destruct (copy_half_then_extract
              linspace_doc (sample_image 2 4) "right" "parallel" "skip"
              "left" "cross_eyed" "auto_crop_if_odd" 9 0 stereo E)
    as [either [original [He [Ho Heq]]]].
  exists stereo, either, original.
  exact (conj E (conj He (conj Ho Heq))).
Defined.

(* ------------------------------------------------------------------ *)
(** *** The feather width, the normalization, and unused parameters *)

(** X19. The feather width saturates at the width of one eye: any two
    positive seam_feather values that are both at least half_width give
    the same result. *)
Theorem seam_feather_saturates
        (linspace : nat -> nat -> f32) (out : tensor f32)
        (seam_feather seam_feather' : Z) (half_width : nat) :
  0 < seam_feather -> 0 < seam_feather' ->
  Z.of_nat half_width <= seam_feather ->
  Z.of_nat half_width <= seam_feather' ->
  _seam_feather linspace out seam_feather half_width
  = _seam_feather linspace out seam_feather' half_width.
Proof.
  intros P P' C C'. unfold _seam_feather.
  replace (seam_feather <=? 0) with false by (symmetry; apply Z.leb_gt; lia).
  replace (seam_feather' <=? 0) with false
    by (symmetry; apply Z.leb_gt; lia).
  replace (Nat.min (Z.to_nat seam_feather) half_width) with half_width
    by lia.
  replace (Nat.min (Z.to_nat seam_feather') half_width) with half_width
    by lia.
  reflexivity.
Qed.

Lemma seam_feather_saturates_witness :
  _seam_feather linspace_doc
                (cat_w (sample_image 2 2) (clone (sample_image 2 2))) 2 2
  = _seam_feather linspace_doc
                  (cat_w (sample_image 2 2) (clone (sample_image 2 2))) 256 2.
Proof.
  apply (seam_feather_saturates
           linspace_doc
           (cat_w (sample_image 2 2) (clone (sample_image 2 2))) 2 256 2);
    simpl; lia.
Defined.

(** X20. The even-width normalization drops at most one column, leaves an
    even width unless the handling is skip, and is idempotent. *)
Theorem ensure_even_width_normal_form
        (images : tensor f32) (even_width_handling : string) :
  let normalized := _ensure_even_width images even_width_handling in
  (dimW normalized <= dimW images <= dimW normalized + 1)%nat /\
  (even_width_handling = "skip"%string \/
   (dimW normalized mod 2 = 0)%nat) /\
  _ensure_even_width normalized even_width_handling = normalized.
Proof.
  intro normalized. subst normalized.
  unfold _ensure_even_width.
  destruct (String.eqb_spec even_width_handling "skip") as [E | E].
  - split; [lia|]. split; [left; exact E | reflexivity].
  - destruct (dimW images mod 2 =? 0)%nat eqn:Ev; cbn [negb].
    + split; [lia|]. rewrite Ev. cbn [negb].
      split; [right; apply Nat.eqb_eq; exact Ev | reflexivity].
    + apply Nat.eqb_neq in Ev.
      pose proof (odd_pred_even _ Ev) as Hp.
      assert (Hpos : (1 <= dimW images)%nat).
      { destruct (dimW images); [exfalso; apply Ev; reflexivity | lia]. }
      cbn [slice_w dimW].
      replace (Nat.min (dimW images - 1) (dimW images)
               - Nat.min 0 (dimW images))%nat
        with (dimW images - 1)%nat by lia.
      rewrite Hp. cbn [Nat.eqb negb].
      split; [lia|]. split; [right; reflexivity | reflexivity].
Qed.

(** X21. Parameters without effect: even_crop_only ignores source_half,
    output_layout and seam_feather; sbs_extract_half ignores output_layout
    and seam_feather; mono_to_stereo_copy ignores source_half and
    output_layout. *)
Theorem unused_parameters
        (linspace : nat -> nat -> f32) (images : tensor f32)
        (source_half output_layout even_width_handling : string)
        (seam_feather : Z)
        (source_half' output_layout' : string) (seam_feather' : Z) :
  apply linspace images "even_crop_only" source_half output_layout
        even_width_handling seam_feather
  = apply linspace images "even_crop_only" source_half' output_layout'
          even_width_handling seam_feather' /\
  apply linspace images "sbs_extract_half" source_half output_layout
        even_width_handling seam_feather
  = apply linspace images "sbs_extract_half" source_half output_layout'
          even_width_handling seam_feather' /\
  apply linspace images "mono_to_stereo_copy" source_half output_layout
        even_width_handling seam_feather
  = apply linspace images "mono_to_stereo_copy" source_half' output_layout'
          even_width_handling seam_feather.
Proof.
  split; [reflexivity|]. split; [reflexivity|].
  rewrite !apply_mono_to_stereo_copy. reflexivity.
Qed.

(* ------------------------------------------------------------------ *)
(** *** Only the selected half is read *)

Lemma ensure_even_width_le (images : tensor f32) (ewh : string) :
  (dimW (_ensure_even_width images ewh) <= dimW images)%nat.
Proof.
  rewrite ensure_even_width_dimW.
  destruct (ewh =? "skip")%string; [lia|].
  destruct (negb (dimW images mod 2 =? 0)%nat); lia.
Qed.

Lemma same_columns_ensure_even_width (lo hi : nat) (s t : tensor f32)
      (ewh : string) :
  same_columns lo hi s t ->
  same_columns lo hi (_ensure_even_width s ewh) (_ensure_even_width t ewh).
Proof.
  intros [Hs Hg].
  destruct (shape_dims _ _ Hs) as [Db [Dh [Dw Dc]]].
  split.
  - unfold shape.
    destruct (ensure_even_width_dims s ewh) as [-> [-> ->]].
    destruct (ensure_even_width_dims t ewh) as [-> [-> ->]].
    rewrite !ensure_even_width_dimW, Db, Dh, Dw, Dc. reflexivity.
  - intros b i j c [Hb [Hi [Hj Hc]]] Hr.
    rewrite !ensure_even_width_get. apply Hg; [|exact Hr].
    destruct (ensure_even_width_dims s ewh) as [Eb [Eh Ec]].
    pose proof (ensure_even_width_le s ewh) as Hn.
    unfold in_shape. rewrite <- Eb, <- Eh, <- Ec.
    repeat split; try assumption. lia.
Qed.

Lemma same_columns_slice_w {A : Type} (lo hi : nat) (s t : tensor A) :
  same_columns lo hi s t ->
  tensor_eq (slice_w lo hi s) (slice_w lo hi t).
Proof.
  intros [Hs Hg].
  destruct (shape_dims _ _ Hs) as [Db [Dh [Dw Dc]]].
  split.
  - unfold shape. cbn [slice_w dimB dimH dimW dimC].
    rewrite Db, Dh, Dw, Dc. reflexivity.
  - intros b i j c [Hb [Hi [Hj Hc]]].
    cbn [slice_w dimB dimH dimW dimC] in Hb, Hi, Hj, Hc.
    cbn [slice_w get]. rewrite <- Dw.
    apply Hg; [|lia].
    repeat split; try assumption. lia.
Qed.

Lemma tensor_eq_cat_self {A : Type} (s t : tensor A) :
  tensor_eq s t -> tensor_eq (cat_w s (clone s)) (cat_w t (clone t)).
Proof.
  unfold clone. intros [Hs Hg].
  destruct (shape_dims _ _ Hs) as [Db [Dh [Dw Dc]]].
  split.
  - unfold shape. cbn [cat_w dimB dimH dimW dimC].
    rewrite Db, Dh, Dw, Dc. reflexivity.
  - intros b i j c [Hb [Hi [Hj Hc]]].
    cbn [cat_w dimB dimH dimW dimC] in Hb, Hi, Hj, Hc.
    cbn [cat_w get]. rewrite <- Dw.
    destruct (Nat.ltb_spec j (dimW s)); apply Hg;
      repeat split; try assumption; lia.
Qed.

(** Every pixel of a feathered SBS frame, from the frame before the call. *)
Lemma seam_feather_get (linspace : nat -> nat -> f32) (out : tensor f32)
      (f : Z) (half : nat) b i j c :
  0 < f -> dimW out = (2 * half)%nat ->
  let n := Nat.min (Z.to_nat f) half in
  let blended k :=
    f32_add (f32_mul (get out b i (half - n + k)%nat c)
                     (f32_sub f32_one (linspace n k)))
            (f32_mul (get out b i (half + k)%nat c) (linspace n k)) in
  get (_seam_feather linspace out f half) b i j c =
    if (half <=? j)%nat && (j <? half + n)%nat
    then blended (j - half)%nat
    else if (half - n <=? j)%nat && (j <? half)%nat
         then blended (j - (half - n))%nat
         else get out b i j c.
Proof.
  intros Hf HW n blended. unfold _seam_feather.
  replace (f <=? 0) with false by (symmetry; apply Z.leb_gt; assumption).
  fold n. cbv zeta.
  cbn [assign_w tmap2 tmap_w slice_w get dimW dimB dimH dimC].
  rewrite HW.
  replace (Nat.min (half - n) (2 * half)) with (half - n)%nat
    by (subst n; lia).
  replace (Nat.min half (2 * half)) with half by lia.
  reflexivity.
Qed.

Lemma tensor_eq_seam_feather (linspace : nat -> nat -> f32)
      (s t : tensor f32) (f : Z) (half : nat) :
  dimW s = (2 * half)%nat ->
  tensor_eq s t ->
  tensor_eq (_seam_feather linspace s f half)
            (_seam_feather linspace t f half).
Proof.
  intros HW [Hs Hg].
  destruct (shape_dims _ _ Hs) as [Db [Dh [Dw Dc]]].
  split; [rewrite !seam_feather_shape; exact Hs|].
  intros b i j c Hin.
  assert (Hin' : in_shape s b i j c).
  { pose proof (seam_feather_shape linspace s f half) as S.
    apply shape_dims in S. destruct S as [Sb [Sh [Sw Sc]]].
    unfold in_shape in *. rewrite <- Sb, <- Sh, <- Sw, <- Sc. exact Hin. }
  destruct (Z_le_gt_dec f 0) as [Hf | Hf].
  - rewrite !seam_feather_noop by assumption. apply Hg. exact Hin'.
  - rewrite !seam_feather_get by (lia || congruence). cbv zeta.
    destruct Hin' as [Hb [Hi [Hj Hc]]].
    set (n := Nat.min (Z.to_nat f) half).
    assert (Hn : (n <= half)%nat) by (subst n; lia).
    assert (G : forall k, (k < 2 * half)%nat ->
                          get s b i k c = get t b i k c).
    { intros k Hk. apply Hg. repeat split; try assumption. lia. }
    destruct (Nat.leb_spec half j); destruct (Nat.ltb_spec j (half + n));
      cbn [andb].
    + rewrite !G by lia. reflexivity.
    + destruct (Nat.leb_spec (half - n) j); destruct (Nat.ltb_spec j half);
        cbn [andb]; try lia; apply G; lia.
    + destruct (Nat.leb_spec (half - n) j); destruct (Nat.ltb_spec j half);
        cbn [andb]; try lia.
      * rewrite !G by lia. reflexivity.
      * apply G. lia.
    + lia.
Qed.

(** X22. In the two splitting modes only the selected half of the input is
    read: two inputs of one shape that agree on the columns of the
    selected half give equal results (or the same error), whatever the
    other half holds, with or without feathering. *)
Theorem unselected_half_is_ignored
        (linspace : nat -> nat -> f32) (images images' : tensor f32)
        (mode source_half output_layout even_width_handling : string)
        (seam_feather : Z) :
  mode = "sbs_extract_half"%string \/
  mode = "sbs_copy_half_to_stereo"%string ->
  let W' := dimW (_ensure_even_width images even_width_handling) in
  let half := (W' / 2)%nat in
  same_columns (if (source_half =? "left")%string then 0%nat else half)
               (if (source_half =? "left")%string then half else W')
               images images' ->
  match apply linspace images mode source_half output_layout
              even_width_handling seam_feather,
        apply linspace images' mode source_half output_layout
              even_width_handling seam_feather with
  | Ok out, Ok out' => tensor_eq out out'
  | Raise e, Raise e' => e = e'
  | _, _ => False
  end.
Proof.
  intros Hmode W' half Hsame.
  apply (same_columns_ensure_even_width _ _ _ _ even_width_handling)
    in Hsame.
  pose proof Hsame as [Hshape _].
  destruct (shape_dims _ _ Hshape) as [_ [_ [Dw _]]].
  fold W' in Dw.
  set (im := _ensure_even_width images even_width_handling) in *.
  set (im' := _ensure_even_width images' even_width_handling) in *.
  assert (Hsrc : tensor_eq
                   (if (source_half =? "left")%string
                    then slice_w 0 half im else slice_w half W' im)
                   (if (source_half =? "left")%string
                    then slice_w 0 half im' else slice_w half W' im')).
  { destruct (source_half =? "left")%string;
      apply same_columns_slice_w; exact Hsame. }
  destruct Hmode as [-> | ->].
  - rewrite !apply_sbs_extract_half. cbv zeta.
    fold im im'. rewrite <- Dw. fold W' half.
    destruct (W' mod 2 =? 0)%nat; cbn [negb]; [|reflexivity].
    destruct (source_half =? "left")%string;
      apply clamp_tensor_eq; exact Hsrc.
  - rewrite !apply_sbs_copy_half_to_stereo. cbv zeta.
    fold im im'. rewrite <- Dw. fold W' half.
    destruct (W' mod 2 =? 0)%nat eqn:Ev; cbn [negb]; [|reflexivity].
    apply clamp_tensor_eq, tensor_eq_seam_feather.
    + apply (duplicated_half_width im source_half).
      apply Nat.eqb_eq. exact Ev.
    + apply tensor_eq_cat_self.
      destruct (source_half =? "left")%string; exact Hsrc.
Qed.

Lemma unselected_half_is_ignored_witness :
  let images := sample_image 2 4 in
  let images' := assign_w 2 4 (sample_image 2 4) (zeros 1 2 2 3) in
  get images 0 0 3 0 <> get images' 0 0 3 0 /\
  exists out out',
    apply linspace_doc images "sbs_copy_half_to_stereo" "left"
          "cross_eyed" "skip" 1 = Ok out /\
    apply linspace_doc images' "sbs_copy_half_to_stereo" "left"
          "cross_eyed" "skip" 1 = Ok out' /\
    tensor_eq out out'.
Proof.
  intros images images'.
  split; [vm_compute; discriminate|].
  assert (S : same_columns 0 2 images images').
  { split; [reflexivity|].
    intros b i j c _ [_ Hj]. subst images'. cbn [assign_w get].
    destruct (Nat.leb_spec 2 j); [lia | reflexivity]. }
  pose proof (unselected_half_is_ignored
                linspace_doc images images' "sbs_copy_half_to_stereo"
                "left" "cross_eyed" "skip" 1 (or_intror eq_refl) S) as T.
  pose (o := fun im : tensor f32 =>
               clamp (_seam_feather linspace_doc
                        (cat_w (slice_w 0 2 im) (clone (slice_w 0 2 im)))
                        1 2) f32_zero f32_one).
  assert (E : apply linspace_doc images "sbs_copy_half_to_stereo" "left"
                    "cross_eyed" "skip" 1 = Ok (o images)) by reflexivity.
  assert (E' : apply linspace_doc images' "sbs_copy_half_to_stereo" "left"
                     "cross_eyed" "skip" 1 = Ok (o images')) by reflexivity.
  rewrite E, E' in T.
  exists (o images), (o images').
  exact (conj E (conj E' T)).
Defined.

(* ------------------------------------------------------------------ *)
(** *** The offset node keeps the value range *)

(** X23. The offset node does not clamp, and does not need to: when every
    element of the input lies within [0, 1], and so does the background of
    the chosen edge mode (always true for black; for fill_color, the fill
    colour as stored in the image's dtype), every element of the result
    lies within [0, 1]. *)
Theorem offset_keeps_unit_range
        (image : tensor f32) (units : string) (x_offset y_offset : Py.float)
        (auto_half_width auto_half_height : bool) (edge_mode : string)
        (fill_r fill_g fill_b : Py.float) (out : tensor f32) :
  all_in_unit image ->
  (forall c, (c < 3)%nat ->
             in_unit (background edge_mode fill_r fill_g fill_b c) = true) ->
  offset image units x_offset y_offset auto_half_width auto_half_height
         edge_mode fill_r fill_g fill_b = Ok out ->
  all_in_unit out.
Proof.
  intros Hu Hbg H b i j c Hin.
  pose proof (offset_shape _ _ _ _ _ _ _ _ _ _ _ H) as S.
  destruct (shape_dims _ _ S) as [Db [Dh [Dw Dc]]].
  assert (Hin' : in_shape image b i j c)
    by (unfold in_shape in *; rewrite <- Db, <- Dh, <- Dw, <- Dc; exact Hin).
  destruct (offset_ok_resolve _ _ _ _ _ _ _ _ _ _ _ H) as [HC [x [y R]]].
  destruct Hin' as [Hb [Hi [Hj Hc]]].
  destruct (String.eqb_spec edge_mode "wrap") as [-> | Hm].
  - destruct (resolve_ok _ _ _ _ _ _ _ _ R) as [rx [ry [Hx [Hy _]]]].
    destruct (offset_wrap_get image units x_offset y_offset auto_half_width
                              auto_half_height fill_r fill_g fill_b rx ry
                              HC ltac:(lia) ltac:(lia) Hx Hy)
      as [out' [Ho [_ Hg]]].
    rewrite H in Ho. injection Ho as <-.
    rewrite Hg by (repeat split; assumption).
    apply Hu.
    pose proof (Z.mod_pos_bound (Z.of_nat i - ry) (Z.of_nat (dimH image))
                                ltac:(lia)).
    pose proof (Z.mod_pos_bound (Z.of_nat j - rx) (Z.of_nat (dimW image))
                                ltac:(lia)).
    repeat split; try assumption; lia.
  - destruct (offset_fill_get image units x_offset y_offset auto_half_width
                              auto_half_height edge_mode fill_r fill_g
                              fill_b x y HC R Hm) as [out' [Ho Hg]].
    rewrite H in Ho. injection Ho as <-.
    rewrite Hg by (repeat split; assumption). cbv zeta.
    destruct ((0 <=? Z.of_nat i - y)
              && (Z.of_nat i - y <? Z.of_nat (dimH image))
              && (0 <=? Z.of_nat j - x)
              && (Z.of_nat j - x <? Z.of_nat (dimW image))) eqn:E.
    + apply andb_true_iff in E. destruct E as [E E4].
      apply andb_true_iff in E. destruct E as [E E3].
      apply andb_true_iff in E. destruct E as [E1 E2].
      apply Z.leb_le in E1. apply Z.ltb_lt in E2.
      apply Z.leb_le in E3. apply Z.ltb_lt in E4.
      apply Hu. repeat split; try assumption; lia.
    + apply Hbg. rewrite <- HC. exact Hc.
Qed.

Lemma offset_keeps_unit_range_witness :
  exists out,
    offset (sample_image 2 3) "pixels" (py_float 1) (py_float (-1))
           false false "fill_color" (py_float 1) (py_float 0) (py_float 1)
      = Ok out /\
    all_in_unit out.
Proof.
  eexists. split; [vm_compute; reflexivity|].
  refine (offset_keeps_unit_range
            (sample_image 2 3) "pixels" (py_float 1) (py_float (-1))
            false false "fill_color" (py_float 1) (py_float 0) (py_float 1)
            _ sample_image_in_unit _ _).
  - intros c Hc. destruct c as [|[|[|c]]]; try reflexivity. lia.
  - vm_compute. reflexivity.
Defined.

(* ================================================================== *)
(** ** Rounding to binary32, from the definitions *)

Lemma digits2_pos_size (p : positive) : digits2_pos p = Pos.size p.
Proof. induction p; simpl; congruence. Qed.

Lemma digits2_log2 (p : positive) :
  Zpos (digits2_pos p) = Z.log2 (Zpos p) + 1.
Proof.
  rewrite digits2_pos_size. destruct p; simpl; try reflexivity;
    rewrite Pos.add_1_r; reflexivity.
Qed.

Lemma Zdigits2_log2 (m : Z) : 0 < m -> Zdigits2 m = Z.log2 m + 1.
Proof. destruct m; try lia. intros _. apply digits2_log2. Qed.

Lemma Zdigits2_nonneg (m : Z) : 0 <= m -> 0 <= Zdigits2 m.
Proof. destruct m; simpl; lia. Qed.

(** [m < 2^k] bounds the number of digits by [k]. *)
Lemma Zdigits2_le (m k : Z) : 0 <= m -> 0 <= k -> m < 2 ^ k -> Zdigits2 m <= k.
Proof.
  intros Hm Hk H. destruct (Z.eq_dec m 0) as [-> | Hn]; [simpl; lia|].
  rewrite Zdigits2_log2 by lia.
  apply Z.log2_lt_pow2 in H; lia.
Qed.

Lemma Zdigits2_mono (m m' : Z) : 0 < m -> m <= m' -> Zdigits2 m <= Zdigits2 m'.
Proof.
  intros Hm H. rewrite !Zdigits2_log2 by lia.
  pose proof (Z.log2_le_mono m m' H). lia.
Qed.

Lemma Zdigits2_mul_pow2 (m k : Z) :
  0 < m -> 0 <= k -> Zdigits2 (m * 2 ^ k) = Zdigits2 m + k.
Proof.
  intros Hm Hk.
  assert (0 < 2 ^ k) by (apply Z.pow_pos_nonneg; lia).
  rewrite !Zdigits2_log2 by nia.
  rewrite Z.log2_mul_pow2 by lia. lia.
Qed.

Lemma Zdigits2_gt (m : Z) : 0 <= m -> m < 2 ^ Zdigits2 m.
Proof.
  intro Hm. destruct (Z.eq_dec m 0) as [-> | Hn]; [simpl; lia|].
  rewrite Zdigits2_log2 by lia.
  apply Z.log2_spec. lia.
Qed.

(* ------------------------------------------------------------------ *)
(** *** Right shifts *)

Lemma shr_1_m (r : shr_record) :
  0 <= shr_m r -> shr_m (shr_1 r) = shr_m r / 2 /\ 0 <= shr_m (shr_1 r).
Proof.
  destruct r as [m rb sb]. cbn [shr_m]. intro Hm.
  destruct m as [|p|p]; [cbn; split; [reflexivity | lia] | | lia].
  destruct p as [p|p|]; cbn [shr_1 shr_m].
  - split; [|lia]. rewrite Pos2Z.inj_xI. Z.div_mod_to_equations. lia.
  - split; [|lia]. rewrite Pos2Z.inj_xO. Z.div_mod_to_equations. lia.
  - split; [reflexivity | lia].
Qed.

Lemma shr_1_exact (r : shr_record) :
  0 <= shr_m r -> exact_record r -> (2 | shr_m r) -> exact_record (shr_1 r).
Proof.
  destruct r as [m rb sb]. cbn [shr_m]. intros Hm [Hr Hs] [q Hq].
  cbn in Hr, Hs. subst rb sb.
  destruct m as [|p|p]; [split; reflexivity | | lia].
  destruct p as [p|p|]; cbn.
  - exfalso. rewrite Pos2Z.inj_xI in Hq. lia.
  - split; reflexivity.
  - exfalso. lia.
Qed.

Lemma pow2_xO (p : positive) : 2 ^ Zpos p~0 = 2 ^ Zpos p * 2 ^ Zpos p.
Proof.
  change (Zpos p~0) with (2 * Zpos p). apply Z.pow_twice_r.
Qed.

Lemma pow2_xI (p : positive) : 2 ^ Zpos p~1 = 2 * (2 ^ Zpos p * 2 ^ Zpos p).
Proof.
  change (Zpos p~1) with (2 * Zpos p + 1).
  rewrite (Z.pow_add_r 2 (2 * Zpos p) 1) by lia.
  rewrite Z.pow_twice_r. change (2 ^ 1) with 2. lia.
Qed.

Lemma iter_shr_1_m (p : positive) (r : shr_record) :
  0 <= shr_m r ->
  shr_m (iter_pos shr_1 p r) = shr_m r / 2 ^ Zpos p /\
  0 <= shr_m (iter_pos shr_1 p r).
Proof.
  revert r. induction p as [p IH | p IH |]; intros r Hm; cbn [iter_pos].
  - destruct (shr_1_m r Hm) as [E1 P1].
    destruct (IH _ P1) as [E2 P2]. destruct (IH _ P2) as [E3 P3].
    split; [|exact P3]. rewrite E3, E2, E1.
    rewrite !Z.div_div by (try apply Z.pow_pos_nonneg; lia).
    f_equal. rewrite pow2_xI. lia.
  - destruct (IH _ Hm) as [E2 P2]. destruct (IH _ P2) as [E3 P3].
    split; [|exact P3]. rewrite E3, E2.
    rewrite !Z.div_div by (try apply Z.pow_pos_nonneg; lia).
    f_equal. rewrite pow2_xO. lia.
  - apply shr_1_m. exact Hm.
Qed.

Lemma divide_pow2_split (a b m : Z) :
  0 <= a -> 0 <= b -> (2 ^ (a + b) | m) ->
  (2 ^ a | m) /\ (2 ^ b | m / 2 ^ a).
Proof.
  intros Ha Hb [q Hq]. rewrite Z.pow_add_r in Hq by lia.
  assert (0 < 2 ^ a) by (apply Z.pow_pos_nonneg; lia).
  split.
  - exists (q * 2 ^ b). lia.
  - exists q. subst m.
    replace (q * (2 ^ a * 2 ^ b)) with (q * 2 ^ b * 2 ^ a) by lia.
    rewrite Z.div_mul by lia. reflexivity.
Qed.

Lemma iter_shr_1_exact (p : positive) (r : shr_record) :
  0 <= shr_m r -> exact_record r -> (2 ^ Zpos p | shr_m r) ->
  exact_record (iter_pos shr_1 p r).
Proof.
  revert r. induction p as [p IH | p IH |]; intros r Hm Hx Hd;
    cbn [iter_pos].
  - replace (Zpos p~1) with (1 + (Zpos p + Zpos p)) in Hd by lia.
    apply divide_pow2_split in Hd; try lia. destruct Hd as [D1 D2].
    change (2 ^ 1) with 2 in D1, D2.
    apply divide_pow2_split in D2; try lia. destruct D2 as [D2 D3].
    destruct (shr_1_m r Hm) as [E1 P1].
    pose proof (shr_1_exact r Hm Hx D1) as X1.
    rewrite <- E1 in D2, D3.
    destruct (iter_shr_1_m p _ P1) as [E2 P2].
    pose proof (IH _ P1 X1 D2) as X2.
    rewrite <- E2 in D3.
    apply IH; assumption.
  - replace (Zpos p~0) with (Zpos p + Zpos p) in Hd by lia.
    apply divide_pow2_split in Hd; try lia. destruct Hd as [D2 D3].
    destruct (iter_shr_1_m p _ Hm) as [E2 P2].
    pose proof (IH _ Hm Hx D2) as X2.
    rewrite <- E2 in D3.
    apply IH; assumption.
  - apply shr_1_exact; assumption.
Qed.

(** [shr] by [n] digits: the mantissa is divided by [2^n], and no digit is
    lost when [2^n] divides it. *)
Lemma shr_spec (r : shr_record) (e n : Z) :
  0 <= shr_m r ->
  let n' := Z.max 0 n in
  snd (shr r e n) = e + n' /\
  shr_m (fst (shr r e n)) = shr_m r / 2 ^ n' /\
  0 <= shr_m (fst (shr r e n)) /\
  (exact_record r -> (2 ^ n' | shr_m r) -> exact_record (fst (shr r e n))).
Proof.
  intros Hm n'. subst n'. unfold shr.
  destruct n as [|p|p]; cbn [fst snd].
  - rewrite Z.max_l by lia. change (2 ^ 0) with 1. rewrite Z.div_1_r.
    split; [lia|]. split; [reflexivity|]. split; [lia|].
    intros Hx _. exact Hx.
  - rewrite Z.max_r by lia.
    destruct (iter_shr_1_m p r Hm) as [E P].
    split; [reflexivity|]. split; [exact E|]. split; [exact P|].
    intros Hx Hd. apply iter_shr_1_exact; assumption.
  - rewrite Z.max_l by lia. change (2 ^ 0) with 1. rewrite Z.div_1_r.
    split; [lia|]. split; [reflexivity|]. split; [lia|].
    intros Hx _. exact Hx.
Qed.

Lemma round_nearest_even_bounds (r : shr_record) :
  let m1 := round_nearest_even (shr_m r) (loc_of_shr_record r) in
  shr_m r <= m1 <= shr_m r + 1 /\ (exact_record r -> m1 = shr_m r).
Proof.
  destruct r as [m rb sb]. cbn [shr_m].
  destruct rb, sb; cbn; try (split; [lia|]; intros [? ?]; try discriminate;
    reflexivity).
  split; [destruct (Z.even m); lia|]. intros [? ?]; discriminate.
Qed.

(* ------------------------------------------------------------------ *)
(** *** Rounding a positive mantissa *)

Lemma fexp32_eq (k : Z) : fexp prec32 emax32 k = fexp32 k.
Proof. reflexivity. Qed.

(** What [binary_round_aux] computes from an exact positive mantissa. *)
Lemma binary_round_aux_steps (s : bool) (m e : Z) :
  0 < m ->
  let n := Z.max 0 (fexp32 (Zdigits2 m + e) - e) in
  let f := e + n in
  exists m1,
    m / 2 ^ n <= m1 <= m / 2 ^ n + 1 /\
    ((2 ^ n | m) -> m1 = m / 2 ^ n) /\
    let n2 := Z.max 0 (fexp32 (Zdigits2 m1 + f) - f) in
    let m2 := m1 / 2 ^ n2 in
    let e2 := f + n2 in
    0 <= m2 /\
    binary_round_aux prec32 emax32 s m e loc_Exact =
      match m2 with
      | Z0 => S754_zero s
      | Zpos p => if e2 <=? 104 then S754_finite s p e2 else S754_infinity s
      | Zneg _ => S754_nan
      end.
Proof.
  intros Hm n f.
  unfold binary_round_aux, shr_fexp. rewrite !fexp32_eq.
  cbn [shr_record_of_loc].
  set (r0 := {| shr_m := m; shr_r := false; shr_s := false |}).
  assert (H0 : 0 <= shr_m r0) by (cbn; lia).
  assert (X0 : exact_record r0) by (split; reflexivity).
  destruct (shr_spec r0 e (fexp32 (Zdigits2 m + e) - e) H0)
    as [Se [Sm [Sp Sx]]].
  fold n in Se, Sm, Sx. cbn [shr_m r0] in Sm, Sx.
  destruct (shr r0 e (fexp32 (Zdigits2 m + e) - e)) as [r1 e1].
  cbn [fst snd] in Se, Sm, Sp, Sx. subst e1. fold f.
  destruct (round_nearest_even_bounds r1) as [Rb Rx].
  set (m1 := round_nearest_even (shr_m r1) (loc_of_shr_record r1)) in *.
  exists m1. rewrite <- Sm.
  split; [exact Rb|].
  split; [intro Hd; apply Rx, Sx; assumption|].
  cbv zeta.
  set (r2 := {| shr_m := m1; shr_r := false; shr_s := false |}).
  assert (H2 : 0 <= shr_m r2) by (cbn; lia).
  destruct (shr_spec r2 f (fexp32 (Zdigits2 m1 + f) - f) H2)
    as [Te [Tm [Tp _]]].
  cbn [shr_m r2] in Tm.
  change (fexp prec32 emax32 (Zdigits2 m1 + f))
    with (fexp32 (Zdigits2 m1 + f)).
  change (shr_record_of_loc m1 loc_Exact) with r2.
  change (emax32 - prec32) with 104.
  destruct (shr r2 f (fexp32 (Zdigits2 m1 + f) - f)) as [r3 e3].
  cbn [fst snd] in Te, Tm, Tp. subst e3. rewrite <- Tm.
  split; [exact Tp|]. reflexivity.
Qed.

Lemma binary_round_aux_not_nan (s : bool) (m : positive) (e : Z) :
  is_nan (binary_round_aux prec32 emax32 s (Zpos m) e loc_Exact) = false.
Proof.
  destruct (binary_round_aux_steps s (Zpos m) e ltac:(lia))
    as [m1 [_ [_ [P ->]]]].
  destruct (_ / _) as [|p|p]; [reflexivity | | lia].
  destruct (_ <=? 104); reflexivity.
Qed.

(** Rounding does not pass a representable bound [c * 2^g]: a mantissa
    that needs no left shift and is at most [c * 2^(g - e)] rounds to
    zero or to a finite number that is still at most [c * 2^g]. *)
Lemma binary_round_aux_le (s : bool) (m : positive) (e c g : Z) :
  0 < c < 2 ^ 24 -> -149 <= g <= 104 ->
  e <= fexp32 (Zdigits2 (Zpos m) + e) ->
  e <= g ->
  Zpos m <= c * 2 ^ (g - e) ->
  binary_round_aux prec32 emax32 s (Zpos m) e loc_Exact = S754_zero s \/
  exists p e2,
    binary_round_aux prec32 emax32 s (Zpos m) e loc_Exact
      = S754_finite s p e2 /\
    e2 <= g /\ Zpos p <= c * 2 ^ (g - e2).
Proof.
  intros Hc Hg Hn Heg Hb.
  pose proof (binary_round_aux_steps s (Zpos m) e ltac:(lia)) as S.
  cbv zeta in S.
  set (f := fexp32 (Zdigits2 (Zpos m) + e)) in *.
  replace (Z.max 0 (f - e)) with (f - e) in S by lia.
  replace (e + (f - e)) with f in S by lia.
  destruct S as [m1 [B1 [X1 [P2 E]]]].
  rewrite E. clear E.
  set (n := f - e) in *.
  assert (Hn0 : 0 <= n) by (subst n; lia).
  assert (P2n : 0 < 2 ^ n) by (apply Z.pow_pos_nonneg; lia).
  (* the first exponent does not exceed g *)
  assert (Hd : Zdigits2 (Zpos m) <= 24 + g - e).
  { apply Zdigits2_le; try lia.
    replace (24 + g - e) with (24 + (g - e)) by lia.
    rewrite Z.pow_add_r by lia.
    assert (0 < 2 ^ (g - e)) by (apply Z.pow_pos_nonneg; lia). nia. }
  assert (Hf : f <= g) by (subst f; unfold fexp32; lia).
  set (C := c * 2 ^ (g - f)).
  assert (P2gf : 0 < 2 ^ (g - f)) by (apply Z.pow_pos_nonneg; lia).
  assert (HC : c * 2 ^ (g - e) = C * 2 ^ n).
  { subst C n. replace (g - e) with ((g - f) + (f - e)) by lia.
    rewrite Z.pow_add_r by lia. lia. }
  assert (Hm1 : 0 <= m1 <= C).
  { assert (Hq : Zpos m / 2 ^ n <= C)
      by (apply Z.div_le_upper_bound; lia).
    assert (Hq0 : 0 <= Zpos m / 2 ^ n) by (apply Z.div_pos; lia).
    destruct (Z.eq_dec (Zpos m / 2 ^ n) C) as [Eq | Ne]; [|lia].
    assert (Hmul : 2 ^ n * (Zpos m / 2 ^ n) <= Zpos m)
      by (apply Z.mul_div_le; lia).
    rewrite X1; [lia|].
    exists C. rewrite Eq in Hmul. lia. }
  (* the second shift *)
  assert (Hd1 : Zdigits2 m1 <= 24 + g - f).
  { apply Zdigits2_le; try lia.
    replace (24 + g - f) with (24 + (g - f)) by lia.
    rewrite Z.pow_add_r by lia. subst C. nia. }
  set (f2 := fexp32 (Zdigits2 m1 + f)) in *.
  assert (Hf2 : f2 <= g) by (subst f2; unfold fexp32; lia).
  set (n2 := Z.max 0 (f2 - f)) in *.
  assert (Hn2 : 0 <= n2) by (subst n2; lia).
  assert (He2 : f + n2 <= g) by (subst n2; lia).
  assert (P2n2 : 0 < 2 ^ n2) by (apply Z.pow_pos_nonneg; lia).
  assert (Hm2 : m1 / 2 ^ n2 <= c * 2 ^ (g - (f + n2))).
  { apply Z.div_le_upper_bound; [lia|].
    replace (2 ^ n2 * (c * 2 ^ (g - (f + n2)))) with C; [lia|].
    subst C. replace (g - f) with (n2 + (g - (f + n2))) by lia.
    rewrite Z.pow_add_r by lia. lia. }
  destruct (m1 / 2 ^ n2) as [|p|p]; [left; reflexivity | | lia].
  right. exists p, (f + n2).
  replace (f + n2 <=? 104) with true by (symmetry; apply Z.leb_le; lia).
  auto.
Qed.

(* ------------------------------------------------------------------ *)
(** *** Weights in [0, 1] and products with them *)

Lemma valid_finite_bounds (s : bool) (m : positive) (e : Z) :
  valid_binary prec32 emax32 (S754_finite s m e) = true ->
  fexp32 (Zdigits2 (Zpos m) + e) = e /\ e <= 104 /\ Zpos m < 2 ^ 24.
Proof.
  cbn [valid_binary]. unfold bounded, canonical_mantissa.
  rewrite fexp32_eq. change (emax32 - prec32) with 104.
  intro H. apply andb_true_iff in H. destruct H as [Hc He].
  apply Z.eqb_eq in Hc. apply Z.leb_le in He.
  change (Zpos (digits2_pos m)) with (Zdigits2 (Zpos m)) in Hc.
  split; [exact Hc|]. split; [exact He|].
  assert (Hd : Zdigits2 (Zpos m) <= 24) by (unfold fexp32 in Hc; lia).
  pose proof (Zdigits2_gt (Zpos m) ltac:(lia)) as Hg.
  assert (2 ^ Zdigits2 (Zpos m) <= 2 ^ 24)
    by (apply Z.pow_le_mono_r; lia).
  lia.
Qed.

(** A value in [0, 1] is a weight. *)
Lemma in_unit_weight (r : f32) :
  valid_binary prec32 emax32 r = true -> in_unit r = true ->
  exists z, (r = S754_zero z) \/
            exists m e, r = S754_finite false m e /\ e <= -23 /\
                        Zpos m <= 2 ^ (- e).
Proof.
  intros Hv Hu. destruct r as [z | [|] | | s m e]; try discriminate Hu.
  - exists z. left. reflexivity.
  - exists false. right.
    destruct s; [discriminate Hu|].
    exists m, e. split; [reflexivity|].
    destruct (valid_finite_bounds _ _ _ Hv) as [_ [_ Hm]].
    unfold in_unit in Hu. apply andb_true_iff in Hu. destruct Hu as [_ Hu].
    unfold SFleb, f32_one in Hu. cbn [SFcompare] in Hu.
    destruct (Z.compare_spec e (-23)) as [-> | Hlt | Hgt].
    + split; [lia|]. change (2 ^ (- -23)) with 8388608.
      change (Pos.compare_cont Eq m 8388608) with (m ?= 8388608)%positive
        in Hu.
      destruct (Pos.compare_spec m 8388608) as [-> | Hlt | Hgt];
        try discriminate Hu; lia.
    + split; [lia|].
      assert (2 ^ 24 <= 2 ^ (- e)) by (apply Z.pow_le_mono_r; lia). lia.
    + discriminate Hu.
Qed.

Lemma in_unit_unit_weight (r : f32) :
  valid_binary prec32 emax32 r = true -> in_unit r = true -> unit_weight r.
Proof.
  intros Hv Hu.
  destruct (in_unit_weight r Hv Hu) as [z [-> | [m [e [-> [He Hm]]]]]].
  - exact I.
  - split; [lia | exact Hm].
Qed.

(** A finite binary32 value times a weight does not overflow. *)
Lemma mul_weight_finite (x y : f32) :
  finite_f32 x -> unit_weight y -> is_finite (f32_mul x y) = true.
Proof.
  intros [Hv Hf] Hw.
  destruct x as [zx | ? | | sx mx ex]; try discriminate Hf;
    destruct y as [zy | ? | | sy my ey]; try contradiction;
    try reflexivity.
  destruct Hw as [Hey Hmy].
  destruct (valid_finite_bounds _ _ _ Hv) as [Hc [Hex Hmx]].
  unfold f32_mul, SFmul.
  assert (P2e : 0 < 2 ^ (- ey)) by (apply Z.pow_pos_nonneg; lia).
  destruct (binary_round_aux_le (xorb sx sy) (mx * my) (ex + ey)
                                (2 ^ 24 - 1) 104) as [E | [p [e2 [E _]]]].
  - lia.
  - lia.
  - assert (Hd : Zdigits2 (Zpos mx) <= Zdigits2 (Zpos (mx * my)))
      by (apply Zdigits2_mono; nia).
    unfold fexp32 in *. lia.
  - lia.
  - replace (104 - (ex + ey)) with ((104 - ex) + (- ey)) by lia.
    rewrite Z.pow_add_r by lia.
    assert (0 < 2 ^ (104 - ex)) by (apply Z.pow_pos_nonneg; lia).
    rewrite Pos2Z.inj_mul. nia.
  - rewrite E. reflexivity.
  - rewrite E. reflexivity.
Qed.

Lemma pos_iter_xO (m d : positive) :
  Zpos (Pos.iter xO m d) = Zpos m * 2 ^ Zpos d.
Proof.
  induction d as [|d IH] using Pos.peano_ind.
  - cbn. lia.
  - rewrite Pos.iter_succ, Pos2Z.inj_succ, Z.pow_succ_r by lia.
    change (Zpos (Pos.iter xO m d)~0) with (2 * Zpos (Pos.iter xO m d)).
    rewrite IH. lia.
Qed.

Lemma shl_align_spec (m : positive) (e e' : Z) :
  (e' < e /\ snd (shl_align m e e') = e' /\
   Zpos (fst (shl_align m e e')) = Zpos m * 2 ^ (e - e')) \/
  (e <= e' /\ shl_align m e e' = (m, e)).
Proof.
  unfold shl_align.
  destruct (e' - e) as [|d|d] eqn:E.
  - right. split; [lia | reflexivity].
  - right. split; [lia | reflexivity].
  - left. cbn [fst snd]. split; [lia|]. split; [reflexivity|].
    rewrite pos_iter_xO. f_equal. f_equal. lia.
Qed.

(** [1.0 - r] is a weight again when [r] lies in [0, 1]. *)
Lemma sub_one_weight (r : f32) :
  valid_binary prec32 emax32 r = true -> in_unit r = true ->
  unit_weight (f32_sub f32_one r).
Proof.
  intros Hv Hu.
  destruct (in_unit_weight r Hv Hu) as [z [-> | [m [e [-> [He Hm]]]]]].
  - cbn. split; [lia|]. change (2 ^ (- -23)) with 8388608. lia.
  - unfold f32_sub, f32_one, SFsub. cbn [cond_Zopp].
    rewrite Z.min_r by lia.
    assert (A : Zpos (fst (shl_align 8388608 (-23) e)) = 2 ^ (- e)).
    { destruct (shl_align_spec 8388608 (-23) e) as [[L [_ E]] | [L E]].
      - rewrite E. change 8388608 with (2 ^ 23).
        rewrite <- Z.pow_add_r by lia. f_equal. lia.
      - rewrite E. cbn [fst]. replace e with (-23) by lia. reflexivity. }
    assert (B : fst (shl_align m e e) = m).
    { destruct (shl_align_spec m e e) as [[L _] | [_ E]]; [lia|].
      rewrite E. reflexivity. }
    rewrite A, B.
    unfold binary_normalize.
    destruct (2 ^ (- e) - Zpos m) as [|d|d] eqn:D; [exact I | | lia].
    unfold binary_round. rewrite fexp32_eq.
    change (Zpos (digits2_pos d)) with (Zdigits2 (Zpos d)).
    set (F := fexp32 (Zdigits2 (Zpos d) + e)).
    assert (Hd : Zpos d <= 2 ^ (- e)) by lia.
    destruct (shl_align_spec d e F) as [[L [E2 E1]] | [L E]].
    + destruct (shl_align d e F) as [mz ez]. cbn [fst snd] in E1, E2.
      subst ez.
      assert (PF : 0 < 2 ^ (e - F)) by (apply Z.pow_pos_nonneg; lia).
      destruct (binary_round_aux_le false mz F (2 ^ 23) (-23))
        as [E | [p [e2 [E [He2 Hp]]]]].
      * lia.
      * lia.
      * rewrite E1, Zdigits2_mul_pow2 by lia.
        replace (Zdigits2 (Zpos d) + (e - F) + F)
          with (Zdigits2 (Zpos d) + e) by lia.
        fold F. lia.
      * lia.
      * rewrite E1, <- Z.pow_add_r by lia.
        replace (23 + (-23 - F)) with ((- e) + (e - F)) by lia.
        rewrite Z.pow_add_r by lia. nia.
      * rewrite E. exact I.
      * rewrite E. split; [lia|].
        rewrite <- Z.pow_add_r in Hp by lia.
        replace (23 + (-23 - e2)) with (- e2) in Hp by lia. exact Hp.
    + rewrite E.
      destruct (binary_round_aux_le false d e (2 ^ 23) (-23))
        as [E' | [p [e2 [E' [He2 Hp]]]]].
      * lia.
      * lia.
      * fold F. exact L.
      * lia.
      * rewrite <- Z.pow_add_r by lia.
        replace (23 + (-23 - e)) with (- e) by lia. exact Hd.
      * rewrite E'. exact I.
      * rewrite E'. split; [lia|].
        rewrite <- Z.pow_add_r in Hp by lia.
        replace (23 + (-23 - e2)) with (- e2) in Hp by lia. exact Hp.
Qed.

Lemma binary_normalize_not_nan (z e : Z) (s : bool) :
  is_nan (binary_normalize prec32 emax32 z e s) = false.
Proof.
  unfold binary_normalize, binary_round.
  destruct z as [|p|p]; [reflexivity | |].
  - destruct (shl_align p e _) as [mz ez].
    apply binary_round_aux_not_nan.
  - destruct (shl_align p e _) as [mz ez].
    apply binary_round_aux_not_nan.
Qed.

(** The sum of two finite values may overflow, but it is never a NaN. *)
Lemma add_finite_not_nan (x y : f32) :
  is_finite x = true -> is_finite y = true -> is_nan (f32_add x y) = false.
Proof.
  intros Hx Hy.
  destruct x as [[|] | ? | | sx mx ex]; try discriminate Hx;
    destruct y as [[|] | ? | | sy my ey]; try discriminate Hy;
    try reflexivity.
  unfold f32_add, SFadd. apply binary_normalize_not_nan.
Qed.

(** The blend of two finite pixels with a weight in [0, 1] is not a NaN. *)
Lemma blend_not_nan (l r w : f32) :
  finite_f32 l -> finite_f32 r ->
  valid_binary prec32 emax32 w = true -> in_unit w = true ->
  is_nan (f32_add (f32_mul l (f32_sub f32_one w)) (f32_mul r w)) = false.
Proof.
  intros Hl Hr Hv Hu.
  apply add_finite_not_nan.
  - apply mul_weight_finite; [exact Hl|]. apply sub_one_weight; assumption.
  - apply mul_weight_finite; [exact Hr|].
    apply in_unit_unit_weight; assumption.
Qed.

(* ================================================================== *)
(** ** The range of the stereo node's output, feathering included *)

(** A feathered and clamped SBS frame made of finite pixels lies within
    [0, 1]. *)
Lemma feathered_clamped_in_unit
      (linspace : nat -> nat -> f32) (pre images : tensor f32)
      (f : Z) (half : nat) :
  drawn_from pre images -> dimW pre = (2 * half)%nat ->
  finite_batch images -> ramp_in_unit linspace f ->
  all_in_unit (clamp (_seam_feather linspace pre f half) f32_zero f32_one).
Proof.
  intros Hd HW Hfin Hramp b i j c Hin.
  assert (Hin' : in_shape pre b i j c).
  { pose proof (seam_feather_shape linspace pre f half) as S.
    apply shape_dims in S. destruct S as [Sb [Sh [Sw Sc]]].
    unfold in_shape in *. cbn [clamp tmap dimB dimH dimW dimC] in Hin.
    rewrite <- Sb, <- Sh, <- Sw, <- Sc. exact Hin. }
  assert (Hpix : forall k, (k < 2 * half)%nat ->
                           finite_f32 (get pre b i k c)).
  { intros k Hk. destruct Hin' as [Hb [Hi [_ Hc]]].
    destruct (Hd b i k c) as [k' [Hk' ->]].
    - repeat split; try assumption. lia.
    - apply Hfin. exact Hk'. }
  cbn [clamp tmap get]. apply clamp_elt_in_unit.
  destruct (Z_le_gt_dec f 0) as [Hf | Hf].
  - rewrite seam_feather_noop by assumption.
    destruct Hin' as [_ [_ [Hj _]]].
    destruct (Hpix j ltac:(lia)) as [_ F].
    destruct (get pre b i j c); try reflexivity; discriminate F.
  - rewrite seam_feather_get by lia. cbv zeta.
    set (n := Nat.min (Z.to_nat f) half).
    assert (Hn : (n <= half)%nat) by (subst n; lia).
    assert (Hnf : Z.of_nat n <= f) by (subst n; lia).
    assert (Hblend : forall k, (k < n)%nat ->
      is_nan (f32_add (f32_mul (get pre b i (half - n + k)%nat c)
                               (f32_sub f32_one (linspace n k)))
                      (f32_mul (get pre b i (half + k)%nat c)
                               (linspace n k))) = false).
    { intros k Hk. destruct (Hramp n k Hk Hnf) as [Rv Ru].
      apply blend_not_nan; try assumption; apply Hpix; lia. }
    destruct Hin' as [_ [_ [Hj _]]].
    destruct (Nat.leb_spec half j); destruct (Nat.ltb_spec j (half + n));
      cbn [andb].
    + apply Hblend. lia.
    + destruct (Nat.leb_spec (half - n) j); destruct (Nat.ltb_spec j half);
        cbn [andb]; try lia.
      destruct (Hpix j ltac:(lia)) as [_ F].
      destruct (get pre b i j c); try reflexivity; discriminate F.
    + destruct (Nat.leb_spec (half - n) j); destruct (Nat.ltb_spec j half);
        cbn [andb]; try lia.
      * apply Hblend. lia.
      * destruct (Hpix j ltac:(lia)) as [_ F].
        destruct (get pre b i j c); try reflexivity; discriminate F.
    + lia.
Qed.

Lemma finite_batch_nan_free (t : tensor f32) : finite_batch t -> nan_free t.
Proof.
  intros H b i j c Hin. destruct (H b i j c Hin) as [_ F].
  destruct (get t b i j c); try reflexivity; discriminate F.
Qed.

(** C4 (as the code has it). Every element of a batch the node returns is
    either a NaN or lies within [0, 1]. It lies within [0, 1], whatever
    out-of-range values the input held, when the input holds no NaN and no
    feathering takes place (seam_feather <= 0, or one of the modes
    even_crop_only and sbs_extract_half), infinities included; and, with
    feathering, when every element of the input is a finite binary32
    value (no NaN, no infinity) and the ramp values lie within [0, 1]. *)
Theorem apply_output_clamped
        (linspace : nat -> nat -> f32) (images : tensor f32)
        (mode source_half output_layout even_width_handling : string)
        (seam_feather : Z) (out : tensor f32) :
  apply linspace images mode source_half output_layout
        even_width_handling seam_feather = Ok out ->
  (forall b i j c,
     is_nan (get out b i j c) = true \/ in_unit (get out b i j c) = true) /\
  (nan_free images ->
   seam_feather <= 0 \/ mode = "even_crop_only"%string
                     \/ mode = "sbs_extract_half"%string ->
   all_in_unit out) /\
  (finite_batch images -> ramp_in_unit linspace seam_feather ->
   all_in_unit out).
Proof.
  intro H. split; [|split].
  - destruct (apply_ok_clamped _ _ _ _ _ _ _ _ H) as [t ->].
    intros b i j c. cbn [clamp tmap get]. apply clamp_elt_nan_or_unit.
  - intros Hnan Hf.
    destruct (apply_ok_drawn _ _ _ _ _ _ _ _ Hf H) as [t [-> Hd]].
    apply (clamp_drawn_nan_free t images); assumption.
  - intros Hfin Hramp.
    pose proof (drawn_from_ensure_even_width images even_width_handling)
      as He.
    destruct (apply_modes linspace images mode source_half output_layout
                          even_width_handling seam_feather)
      as [-> | [-> | [-> | [-> | U]]]].
    + destruct (apply_ok_drawn _ _ _ _ _ _ _ _
                  (or_intror (or_introl eq_refl)) H) as [t [-> Hd]].
      apply (clamp_drawn_nan_free t images);
        [exact Hd | apply finite_batch_nan_free; exact Hfin].
    + destruct (apply_ok_drawn _ _ _ _ _ _ _ _
                  (or_intror (or_intror eq_refl)) H) as [t [-> Hd]].
      apply (clamp_drawn_nan_free t images);
        [exact Hd | apply finite_batch_nan_free; exact Hfin].
    + rewrite apply_sbs_copy_half_to_stereo in H. cbv zeta in H.
      destruct (dimW (_ensure_even_width images even_width_handling) mod 2
                =? 0)%nat eqn:Ev; cbn [negb] in H; [|discriminate H].
      injection H as <-.
      apply (feathered_clamped_in_unit linspace _ images);
        try assumption.
      * apply drawn_from_cat_self.
        destruct (source_half =? "left")%string;
          apply drawn_from_slice_w, He.
      * apply (duplicated_half_width
                 (_ensure_even_width images even_width_handling)
                 source_half).
        apply Nat.eqb_eq. exact Ev.
    + rewrite apply_mono_to_stereo_copy in H. cbv zeta in H.
      injection H as <-.
      apply (feathered_clamped_in_unit linspace _ images);
        try assumption.
      * apply drawn_from_cat_self, He.
      * apply duplicated_mono_width.
    + rewrite U in H. discriminate H.
Qed.

Lemma wide_range_image_finite : finite_batch wide_range_image.
Proof.
  intros b i j c [_ [_ [Hj _]]]. cbn in Hj.
  destruct j as [|[|[|[|j]]]]; [| | | |lia]; split; reflexivity.
Qed.

Lemma linspace_doc_ramp_2 : ramp_in_unit linspace_doc 2.
Proof.
  intros n k Hk Hn.
  destruct n as [|[|[|n]]]; [lia | | |lia].
  - destruct k as [|k]; [|lia]. split; reflexivity.
  - destruct k as [|[|k]]; [| |lia]; split; reflexivity.
Qed.

Lemma ramps_ok_sound (linspace : nat -> nat -> f32) (f : nat) :
  ramps_ok linspace f = true -> ramp_in_unit linspace (Z.of_nat f).
Proof.
  intros H n k Hk Hn. unfold ramps_ok in H.
  rewrite forallb_forall in H.
  assert (Hin : In n (seq 0 (S f))) by (apply in_seq; lia).
  specialize (H n Hin). unfold ramp_ok in H.
  rewrite forallb_forall in H.
  assert (Hik : In k (seq 0 n)) by (apply in_seq; lia).
  specialize (H k Hik). apply andb_true_iff in H. exact H.
Qed.

(** The seam_feather widget of the node ranges over 0..256: for every
    such width the ramp computed by [linspace_doc] holds binary32 values
    within [0, 1]. *)
Lemma linspace_doc_ramp_256 : ramp_in_unit linspace_doc 256.
Proof. apply (ramps_ok_sound linspace_doc 256). vm_compute. reflexivity. Qed.

(** A frame holding -1/2 and 3/2, duplicated and feathered over two
    columns on each side of the seam. *)
Lemma apply_output_clamped_witness :
  in_unit (get wide_range_image 0 0 0 0) = false /\
  in_unit (get wide_range_image 0 0 2 0) = false /\
  exists out,
    apply linspace_doc wide_range_image "mono_to_stereo_copy" "left"
          "cross_eyed" "skip" 2 = Ok out /\
    dimW out = 8%nat /\
    all_in_unit out.
Proof.
  split; [reflexivity|]. split; [reflexivity|].
  eexists. split; [reflexivity|]. split; [reflexivity|].
  refine (proj2 (proj2 (apply_output_clamped
                          linspace_doc wide_range_image
                          "mono_to_stereo_copy" "left" "cross_eyed" "skip" 2
                          _ eq_refl))
                wide_range_image_finite linspace_doc_ramp_2).
Defined.

(* ================================================================== *)
(** ** Feathering as the stereo node applies it *)

(** The frame the two duplicating modes build before feathering, and the
    half width they pass along with it. *)
Lemma apply_feathers_duplicate
      (linspace : nat -> nat -> f32) (images : tensor f32)
      (mode sh layout ewh : string) (f : Z) (out : tensor f32) :
  mode = "sbs_copy_half_to_stereo"%string \/
  mode = "mono_to_stereo_copy"%string ->
  apply linspace images mode sh layout ewh f = Ok out ->
  let images' := _ensure_even_width images ewh in
  let source :=
    if (mode =? "mono_to_stereo_copy")%string then images'
    else if (sh =? "left")%string
         then slice_w 0 (dimW images' / 2) images'
         else slice_w (dimW images' / 2) (dimW images') images' in
  dimW source = (if (mode =? "mono_to_stereo_copy")%string
                 then dimW images' else (dimW images' / 2)%nat) /\
  out = clamp (_seam_feather linspace (cat_w source (clone source)) f
                             (dimW source)) f32_zero f32_one.
Proof.
  intros Hmode H images' source.
  destruct Hmode as [-> | ->].
  - rewrite apply_sbs_copy_half_to_stereo in H. cbv zeta in H.
    fold images' in H.
    destruct (dimW images' mod 2 =? 0)%nat eqn:Ev; cbn [negb] in H;
      [|discriminate H].
    pose proof (even_halves _ Ev) as Hh.
    change ("sbs_copy_half_to_stereo" =? "mono_to_stereo_copy")%string
      with false in *.
    cbv iota in source |- *.
    assert (Hs : dimW source = (dimW images' / 2)%nat).
    { subst source. destruct (sh =? "left")%string;
        cbn [slice_w dimW]; lia. }
    split; [exact Hs|].
    injection H as <-. rewrite Hs. reflexivity.
  - rewrite apply_mono_to_stereo_copy in H. cbv zeta in H.
    fold images' in H.
    change ("mono_to_stereo_copy" =? "mono_to_stereo_copy")%string
      with true in *.
    cbv iota in source |- *. subst source.
    split; [reflexivity|].
    injection H as <-. reflexivity.
Qed.

(** C6. Whenever the node returns an SBS batch from one of its duplicating
    modes with seam_feather = f > 0, the batch is the clamped feathered
    frame, and in the feathered frame, of width 2*half, the min(f, half)
    columns left of the seam and the min(f, half) columns right of it are
    column for column the same, both holding
    left_band * (1 - ramp) + right_band * ramp of the bands of the frame
    before feathering, with ramp = linspace(0.0, 1.0, min(f, half)); the
    columns outside the two bands are those of the frame before
    feathering. *)
Theorem seam_feather_bands
        (linspace : nat -> nat -> f32) (images : tensor f32)
        (mode source_half output_layout even_width_handling : string)
        (seam_feather : Z) (out : tensor f32) :
  mode = "sbs_copy_half_to_stereo"%string \/
  mode = "mono_to_stereo_copy"%string ->
  0 < seam_feather ->
  apply linspace images mode source_half output_layout
        even_width_handling seam_feather = Ok out ->
  let images' := _ensure_even_width images even_width_handling in
  let source :=
    if (mode =? "mono_to_stereo_copy")%string then images'
    else if (source_half =? "left")%string
         then slice_w 0 (dimW images' / 2) images'
         else slice_w (dimW images' / 2) (dimW images') images' in
  let half := dimW source in
  let before := cat_w source (clone source) in
  let n := Nat.min (Z.to_nat seam_feather) half in
  let ramp := linspace n in
  let left_band b i k c := get before b i (half - n + k)%nat c in
  let right_band b i k c := get before b i (half + k)%nat c in
  let blended b i k c :=
    f32_add (f32_mul (left_band b i k c) (f32_sub f32_one (ramp k)))
            (f32_mul (right_band b i k c) (ramp k)) in
  let feathered := _seam_feather linspace before seam_feather half in
  half = (if (mode =? "mono_to_stereo_copy")%string
          then dimW images' else (dimW images' / 2)%nat) /\
  dimW before = (2 * half)%nat /\
  out = clamp feathered f32_zero f32_one /\
  (forall b i k c, (k < n)%nat ->
     get feathered b i (half - n + k)%nat c = blended b i k c /\
     get feathered b i (half + k)%nat c = blended b i k c /\
     get feathered b i (half - n + k)%nat c
       = get feathered b i (half + k)%nat c /\
     get out b i (half - n + k)%nat c
       = clamp_elt f32_zero f32_one (blended b i k c) /\
     get out b i (half + k)%nat c
       = clamp_elt f32_zero f32_one (blended b i k c)) /\
  (forall b i j c, (j < half - n \/ half + n <= j)%nat ->
     get feathered b i j c = get before b i j c /\
     get out b i j c = clamp_elt f32_zero f32_one (get before b i j c)).
Proof.
  intros Hmode Hf H images' source half before n ramp left_band right_band
         blended feathered.
  destruct (apply_feathers_duplicate linspace images mode source_half
                                     output_layout even_width_handling
                                     seam_feather out Hmode H)
    as [Hhalf Hout].
  fold images' source half before feathered in Hhalf, Hout.
  assert (HW : dimW before = (2 * half)%nat)
    by (apply duplicated_mono_width).
  destruct (seam_feather_blends linspace before seam_feather half Hf HW)
    as [_ [Hbands Hrest]].
  fold n ramp left_band right_band blended feathered in Hbands, Hrest.
  split; [exact Hhalf|]. split; [exact HW|]. split; [exact Hout|].
  split.
  - intros b i k c Hk.
    destruct (Hbands b i k c Hk) as [L [R E]].
    rewrite Hout. cbn [clamp tmap get]. rewrite L, R. auto.
  - intros b i j c Hj.
    pose proof (Hrest b i j c Hj) as E.
    rewrite Hout. cbn [clamp tmap get]. rewrite E. auto.
Qed.

(** A 2 x 4 mono frame duplicated to width 8 and feathered with f = 2:
    columns 2..3 and 4..5 are the bands. Column 4 held the source's
    column 0 and now holds its column 2, as column 2 does; column 3 held
    the source's column 3 and now holds its column 1, as column 5 does. *)
Lemma seam_feather_bands_witness :
  exists out,
    apply linspace_doc (sample_image 2 4) "mono_to_stereo_copy" "left"
          "cross_eyed" "skip" 2 = Ok out /\
    dimW out = 8%nat /\
    get out 0 1 2 1 = get out 0 1 4 1 /\
    get out 0 1 3 1 = get out 0 1 5 1 /\
    get out 0 1 4 1 = get (sample_image 2 4) 0 1 2 1 /\
    get out 0 1 3 1 = get (sample_image 2 4) 0 1 1 1 /\
    get (sample_image 2 4) 0 1 2 1 <> get (sample_image 2 4) 0 1 0 1 /\
    get (sample_image 2 4) 0 1 1 1 <> get (sample_image 2 4) 0 1 3 1.
Proof.
  eexists. split; [reflexivity|]. split; [reflexivity|].
  destruct (seam_feather_bands
              linspace_doc (sample_image 2 4) "mono_to_stereo_copy" "left"
              "cross_eyed" "skip" 2 _ (or_intror eq_refl) ltac:(lia)
              eq_refl) as [_ [_ [_ [Hbands _]]]].
  destruct (Hbands 0%nat 1%nat 0%nat 1%nat ltac:(simpl; lia))
    as [_ [_ [_ [L0 R0]]]].
  destruct (Hbands 0%nat 1%nat 1%nat 1%nat ltac:(simpl; lia))
    as [_ [_ [_ [L1 R1]]]].
  split; [exact (eq_trans L0 (eq_sym R0))|].
  split; [exact (eq_trans L1 (eq_sym R1))|].
  split; [refine (eq_trans R0 _); vm_compute; reflexivity|].
  split; [refine (eq_trans L1 _); vm_compute; reflexivity|].
  split; vm_compute; discriminate.
Defined.
